(** * MACES organic matter accretion models ([omac_mod.py])

  A shallow embedding of the six organic matter accretion classes
  [NULLMOD], [VDK05MOD], [M12MOD], [DA07MOD], [KM12MOD] and [K16MOD] and
  the properties of their operations.

  Numbers.  The source computes on numpy [float64] arrays.  The embedding
  idealises [float64] as the real numbers [R]: rounding is not modelled.
  The places where numpy leaves the finite numbers are modelled as
  errors of the [result] monad below, because [R] has no [inf] or [nan]
  to carry on with.  Python does not raise there: the call returns an
  array that holds [inf] or [nan].  A property of the values that an
  operation returns is therefore stated together with the conditions
  under which no such place is reached ([finite], [Divisors]).

  Arrays.  A one-dimensional numpy array is a [list]; the two-column
  arrays [OM] and [DecayOM] are lists of pairs.  An operation mutates
  one buffer of [inputs] in place and returns it: the model returns the
  new contents of that buffer. *)

From Stdlib Require Import Reals Lra Lia ZArith List Bool.
Import ListNotations.
Open Scope R_scope.

(** ** The numpy layer *)

Module Numpy.

(** How a numpy expression can go wrong.
    - [IndexError]: a fancy index [tbl[pft[indice]]] outside the table.
    - [ShapeError]: arrays that are not index-aligned (numpy raises a
      [ValueError] when broadcasting or an [IndexError] on a boolean
      index of the wrong length).
    - [FloatingPointError]: a division by zero or a power of a negative
      base.  With numpy's default error state this is a
      [RuntimeWarning] and the cell receives [inf] or [nan]; the model
      stops there. *)
Inductive error : Type :=
| IndexError
| ShapeError
| FloatingPointError.

Inductive result (A : Type) : Type :=
| Ok (a : A)
| Raise (e : error).

Arguments Ok {A} a.
Arguments Raise {A} e.

Definition bind {A B : Type} (m : result A) (k : A -> result B) : result B :=
  match m with
  | Ok a => k a
  | Raise e => Raise e
  end.

Definition guard (b : bool) (e : error) : result unit :=
  if b then Ok tt else Raise e.

End Numpy.

Import Numpy.

Declare Scope numpy_scope.
Delimit Scope numpy_scope with numpy.
Notation "x <- m ;; k" := (bind m (fun x => k))
  (at level 61, m at next level, right associativity) : numpy_scope.
Notation "m ;;; k" := (bind m (fun _ => k))
  (at level 61, right associativity) : numpy_scope.
Open Scope numpy_scope.

Module NumpyOps.

(** [x <= y] and [x < y] on array elements. *)
Definition Rleb (x y : R) : bool := if Rle_dec x y then true else false.
Definition Rltb (x y : R) : bool := if Rlt_dec x y then true else false.

(** [x / y] on array elements. *)
Definition div (x y : R) : result R :=
  if Req_dec_T y 0 then Raise FloatingPointError else Ok (x / y).

(** [x ** y] for a positive exponent [y] that is not an integer:
    [exp (y * ln x)] for a positive base, [0] at [0], [nan] below. *)
Definition power (x y : R) : result R :=
  if Rlt_dec 0 x then Ok (Rpower x y)
  else if Req_dec_T x 0 then Ok 0
  else Raise FloatingPointError.

(** [tbl[p]] for an integer [p]: numpy counts a negative index from the
    end of the table. *)
Definition take (tbl : list R) (p : Z) : result R :=
  let n := Z.of_nat (length tbl) in
  let q := if (p <? 0)%Z then (p + n)%Z else p in
  if ((0 <=? q)%Z && (q <? n)%Z)%bool
  then match nth_error tbl (Z.to_nat q) with
       | Some v => Ok v
       | None => Raise IndexError
       end
  else Raise IndexError.

(** Elements of index-aligned arrays. *)
Definition at_R (l : list R) (i : nat) : R := nth i l 0.
Definition at_Z (l : list Z) (i : nat) : Z := nth i l 0%Z.

(** All arrays of an operation have the length [n]. *)
Definition aligned (n : nat) (lens : list nat) : result unit :=
  guard (forallb (Nat.eqb n) lens) ShapeError.

Fixpoint mapM {A B : Type} (f : A -> result B) (l : list A) : result (list B) :=
  match l with
  | [] => Ok []
  | a :: l' =>
      b <- f a ;;
      bs <- mapM f l' ;;
      Ok (b :: bs)
  end.

(** [buf[indice] = val]: the cells selected by the boolean mask
    [indice] receive [val], computed on the selected cells only; the
    others keep what [buf] holds. *)
Definition masked_assign {A : Type} (d : A) (buf : list A)
    (indice : nat -> bool) (val : nat -> result A) : result (list A) :=
  mapM (fun i => if indice i then val i else Ok (nth i buf d))
       (seq 0 (length buf)).

(** [buf[:] = 0.0]. *)
Definition fill_zero (buf : list R) : list R := repeat 0 (length buf).

(** The right-hand side of a slice assignment [buf[:] = rhs] is
    broadcast to the length of [buf]. *)
Definition broadcast {A : Type} (n : nat) (rhs : list A) : result (list A) :=
  if Nat.eqb (length rhs) n then Ok rhs
  else match rhs with
       | [a] => Ok (repeat a n)
       | _ => Raise ShapeError
       end.

End NumpyOps.

Import NumpyOps.

(** ** The driving data

  The dictionary [inputs] that the driver hands to every operation, with
  the keys the six classes read.  [Slope] is the key ['S']. *)

Record Inputs : Type := mkInputs {
  zh : list R;            (* platform surface elevation (msl) *)
  pft : list Z;           (* platform pft *)
  Bag : list R;           (* aboveground biomass (kg/m2) *)
  Bbg : list R;           (* belowground biomass (kg/m2) *)
  DepOM : list R;         (* OM deposition (kg/m2/s) *)
  DecayOM : list (R * R); (* OM decay rate (kg/m2/s), two pools *)
  OM : list (R * R);      (* soil organic matter pools (kg/m2) *)
  Slope : list R;         (* platform surface slope (m/m) *)
  TR : R;                 (* tidal range *)
  MHHW : R;               (* mean high high water level (msl) *)
  Tair : R;               (* air temperature (K) *)
  month : R;              (* month (1 to 12) *)
  dofy : R;               (* day (1 to 365) *)
  dt : R                  (* time step (s) *)
}.

(** ** NULLMOD *)

Module NULLMOD.

Record params : Type := mkParams {
  aa : list R;
  bb : list R;
  cc : list R
}.

Definition organic_deposition (self : params) (inputs : Inputs) : result (list R) :=
  Ok (fill_zero (DepOM inputs)).

Definition indice (inputs : Inputs) (i : nat) : bool :=
  let MHT := 0.5 * TR inputs in
  (Rleb 0 (at_R (zh inputs) i) && Rleb (at_R (zh inputs) i) MHT)
  && ((2 <=? at_Z (pft inputs) i)%Z && (at_Z (pft inputs) i <=? 5)%Z).

(** [DMHT] is computed for the whole transect and then masked. *)
Definition aboveground_biomass (self : params) (inputs : Inputs) : result (list R) :=
  let MHT := 0.5 * TR inputs in
  let DMHT := map (fun z => MHT - z) (zh inputs) in
  aligned (length (Bag inputs)) [length (zh inputs); length (pft inputs)] ;;;
  masked_assign 0 (Bag inputs) (indice inputs) (fun i =>
    a <- take (aa self) (at_Z (pft inputs) i) ;;
    b <- take (bb self) (at_Z (pft inputs) i) ;;
    c <- take (cc self) (at_Z (pft inputs) i) ;;
    Ok (Rmax 0.0 (a * at_R DMHT i + b * at_R DMHT i ^ 2 + c))).

End NULLMOD.

(** ** VDK05MOD *)

Module VDK05MOD.

Record params : Type := mkParams {
  rB0 : list R;   (* intrinsic growth rate (yr-1) *)
  Bmax : list R;  (* maximal standing biomass (kg/m2) *)
  czh : list R;   (* a half-saturation elev constant (m) *)
  dP : list R;    (* plant mortality due to senescence (yr-1) *)
  dB : list R     (* plant mortality due to wave damage (yr-1) *)
}.

Definition organic_deposition (self : params) (inputs : Inputs) : result (list R) :=
  Ok (fill_zero (DepOM inputs)).

Definition indice (inputs : Inputs) (i : nat) : bool :=
  (2 <=? at_Z (pft inputs) i)%Z && (at_Z (pft inputs) i <=? 5)%Z.

(** The net growth rate [A] of a selected cell. *)
Definition A_cell (self : params) (zh_i S_i Bag_i : R) (p : Z) : result R :=
  r <- take (rB0 self) p ;;
  bm <- take (Bmax self) p ;;
  sat <- div Bag_i bm ;;
  c <- take (czh self) p ;;
  el <- div (Rmax zh_i 0) (Rmax zh_i 0 + c) ;;
  d1 <- take (dP self) p ;;
  d2 <- take (dB self) p ;;
  Ok (r * (1 - sat) * el - d1 - d2 * S_i).

Definition aboveground_biomass (self : params) (inputs : Inputs) : result (list R) :=
  aligned (length (Bag inputs))
    [length (pft inputs); length (zh inputs); length (Slope inputs)] ;;;
  masked_assign 0 (Bag inputs) (indice inputs) (fun i =>
    let Bag_i := at_R (Bag inputs) i in
    A <- A_cell self (at_R (zh inputs) i) (at_R (Slope inputs) i) Bag_i
           (at_Z (pft inputs) i) ;;
    q <- div (Bag_i * (1.0 + A * dt inputs / 3.1536e7))
             (1.0 - A * dt inputs / 3.1536e7) ;;
    Ok (Rmax 0.0 q)).

End VDK05MOD.

(** ** M12MOD *)

Module M12MOD.

Record params : Type := mkParams {
  Kr : list R;    (* the refractory fraction of root and rhizome biomass *)
  Tr : list R;    (* the root and rhizome turnover time (yr) *)
  phi : list R;   (* the root:shoot quotient *)
  aa : list R;
  bb : list R;
  cc : list R
}.

Definition indice_dep (inputs : Inputs) (i : nat) : bool :=
  Rltb 0 (at_R (Bag inputs) i).

Definition organic_deposition (self : params) (inputs : Inputs) : result (list R) :=
  aligned (length (DepOM inputs)) [length (Bag inputs); length (pft inputs)] ;;;
  masked_assign 0 (fill_zero (DepOM inputs)) (indice_dep inputs) (fun i =>
    let p := at_Z (pft inputs) i in
    kr <- take (Kr self) p ;;
    ph <- take (phi self) p ;;
    tr <- take (Tr self) p ;;
    div (kr * (ph * at_R (Bag inputs) i)) (tr * 3.1536e7)).

Definition indice (inputs : Inputs) (i : nat) : bool :=
  let MHT := 0.5 * TR inputs in
  (Rleb 0 (at_R (zh inputs) i) && Rleb (at_R (zh inputs) i) MHT)
  && ((2 <=? at_Z (pft inputs) i)%Z && (at_Z (pft inputs) i <=? 5)%Z).

(** [DMHT] is computed on the selected cells only. *)
Definition aboveground_biomass (self : params) (inputs : Inputs) : result (list R) :=
  let MHT := 0.5 * TR inputs in
  aligned (length (Bag inputs)) [length (zh inputs); length (pft inputs)] ;;;
  masked_assign 0 (Bag inputs) (indice inputs) (fun i =>
    let DMHT := MHT - at_R (zh inputs) i in
    a <- take (aa self) (at_Z (pft inputs) i) ;;
    b <- take (bb self) (at_Z (pft inputs) i) ;;
    c <- take (cc self) (at_Z (pft inputs) i) ;;
    Ok (Rmax 0.0 (a * DMHT + b * DMHT ^ 2 + c))).

End M12MOD.

(** ** DA07MOD *)

Module DA07MOD.

Section MacesUtilities.

(** [utils.TOL], the tolerance constant of the module [maces_utilities]. *)
Variable TOL : R.

Record params : Type := mkParams {
  Qom0 : R;       (* a typical OM deposition rate (m/yr) *)
  Bmax : list R;  (* maximum Bag (kg/m2) *)
  rhoOM : R;      (* OM density (kg/m3) *)
  omega : R;      (* the ratio of winter Bag to Bps *)
  mps : R         (* month of Bag at its peak *)
}.

Definition indice_dep (inputs : Inputs) (i : nat) : bool :=
  Rltb TOL (at_R (Bag inputs) i).

Definition organic_deposition (self : params) (inputs : Inputs) : result (list R) :=
  aligned (length (DepOM inputs)) [length (Bag inputs); length (pft inputs)] ;;;
  masked_assign 0 (fill_zero (DepOM inputs)) (indice_dep inputs) (fun i =>
    bm <- take (Bmax self) (at_Z (pft inputs) i) ;;
    div (Qom0 self / 3.1536e7 * rhoOM self * at_R (Bag inputs) i) bm).

Definition indice (inputs : Inputs) (i : nat) : bool :=
  let MHT := 0.5 * TR inputs in
  Rleb 0 (at_R (zh inputs) i) && Rleb (at_R (zh inputs) i) MHT.

Definition aboveground_biomass (self : params) (inputs : Inputs) : result (list R) :=
  let MHT := 0.5 * TR inputs in
  let m := month inputs in
  aligned (length (Bag inputs)) [length (zh inputs); length (pft inputs)] ;;;
  masked_assign 0 (Bag inputs) (indice inputs) (fun i =>
    rel <- div (MHT - at_R (zh inputs) i) MHT ;;
    bm <- take (Bmax self) (at_Z (pft inputs) i) ;;
    let Bps := rel * bm in
    Ok (0.5 * Bps * (1 - omega self)
          * (sin (PI * m / 6 - mps self * PI / 12) + 1)
        + omega self * Bps)).

End MacesUtilities.

End DA07MOD.

(** ** KM12MOD *)

Module KM12MOD.

Record params : Type := mkParams {
  thetaBG : list R;  (* coef for the root:shoot quotient *)
  Dmbm : list R;     (* coef for the root:shoot quotient *)
  Bmax : list R;     (* maximum Bag (kg/m2) *)
  rBmin : R;         (* the ratio of winter Bag to Bps *)
  Tref : list R;     (* reference temperature for veg growth (K) *)
  sigmaB : list R;   (* biomass increase due to temperature (K-1) *)
  rGmin : R;         (* the ratio of winter growth rate to Bps (day-1) *)
  rGps : R;          (* the ratio of peak growth rate to Bps (day-1) *)
  jdps : R;          (* the DOY when Bag is at its peak *)
  kl0 : R;           (* column-integrated decay rate of labile pool (yr-1) *)
  kr0 : R;           (* column-integrated decay rate of refractory pool (yr-1) *)
  TrefOM : R;        (* reference temperature for decay (K) *)
  sigmaOM : R        (* decay increase due to temperature (K-1) *)
}.

Definition indice (inputs : Inputs) (i : nat) : bool :=
  Rleb 0 (at_R (zh inputs) i) && Rleb (at_R (zh inputs) i) (MHHW inputs).

(** The root:shoot quotient of a selected cell. *)
Definition phi_cell (self : params) (inputs : Inputs) (i : nat) : result R :=
  let p := at_Z (pft inputs) i in
  th <- take (thetaBG self) p ;;
  dm <- take (Dmbm self) p ;;
  Ok (th * (MHHW inputs - at_R (zh inputs) i) + dm).

(** The peak season Bag of a selected cell. *)
Definition Bps_cell (self : params) (inputs : Inputs) (i : nat) : result R :=
  let p := at_Z (pft inputs) i in
  bm <- take (Bmax self) p ;;
  rel <- div (bm * (MHHW inputs - at_R (zh inputs) i)) (MHHW inputs) ;;
  tr <- take (Tref self) p ;;
  sg <- take (sigmaB self) p ;;
  Ok (rel * (1 + (Tair inputs - tr) * sg)).

Definition organic_deposition (self : params) (inputs : Inputs) : result (list R) :=
  let jd := dofy inputs in
  let jd_phi := 56 in
  aligned (length (DepOM inputs)) [length (zh inputs); length (pft inputs)] ;;;
  masked_assign 0 (fill_zero (DepOM inputs)) (indice inputs) (fun i =>
    phi <- phi_cell self inputs i ;;
    Bps <- Bps_cell self inputs i ;;
    let Bmin := rBmin self * Bps in
    let Gmin := rGmin self / 8.64e4 * Bps in
    let Gps := rGps self / 8.64e4 * Bps in
    let Mag :=
      0.5 * (Gmin + Gps
             + (Gps - Gmin) * cos (2.0 * PI * (jd - jdps self + jd_phi) / 365))
      + PI / 365 * (Bps - Bmin) * sin (2.0 * PI * (jd - jdps self) / 365) in
    Ok (Rmax phi 0.0 * Rmax Mag 0.0)).

Definition aboveground_biomass (self : params) (inputs : Inputs) : result (list R) :=
  let jd := dofy inputs in
  aligned (length (Bag inputs)) [length (zh inputs); length (pft inputs)] ;;;
  masked_assign 0 (Bag inputs) (indice inputs) (fun i =>
    Bps <- Bps_cell self inputs i ;;
    let Bmin := rBmin self * Bps in
    Ok (Rmax (0.5 * (Bmin + Bps
                     + (Bps - Bmin) * cos (2 * PI * (jd - jdps self) / 365)))
             0.0)).

Definition belowground_biomass (self : params) (inputs : Inputs) : result (list R) :=
  aligned (length (Bbg inputs))
    [length (zh inputs); length (pft inputs); length (Bag inputs)] ;;;
  masked_assign 0 (Bbg inputs) (indice inputs) (fun i =>
    phi <- phi_cell self inputs i ;;
    Ok (Rmax phi 0.0 * Rmax (at_R (Bag inputs) i) 0.0)).

Definition soilcarbon_decay (self : params) (inputs : Inputs)
    : result (list (R * R)) :=
  let Tsoi := Tair inputs in
  let n := length (DecayOM inputs) in
  let Cl := map fst (OM inputs) in
  let Cr := map snd (OM inputs) in
  col0 <- broadcast n
    (map (fun c => ((1.0 + (Tsoi - TrefOM self) * sigmaOM self) * kl0 self
                    / 3.1536e7) * c) Cl) ;;
  col1 <- broadcast n
    (map (fun c => ((1.0 + (Tsoi - TrefOM self) * sigmaOM self) * kr0 self
                    / 3.1536e7) * c) Cr) ;;
  Ok (combine col0 col1).

End KM12MOD.

(** ** K16MOD *)

Module K16MOD.

Record params : Type := mkParams {
  gammaB : R;     (* m yr-1 m2 kg-1 *)
  rhoOM : R;      (* OM density (kg/m3) *)
  Bmax : list R;  (* maximum Bag (kg/m2) *)
  Gmgv : R;       (* stem diameter growth rate (cm s-1) *)
  b2mgv : R;      (* coef for Md vs Mh equation (dimensionless) *)
  b3mgv : R;      (* coef for Md vs Mh equation (cm-1) *)
  Mhmax : R;      (* mangrove maximum height (cm) *)
  Mdmax : R;      (* mangrove maximum diameter (cm) *)
  phi : list R    (* the root:shoot quotient *)
}.

(** An instance: the parameters and the two arrays the class owns. *)
Record t : Type := mkK16 {
  m_params : params;
  Md : list R;    (* individual mangrove tree diameter (cm) *)
  Mh : list R     (* individual mangrove tree height (cm) *)
}.

(** The constructor [__init__(self, params, nx)]. *)
Definition init (p : params) (nx : nat) : t :=
  mkK16 p (repeat 0 nx) (repeat 0 nx).

Definition organic_deposition (self : t) (inputs : Inputs) : result (list R) :=
  broadcast (length (DepOM inputs))
    (map (fun b => rhoOM (m_params self) * gammaB (m_params self) / 3.1536e7 * b)
         (Bag inputs)).

Definition indice_zh (inputs : Inputs) (i : nat) : bool :=
  let MHT := 0.5 * TR inputs in
  Rleb 0 (at_R (zh inputs) i) && Rleb (at_R (zh inputs) i) MHT.

(** The three masks of [aboveground_biomass], in the order of the source. *)
Definition indice_spartina (inputs : Inputs) (i : nat) : bool :=
  indice_zh inputs i && (at_Z (pft inputs) i =? 2)%Z.

Definition indice_multi (inputs : Inputs) (i : nat) : bool :=
  ((at_Z (pft inputs) i =? 3)%Z || (at_Z (pft inputs) i =? 4)%Z)
  && indice_zh inputs i.

Definition indice_mangrove (inputs : Inputs) (i : nat) : bool :=
  indice_zh inputs i && (at_Z (pft inputs) i =? 5)%Z.

(** The update shared by the two marsh branches, from the production rate
    [rz] and the mortality rate [mz] of the cell. *)
Definition marsh_step (self : t) (inputs : Inputs) (rz mz Bag_i : R) (p : Z)
    : result R :=
  bm <- take (Bmax (m_params self)) p ;;
  sat <- div Bag_i bm ;;
  q <- div ((1 + 0.5 * (rz * (1 - sat) - mz) * dt inputs) * Bag_i)
           (1 - 0.5 * (rz * (1 - sat) - mz) * dt inputs) ;;
  Ok (Rmax q 0.0).

(** Spartina alterniflora dominated marshes. *)
Definition spartina_Bag (self : t) (inputs : Inputs) (Bag0 : list R)
    : result (list R) :=
  let MHT := 0.5 * TR inputs in
  masked_assign 0 Bag0 (indice_spartina inputs) (fun i =>
    rel <- div (0.5 * at_R (zh inputs) i) MHT ;;
    let rz := (1 - rel) / 3.1536e7 in
    let mz := rel / 3.1536e7 in
    marsh_step self inputs rz mz (at_R Bag0 i) (at_Z (pft inputs) i)).

(** Multi-species marshes. *)
Definition multi_Bag (self : t) (inputs : Inputs) (Bag1 : list R)
    : result (list R) :=
  let MHT := 0.5 * TR inputs in
  masked_assign 0 Bag1 (indice_multi inputs) (fun i =>
    rel <- div (at_R (zh inputs) i) MHT ;;
    let rz := 0.5 * (1 + rel) in
    let mz := 0.5 * (1 - rel) in
    marsh_step self inputs rz mz (at_R Bag1 i) (at_Z (pft inputs) i)).

(** Mangroves: the diameter, then the height, then the biomass. *)
Definition mangrove_Md (self : t) (inputs : Inputs) : result (list R) :=
  let MHT := 0.5 * TR inputs in
  let prm := m_params self in
  masked_assign 0 (Md self) (indice_mangrove inputs) (fun i =>
    let Md_i := at_R (Md self) i in
    let Mh_i := at_R (Mh self) i in
    rel <- div (at_R (zh inputs) i) MHT ;;
    let P := 1 - rel in
    let Ilight := Rmax (4 * P - 8 * P ^ 2 + 0.5) 0.0 in
    g1 <- div (dt inputs * Ilight * Gmgv prm) (Mdmax prm) ;;
    g2 <- div g1 (Mhmax prm) ;;
    inc <- div (g2 * Md_i * (1 - Md_i * Mh_i))
               (274 + 3 * b2mgv prm * Md_i - 4 * b3mgv prm * Md_i ^ 2) ;;
    Ok (Md_i + inc)).

Definition mangrove_Mh (self : t) (inputs : Inputs) (Md1 : list R)
    : result (list R) :=
  let prm := m_params self in
  masked_assign 0 (Mh self) (indice_mangrove inputs) (fun i =>
    Ok (137 + b2mgv prm * at_R Md1 i + b3mgv prm * at_R Md1 i ^ 2)).

Definition mangrove_Bag (inputs : Inputs) (Md1 Bag2 : list R)
    : result (list R) :=
  masked_assign 0 Bag2 (indice_mangrove inputs) (fun i =>
    rout <- div 0.5 (at_R Md1 i) ;;
    pw <- power (at_R Md1 i) 2.11 ;;
    Ok (rout * 0.308 * pw)).

Definition aboveground_biomass (self : t) (inputs : Inputs)
    : result (t * list R) :=
  aligned (length (Bag inputs))
    [length (zh inputs); length (pft inputs);
     length (Md self); length (Mh self)] ;;;
  Bag1 <- spartina_Bag self inputs (Bag inputs) ;;
  Bag2 <- multi_Bag self inputs Bag1 ;;
  Md1 <- mangrove_Md self inputs ;;
  Mh1 <- mangrove_Mh self inputs Md1 ;;
  Bag3 <- mangrove_Bag inputs Md1 Bag2 ;;
  Ok (mkK16 (m_params self) Md1 Mh1, Bag3).

Definition indice_marsh (inputs : Inputs) (i : nat) : bool :=
  ((2 <=? at_Z (pft inputs) i)%Z && (at_Z (pft inputs) i <=? 4)%Z)
  && indice_zh inputs i.

Definition belowground_biomass (self : t) (inputs : Inputs) : result (list R) :=
  aligned (length (Bbg inputs))
    [length (zh inputs); length (pft inputs);
     length (Bag inputs); length (Md self)] ;;;
  Bbg1 <- masked_assign 0 (Bbg inputs) (indice_marsh inputs) (fun i =>
    ph <- take (phi (m_params self)) (at_Z (pft inputs) i) ;;
    Ok (ph * at_R (Bag inputs) i)) ;;
  masked_assign 0 Bbg1 (indice_mangrove inputs) (fun i =>
    rout <- div 0.5 (at_R (Md self) i) ;;
    pw <- power (at_R (Md self) i) 1.17 ;;
    Ok (rout * 1.28 * pw)).

End K16MOD.

(** ** The transect geometry of [draw_plum_ecogeom_site.py]

    The script derives, from the node coordinates [x] and the node
    elevations [zh] of the simulated transect, the width [dx] of the
    cell around each node and the elevations [zh0] and [zh1] of its two
    faces. *)

Module Ecogeom.

(** [l[i]] for a non-negative index. *)
Definition item (l : list R) (i : nat) : result R :=
  match nth_error l i with
  | Some v => Ok v
  | None => Raise IndexError
  end.

Definition dx_cell (x : list R) (ii : nat) : result R :=
  let nx := length x in
  if Nat.eqb ii 0 then
    a <- item x (ii + 1) ;; b <- item x ii ;; Ok (0.5 * (a - b))
  else if Nat.eqb ii (nx - 1) then
    a <- item x ii ;; b <- item x (ii - 1) ;; Ok (0.5 * (a - b))
  else
    a <- item x (ii + 1) ;; b <- item x (ii - 1) ;; Ok (0.5 * (a - b)).

Definition zh0_cell (nx : nat) (zh : list R) (ii : nat) : result R :=
  if Nat.eqb ii 0 then item zh ii
  else if Nat.eqb ii (nx - 1) then
    a <- item zh ii ;; b <- item zh (ii - 1) ;; Ok (0.5 * (a + b))
  else
    a <- item zh ii ;; b <- item zh (ii - 1) ;; Ok (0.5 * (a + b)).

Definition zh1_cell (nx : nat) (zh : list R) (ii : nat) : result R :=
  if Nat.eqb ii 0 then
    a <- item zh (ii + 1) ;; b <- item zh ii ;; Ok (0.5 * (a + b))
  else if Nat.eqb ii (nx - 1) then item zh ii
  else
    a <- item zh ii ;; b <- item zh (ii + 1) ;; Ok (0.5 * (a + b)).

(** The loop [for ii in range(nx)], one array at a time. *)
Definition cell_widths (x : list R) : result (list R) :=
  mapM (dx_cell x) (seq 0 (length x)).

Definition lower_faces (x zh : list R) : result (list R) :=
  mapM (zh0_cell (length x) zh) (seq 0 (length x)).

Definition upper_faces (x zh : list R) : result (list R) :=
  mapM (zh1_cell (length x) zh) (seq 0 (length x)).

(** [np.sum]. *)
Definition sum (l : list R) : R := fold_right Rplus 0 l.

End Ecogeom.

(** The loop as the script runs it: each pass computes the width, then
    the lower face, then the upper face of one cell, and the first
    statement that fails ends the loop. *)

Module EcogeomLoop.

Definition cell_pass (x zh : list R) (ii : nat) : result (R * R * R) :=
  d <- Ecogeom.dx_cell x ii ;;
  z0 <- Ecogeom.zh0_cell (length x) zh ii ;;
  z1 <- Ecogeom.zh1_cell (length x) zh ii ;;
  Ok (d, z0, z1).

Definition geometry (x zh : list R) : result (list (R * R * R)) :=
  mapM (cell_pass x zh) (seq 0 (length x)).

End EcogeomLoop.

(** * Statements

    The predicates and formulas in which the properties below are
    stated, and the concrete driving data used to exercise them. *)

(** ** Validity predicates *)

(** The elevation of cell [i] lies between mean sea level and [top]. *)
Definition in_tide (inputs : Inputs) (top : R) (i : nat) : Prop :=
  0 <= at_R (zh inputs) i <= top.

(** Cell [i] carries marsh or mangrove: its pft is in [[2,5]]. *)
Definition vegetated (inputs : Inputs) (i : nat) : Prop :=
  (2 <= at_Z (pft inputs) i <= 5)%Z.

(** [out] is [buf] outside the cells selected by [valid]. *)
Definition unchanged_outside (valid : nat -> Prop) (buf out : list R) : Prop :=
  length out = length buf /\
  forall i, ~ valid i -> nth i out 0 = nth i buf 0.

(** [out] is zero outside the cells selected by [valid]. *)
Definition zero_outside (valid : nat -> Prop) (out : list R) : Prop :=
  forall i, ~ valid i -> nth i out 0 = 0.

(** Buffers without a negative entry. *)
Definition nonneg (l : list R) : Prop := Forall (fun v => 0 <= v) l.

Definition nonneg2 (l : list (R * R)) : Prop :=
  Forall (fun c => 0 <= fst c /\ 0 <= snd c) l.

(** ** The quadratic biomass curve

    What an [aboveground_biomass] that follows the closed-form curve
    returns: a cell inside the validity predicate holds
    [max(0, a*DMHT + b*DMHT^2 + c)] with the coefficients of its pft and
    [DMHT = 0.5*TR - zh]; any other cell holds what [Bag] held. *)
Definition quadratic_biomass_spec (aa bb cc : list R) (inputs : Inputs)
    (out : list R) : Prop :=
  length out = length (Bag inputs) /\
  forall i, (i < length (Bag inputs))%nat ->
    let MHT := 0.5 * TR inputs in
    let DMHT := MHT - at_R (zh inputs) i in
    let p := at_Z (pft inputs) i in
    (in_tide inputs MHT i /\ vegetated inputs i ->
       exists a b c,
         take aa p = Ok a /\ take bb p = Ok b /\ take cc p = Ok c /\
         nth i out 0 = Rmax 0 (a * DMHT + b * DMHT ^ 2 + c)) /\
    (~ (in_tide inputs MHT i /\ vegetated inputs i) ->
       nth i out 0 = nth i (Bag inputs) 0).

(** ** The trapezoidal step

    The semi-implicit trapezoidal update of a biomass [b] under the net
    rate [A] (yr-1) over a step of [dt] seconds, the year being
    [3.1536e7] seconds. *)
Definition trapezoidal_step (A b dt : R) : R :=
  let dt' := dt / 3.1536e7 in
  Rmax 0 (b * (1 + 0.5 * A * dt') / (1 - 0.5 * A * dt')).

(** ** The same driving data with one key replaced *)

Definition with_Bag (inputs : Inputs) (b : list R) : Inputs :=
  {| zh := zh inputs; pft := pft inputs; Bag := b; Bbg := Bbg inputs;
     DepOM := DepOM inputs; DecayOM := DecayOM inputs; OM := OM inputs;
     Slope := Slope inputs; TR := TR inputs; MHHW := MHHW inputs;
     Tair := Tair inputs; month := month inputs; dofy := dofy inputs;
     dt := dt inputs |}.

Definition with_month (inputs : Inputs) (m : R) : Inputs :=
  {| zh := zh inputs; pft := pft inputs; Bag := Bag inputs; Bbg := Bbg inputs;
     DepOM := DepOM inputs; DecayOM := DecayOM inputs; OM := OM inputs;
     Slope := Slope inputs; TR := TR inputs; MHHW := MHHW inputs;
     Tair := Tair inputs; month := m; dofy := dofy inputs;
     dt := dt inputs |}.

Definition with_dofy (inputs : Inputs) (jd : R) : Inputs :=
  {| zh := zh inputs; pft := pft inputs; Bag := Bag inputs; Bbg := Bbg inputs;
     DepOM := DepOM inputs; DecayOM := DecayOM inputs; OM := OM inputs;
     Slope := Slope inputs; TR := TR inputs; MHHW := MHHW inputs;
     Tair := Tair inputs; month := month inputs; dofy := jd;
     dt := dt inputs |}.

(** ** Driving data for the examples *)

Module Examples.

(** A transect of one cell; the buffers hold what the caller passes in. *)
Definition one_cell (z : R) (p : Z) (bag dep : R) (tr : R) : Inputs :=
  {| zh := [z]; pft := [p]; Bag := [bag]; Bbg := [0]; DepOM := [dep];
     DecayOM := [(0, 0)]; OM := [(0, 0)]; Slope := [0];
     TR := tr; MHHW := 1; Tair := 0; month := 1; dofy := 1; dt := 1 |}.

(** A salt marsh cell at [zh = 0.3] under a tidal range of [1.0], with
    the coefficients [a = 0.5], [b = -0.1], [c = 0.05] for pft 2. *)
Definition marsh_cell : Inputs := one_cell 0.3 2 0 0 1.0.

Definition null_params : NULLMOD.params :=
  {| NULLMOD.aa := [0; 0; 0.5]; NULLMOD.bb := [0; 0; -0.1];
     NULLMOD.cc := [0; 0; 0.05] |}.

Definition m12_params : M12MOD.params :=
  {| M12MOD.Kr := [0; 0; 0.5]; M12MOD.Tr := [1; 1; 2];
     M12MOD.phi := [0; 0; 0.3];
     M12MOD.aa := [0; 0; 0.5]; M12MOD.bb := [0; 0; -0.1];
     M12MOD.cc := [0; 0; 0.05] |}.

(** A salt marsh cell that only loses biomass: no growth ([rB0 = 0]),
    senescence of [1] per year, a step of one year. *)
Definition vdk_params : VDK05MOD.params :=
  {| VDK05MOD.rB0 := [0; 0; 0]; VDK05MOD.Bmax := [1; 1; 1];
     VDK05MOD.czh := [1; 1; 1]; VDK05MOD.dP := [0; 0; 1];
     VDK05MOD.dB := [0; 0; 0] |}.

Definition senescent_cell : Inputs :=
  {| zh := [1]; pft := [2%Z]; Bag := [1]; Bbg := [0]; DepOM := [0];
     DecayOM := [(0, 0)]; OM := [(0, 0)]; Slope := [0];
     TR := 2; MHHW := 1; Tair := 0; month := 1; dofy := 1;
     dt := 3.1536e7 |}.

(** A mangrove cell half way up the tidal frame: [zh = 0.5], [TR = 2]. *)
Definition mangrove_cell : Inputs := one_cell 0.5 5 0 0 2.

Definition k16_params : K16MOD.params :=
  {| K16MOD.gammaB := 0.002; K16MOD.rhoOM := 1;
     K16MOD.Bmax := [1; 1; 1; 1; 1; 1];
     K16MOD.Gmgv := 162; K16MOD.b2mgv := 48.04; K16MOD.b3mgv := 0.172;
     K16MOD.Mhmax := 3500; K16MOD.Mdmax := 140;
     K16MOD.phi := [0; 0; 1; 1; 1; 1] |}.

(** An instance whose tree has a diameter of [1] cm, and one whose tree
    is a seedling of [0.001] cm; the heights follow the allometry. *)
Definition grown_tree : K16MOD.t :=
  K16MOD.mkK16 k16_params [1] [185.212].

Definition seedling : K16MOD.t :=
  K16MOD.mkK16 k16_params [0.001] [137.048].

(** The salt marsh cell without standing biomass, whose [DepOM] buffer
    still holds a flux of [1] from an earlier step. *)
Definition stale_deposition : Inputs := one_cell 0.3 2 0 1 1.0.

(** A tidal flat cell (pft 1) inside the tidal frame whose [Bag] buffer
    holds [0.2]. *)
Definition flat_cell : Inputs := one_cell 0.3 1 0.2 0 1.0.

(** No biomass on barriers and tidal flats, [1.2] kg/m2 at most on the
    vegetated types. *)
Definition da_params : DA07MOD.params :=
  {| DA07MOD.Qom0 := 0.002; DA07MOD.Bmax := [0; 0; 1.2; 1.2; 1.2; 1.2];
     DA07MOD.rhoOM := 1200; DA07MOD.omega := 0.5; DA07MOD.mps := 7 |}.

(** Decay rates inside their documented ranges ([kl0] in [[0.5,5.0]],
    [kr0] in [[0.00008,0.0015]]), a reference temperature of 293 K. *)
Definition km_params : KM12MOD.params :=
  {| KM12MOD.thetaBG := [0; 0; 2; 2; 2; 2];
     KM12MOD.Dmbm := [0; 0; 1; 1; 1; 1];
     KM12MOD.Bmax := [0; 0; 1.2; 1.2; 1.2; 1.2];
     KM12MOD.rBmin := 0;
     KM12MOD.Tref := [293; 293; 293; 293; 293; 293];
     KM12MOD.sigmaB := [0; 0; 0.06; 0.06; 0.06; 0.06];
     KM12MOD.rGmin := 0; KM12MOD.rGps := 0.0138; KM12MOD.jdps := 200;
     KM12MOD.kl0 := 1; KM12MOD.kr0 := 0.001;
     KM12MOD.TrefOM := 293; KM12MOD.sigmaOM := 0.05 |}.

(** One cell with [1] kg/m2 in each soil pool under 263 K. *)
Definition cold_soil : Inputs :=
  {| zh := [0.3]; pft := [2%Z]; Bag := [0.5]; Bbg := [0]; DepOM := [0];
     DecayOM := [(0, 0)]; OM := [(1, 1)]; Slope := [0];
     TR := 1.0; MHHW := 1; Tair := 263; month := 1; dofy := 1; dt := 1 |}.

End Examples.

(** ** Divisors

    The conditions under which no operation divides by zero, stated on
    the parameters, the driving data and the private state. *)

(** The entry of [tbl] for the pft [p], when there is one, is not zero. *)
Definition nonzero_at (tbl : list R) (p : Z) : Prop :=
  forall v, take tbl p = Ok v -> v <> 0.

Module Divisors.

(** VDK05MOD, at every vegetated cell: [Bmax], the elevation term
    [max(zh,0) + czh] and the denominator [1 - A*dt/3.1536e7] of the
    step, [A] being the net rate of the cell. *)
Definition VDK05 (self : VDK05MOD.params) (inputs : Inputs) : Prop :=
  forall i, (i < length (Bag inputs))%nat -> vegetated inputs i ->
    let p := at_Z (pft inputs) i in
    nonzero_at (VDK05MOD.Bmax self) p /\
    (forall c, take (VDK05MOD.czh self) p = Ok c ->
               Rmax (at_R (zh inputs) i) 0 + c <> 0) /\
    (forall A,
       VDK05MOD.A_cell self (at_R (zh inputs) i) (at_R (Slope inputs) i)
         (at_R (Bag inputs) i) p = Ok A ->
       1 - A * dt inputs / 3.1536e7 <> 0).

(** M12MOD deposition: the turnover time of every cell with biomass. *)
Definition M12_deposition (self : M12MOD.params) (inputs : Inputs) : Prop :=
  forall i, (i < length (DepOM inputs))%nat -> 0 < at_R (Bag inputs) i ->
    nonzero_at (M12MOD.Tr self) (at_Z (pft inputs) i).

(** DA07MOD deposition: [Bmax] of every cell above the tolerance. *)
Definition DA07_deposition (TOL : R) (self : DA07MOD.params)
    (inputs : Inputs) : Prop :=
  forall i, (i < length (DepOM inputs))%nat -> TOL < at_R (Bag inputs) i ->
    nonzero_at (DA07MOD.Bmax self) (at_Z (pft inputs) i).

(** The denominator [1 - 0.5*(rz*(1 - Bag/Bmax) - mz)*dt] of the two
    marsh branches of K16MOD. *)
Definition K16_step_denominator (rz mz b bm dt : R) : R :=
  1 - 0.5 * (rz * (1 - b / bm) - mz) * dt.

Definition K16_spartina_denominator (inputs : Inputs) (bm : R) (i : nat) : R :=
  let rel := 0.5 * at_R (zh inputs) i / (0.5 * TR inputs) in
  K16_step_denominator ((1 - rel) / 3.1536e7) (rel / 3.1536e7)
    (at_R (Bag inputs) i) bm (dt inputs).

Definition K16_multi_denominator (inputs : Inputs) (bm : R) (i : nat) : R :=
  let rel := at_R (zh inputs) i / (0.5 * TR inputs) in
  K16_step_denominator (0.5 * (1 + rel)) (0.5 * (1 - rel))
    (at_R (Bag inputs) i) bm (dt inputs).

(** K16MOD, at every marsh cell inside the tidal frame: [Bmax] and the
    denominator of the step of its branch. *)
Definition K16_marsh (self : K16MOD.t) (inputs : Inputs) : Prop :=
  forall i bm, (i < length (Bag inputs))%nat ->
    in_tide inputs (0.5 * TR inputs) i ->
    take (K16MOD.Bmax (K16MOD.m_params self)) (at_Z (pft inputs) i) = Ok bm ->
    (at_Z (pft inputs) i = 2%Z ->
       bm <> 0 /\ K16_spartina_denominator inputs bm i <> 0) /\
    (at_Z (pft inputs) i = 3%Z \/ at_Z (pft inputs) i = 4%Z ->
       bm <> 0 /\ K16_multi_denominator inputs bm i <> 0).

(** K16MOD, for the diameter update: the two maxima, and at every
    mangrove cell inside the tidal frame the allometric denominator. *)
Definition K16_mangrove (self : K16MOD.t) (inputs : Inputs) : Prop :=
  K16MOD.Mdmax (K16MOD.m_params self) <> 0 /\
  K16MOD.Mhmax (K16MOD.m_params self) <> 0 /\
  forall i, (i < length (Bag inputs))%nat ->
    in_tide inputs (0.5 * TR inputs) i -> at_Z (pft inputs) i = 5%Z ->
    274 + 3 * K16MOD.b2mgv (K16MOD.m_params self) * at_R (K16MOD.Md self) i
    - 4 * K16MOD.b3mgv (K16MOD.m_params self) * at_R (K16MOD.Md self) i ^ 2
    <> 0.

(** The diameter that [aboveground_biomass] stores at cell [i]:
    [Md + dt*I*Gmgv/Mdmax/Mhmax * Md*(1 - Md*Mh) / (274 + 3*b2mgv*Md
    - 4*b3mgv*Md^2)] with [I = max(4*P - 8*P^2 + 0.5, 0)] and
    [P = 1 - zh/MHT]. *)
Definition K16_new_diameter (self : K16MOD.t) (inputs : Inputs) (i : nat) : R :=
  let prm := K16MOD.m_params self in
  let Md_i := at_R (K16MOD.Md self) i in
  let Mh_i := at_R (K16MOD.Mh self) i in
  let P := 1 - at_R (zh inputs) i / (0.5 * TR inputs) in
  let Ilight := Rmax (4 * P - 8 * P ^ 2 + 0.5) 0.0 in
  Md_i + dt inputs * Ilight * K16MOD.Gmgv prm / K16MOD.Mdmax prm
         / K16MOD.Mhmax prm * Md_i * (1 - Md_i * Mh_i)
         / (274 + 3 * K16MOD.b2mgv prm * Md_i
            - 4 * K16MOD.b3mgv prm * Md_i ^ 2).

(** K16MOD: the diameter stored by the call is positive at every
    mangrove cell inside the tidal frame. *)
Definition K16_new_diameter_positive (self : K16MOD.t) (inputs : Inputs)
    : Prop :=
  forall i, (i < length (K16MOD.Md self))%nat ->
    in_tide inputs (0.5 * TR inputs) i -> at_Z (pft inputs) i = 5%Z ->
    0 < K16_new_diameter self inputs i.

(** The diameters [Md] are positive at every mangrove cell inside the
    tidal frame. *)
Definition positive_diameter (inputs : Inputs) (Md : list R) : Prop :=
  forall i, (i < length Md)%nat ->
    in_tide inputs (0.5 * TR inputs) i -> at_Z (pft inputs) i = 5%Z ->
    0 < at_R Md i.

End Divisors.

(** A computation in which no division by zero, and no power of a
    negative base, has occurred. *)
Definition finite {A : Type} (m : result A) : Prop :=
  m <> Raise FloatingPointError.

(** ** Further driving data *)

Module Cases.

(** Coefficient tables with an entry for each of the pft codes 0 to 5. *)
Definition null_full : NULLMOD.params :=
  {| NULLMOD.aa := [0; 0; 0.5; 0.5; 0.5; 0.5];
     NULLMOD.bb := [0; 0; -0.1; -0.1; -0.1; -0.1];
     NULLMOD.cc := [0; 0; 0.05; 0.05; 0.05; 0.05] |}.

Definition m12_full : M12MOD.params :=
  {| M12MOD.Kr := [0; 0; 0.5; 0.5; 0.5; 0.5];
     M12MOD.Tr := [1; 1; 2; 2; 2; 2];
     M12MOD.phi := [0; 0; 0.3; 0.3; 0.3; 0.3];
     M12MOD.aa := [0; 0; 0.5; 0.5; 0.5; 0.5];
     M12MOD.bb := [0; 0; -0.1; -0.1; -0.1; -0.1];
     M12MOD.cc := [0; 0; 0.05; 0.05; 0.05; 0.05] |}.

(** The salt marsh cell with a standing biomass of [0.4] kg/m2. *)
Definition marsh_04 : Inputs := Examples.one_cell 0.3 2 0.4 0 1.0.

(** A needleleaf evergreen tree cell (pft 6) inside the tidal frame. *)
Definition tree_cell : Inputs := Examples.one_cell 0.3 6 0 0 1.0.

(** A transect of three nodes. *)
Definition x3 : list R := [0; 10; 30].
Definition zh3 : list R := [0.2; 0.4; 1.0].

(** A salt marsh cell and its seaward tidal flat. *)
Definition two_cells : Inputs :=
  {| zh := [0.1; 0.3]; pft := [1%Z; 2%Z]; Bag := [0; 0.4]; Bbg := [0; 0];
     DepOM := [0; 0]; DecayOM := [(0, 0); (0, 0)]; OM := [(1, 2); (3, 4)];
     Slope := [0; 0]; TR := 1.0; MHHW := 1; Tair := 293; month := 1;
     dofy := 200; dt := 3.1536e7 |}.

End Cases.

(** * Properties *)

(** ** The [result] monad and the array primitives *)

Lemma bind_Ok_inv {A B : Type} (m : result A) (k : A -> result B) (b : B) :
  bind m k = Ok b -> exists a, m = Ok a /\ k a = Ok b.
Proof.
  destruct m as [a|e]; simpl; intros H; [eauto | discriminate].
Qed.

Lemma bind_ext {A B : Type} (m : result A) (k1 k2 : A -> result B) :
  (forall a, k1 a = k2 a) -> bind m k1 = bind m k2.
Proof. intros H. destruct m; simpl; auto. Qed.

Lemma bind_Raise_inv {A B : Type} (m : result A) (k : A -> result B) (e : error) :
  bind m k = Raise e ->
  m = Raise e \/ exists a, m = Ok a /\ k a = Raise e.
Proof.
  destruct m as [a|e']; simpl; intros H; [right; eauto | left].
  now injection H as ->.
Qed.

Section NumpyFacts.

Context {A B : Type}.

Lemma mapM_length (f : A -> result B) (l : list A) (out : list B) :
  mapM f l = Ok out -> length out = length l.
Proof.
  revert out; induction l as [|a l IH]; simpl; intros out H.
  - injection H as <-. reflexivity.
  - apply bind_Ok_inv in H as (b & _ & H).
    apply bind_Ok_inv in H as (bs & Hbs & H).
    injection H as <-. simpl. f_equal. now apply IH.
Qed.

Lemma mapM_nth (f : A -> result B) (l : list A) (out : list B) (da : A) (db : B) :
  mapM f l = Ok out ->
  forall i, (i < length l)%nat -> f (nth i l da) = Ok (nth i out db).
Proof.
  revert out; induction l as [|a l IH]; simpl; intros out H i Hi.
  - lia.
  - apply bind_Ok_inv in H as (b & Hb & H).
    apply bind_Ok_inv in H as (bs & Hbs & H).
    injection H as <-. destruct i as [|i]; simpl.
    + exact Hb.
    + apply IH; [exact Hbs | lia].
Qed.

Lemma mapM_ext (f g : A -> result B) (l : list A) :
  (forall a, In a l -> f a = g a) -> mapM f l = mapM g l.
Proof.
  induction l as [|a l IH]; simpl; intros H; [reflexivity|].
  rewrite (H a) by now left.
  rewrite IH by (intros; apply H; now right). reflexivity.
Qed.

Lemma mapM_total (f : A -> result B) (l : list A) :
  (forall a, In a l -> exists b, f a = Ok b) -> exists out, mapM f l = Ok out.
Proof.
  induction l as [|a l IH]; simpl; intros H; [eauto|].
  destruct (H a) as (b & Hb); [now left|].
  destruct IH as (bs & Hbs); [intros; apply H; now right|].
  rewrite Hb, Hbs. simpl. eauto.
Qed.

(** When every failure is the error [e], and some element fails, the
    whole traversal fails with [e]. *)
Lemma mapM_Raise (f : A -> result B) (l : list A) (e : error) :
  (forall a, In a l -> f a = Raise e \/ exists b, f a = Ok b) ->
  (exists a, In a l /\ f a = Raise e) ->
  mapM f l = Raise e.
Proof.
  induction l as [|a l IH]; simpl; intros Hall (x & Hx & Hfx); [contradiction|].
  destruct (Hall a (or_introl eq_refl)) as [Ha | (b & Hb)].
  - now rewrite Ha.
  - rewrite Hb. simpl. rewrite IH; [reflexivity | auto |].
    destruct Hx as [-> | Hx]; [congruence | eauto].
Qed.

Lemma mapM_Raise_inv (f : A -> result B) (l : list A) (e : error) :
  mapM f l = Raise e -> exists a, In a l /\ f a = Raise e.
Proof.
  induction l as [|a l IH]; simpl; intros H; [discriminate|].
  destruct (f a) as [b|e'] eqn:Ha; simpl in H.
  - destruct (mapM f l) as [bs|e'']; simpl in H; [discriminate|].
    injection H as ->. destruct IH as (x & Hx & Hfx); eauto.
  - injection H as ->. eauto.
Qed.

End NumpyFacts.

Section MaskedAssign.

Context {A : Type} (d : A).
Variables (buf : list A) (indice : nat -> bool) (val : nat -> result A).

Lemma masked_assign_length (out : list A) :
  masked_assign d buf indice val = Ok out -> length out = length buf.
Proof.
  unfold masked_assign; intros H.
  apply mapM_length in H. now rewrite length_seq in H.
Qed.

Lemma masked_assign_cell (out : list A) (i : nat) :
  masked_assign d buf indice val = Ok out ->
  (i < length buf)%nat ->
  (if indice i then val i else Ok (nth i buf d)) = Ok (nth i out d).
Proof.
  unfold masked_assign; intros H Hi.
  apply (mapM_nth _ _ _ O d) with (i := i) in H.
  - now rewrite seq_nth in H.
  - now rewrite length_seq.
Qed.

(** A cell that the mask leaves out keeps its value. *)
Lemma masked_assign_keep (out : list A) (i : nat) :
  masked_assign d buf indice val = Ok out ->
  indice i = false ->
  nth i out d = nth i buf d.
Proof.
  intros H Hm. destruct (Nat.lt_ge_cases i (length buf)) as [Hi|Hi].
  - pose proof (masked_assign_cell out i H Hi) as Hc.
    rewrite Hm in Hc. now injection Hc.
  - rewrite !nth_overflow; auto.
    now rewrite (masked_assign_length out H).
Qed.

(** A selected cell holds the value computed for it. *)
Lemma masked_assign_set (out : list A) (i : nat) :
  masked_assign d buf indice val = Ok out ->
  (i < length buf)%nat ->
  indice i = true ->
  val i = Ok (nth i out d).
Proof.
  intros H Hi Hm. pose proof (masked_assign_cell out i H Hi) as Hc.
  now rewrite Hm in Hc.
Qed.

(** A property of the elements of [buf] and of every computed value is a
    property of the elements of the result. *)
Lemma masked_assign_Forall (P : A -> Prop) (out : list A) :
  masked_assign d buf indice val = Ok out ->
  Forall P buf ->
  (forall i v, (i < length buf)%nat -> indice i = true -> val i = Ok v -> P v) ->
  Forall P out.
Proof.
  intros H Hbuf Hval. apply Forall_forall. intros x Hx.
  apply (In_nth _ _ d) in Hx as (i & Hi & <-).
  rewrite (masked_assign_length out H) in Hi.
  pose proof (masked_assign_cell out i H Hi) as Hc.
  destruct (indice i) eqn:Hm.
  - eapply Hval; eauto.
  - injection Hc as <-. rewrite Forall_forall in Hbuf.
    apply Hbuf, nth_In, Hi.
Qed.

End MaskedAssign.

(** Two assignments that agree cell by cell are the same assignment. *)
Lemma masked_assign_ext {A : Type} (d : A) (buf : list A)
    (m1 m2 : nat -> bool) (v1 v2 : nat -> result A) :
  (forall i, (i < length buf)%nat -> m1 i = m2 i) ->
  (forall i, (i < length buf)%nat -> m1 i = true -> v1 i = v2 i) ->
  masked_assign d buf m1 v1 = masked_assign d buf m2 v2.
Proof.
  intros Hm Hv. unfold masked_assign. apply mapM_ext.
  intros i Hi. apply in_seq in Hi. rewrite <- Hm by lia.
  destruct (m1 i) eqn:E; [apply Hv; auto; lia | reflexivity].
Qed.

(** ** Comparisons, division and table lookup *)

Lemma Rleb_true_iff (x y : R) : Rleb x y = true <-> x <= y.
Proof.
  unfold Rleb. destruct (Rle_dec x y); split; intros;
    solve [auto | discriminate | contradiction].
Qed.

Lemma Rltb_true_iff (x y : R) : Rltb x y = true <-> x < y.
Proof.
  unfold Rltb. destruct (Rlt_dec x y); split; intros;
    solve [auto | discriminate | contradiction].
Qed.

Lemma Rleb_false_iff (x y : R) : Rleb x y = false <-> ~ x <= y.
Proof.
  rewrite <- Rleb_true_iff. destruct (Rleb x y); split; intros H;
    solve [auto | discriminate | now elim H].
Qed.

Lemma Rltb_false_iff (x y : R) : Rltb x y = false <-> ~ x < y.
Proof.
  rewrite <- Rltb_true_iff. destruct (Rltb x y); split; intros H;
    solve [auto | discriminate | now elim H].
Qed.

Lemma div_Ok_inv (x y q : R) : div x y = Ok q -> y <> 0 /\ q = x / y.
Proof.
  unfold div. destruct (Req_dec_T y 0); intros H; [discriminate|].
  injection H as <-. auto.
Qed.

Lemma div_Ok (x y : R) : y <> 0 -> div x y = Ok (x / y).
Proof.
  unfold div. intros H. destruct (Req_dec_T y 0); [contradiction | reflexivity].
Qed.

Lemma div_zero (x : R) : div x 0 = Raise FloatingPointError.
Proof.
  unfold div. destruct (Req_dec_T 0 0); [reflexivity | now elim n].
Qed.

Lemma div_Raise_inv (x y : R) (e : error) :
  div x y = Raise e -> e = FloatingPointError.
Proof.
  unfold div. destruct (Req_dec_T y 0); intros H; [|discriminate].
  now injection H.
Qed.

Lemma repeat_zero_Forall (n : nat) : Forall (fun v => v = 0) (repeat 0 n).
Proof.
  apply Forall_forall. intros x Hx. now apply repeat_spec in Hx.
Qed.

Lemma at_R_repeat_zero (n i : nat) : at_R (repeat 0 n) i = 0.
Proof.
  unfold at_R. destruct (Nat.lt_ge_cases i n).
  - now apply nth_repeat_lt.
  - apply nth_overflow. now rewrite repeat_length.
Qed.

Lemma power_Ok_inv (x y v : R) :
  power x y = Ok v -> (0 < x /\ v = Rpower x y) \/ (x = 0 /\ v = 0).
Proof.
  unfold power. destruct (Rlt_dec 0 x).
  - intros H; injection H as <-. auto.
  - destruct (Req_dec_T x 0); intros H; [|discriminate].
    injection H as <-. auto.
Qed.

Lemma power_pos (x y : R) : 0 < x -> power x y = Ok (Rpower x y).
Proof.
  unfold power. intros H. destruct (Rlt_dec 0 x); [reflexivity | contradiction].
Qed.

Lemma Rpower_pos (x y : R) : 0 < Rpower x y.
Proof. unfold Rpower. apply exp_pos. Qed.

Lemma take_Ok_In (tbl : list R) (p : Z) (v : R) : take tbl p = Ok v -> In v tbl.
Proof.
  unfold take. destruct (_ && _)%bool; [|discriminate].
  destruct (nth_error tbl _) eqn:E; intros H; [|discriminate].
  injection H as <-. eapply nth_error_In; eauto.
Qed.

Lemma take_Forall (P : R -> Prop) (tbl : list R) (p : Z) (v : R) :
  Forall P tbl -> take tbl p = Ok v -> P v.
Proof.
  intros HP H. rewrite Forall_forall in HP. eapply HP, take_Ok_In; eauto.
Qed.

Lemma aligned_Ok_inv {A : Type} (n : nat) (lens : list nat) (k : result A) (a : A) :
  (aligned n lens ;;; k) = Ok a -> Forall (eq n) lens /\ k = Ok a.
Proof.
  unfold aligned, guard. destruct (forallb (Nat.eqb n) lens) eqn:E; simpl;
    intros H; [|discriminate].
  split; [|exact H]. rewrite forallb_forall in E. apply Forall_forall.
  intros x Hx. now apply Nat.eqb_eq, E.
Qed.

Lemma aligned_Ok {A : Type} (n : nat) (lens : list nat) (k : result A) :
  Forall (eq n) lens -> (aligned n lens ;;; k) = k.
Proof.
  intros H. unfold aligned, guard.
  replace (forallb (Nat.eqb n) lens) with true; [reflexivity|].
  symmetry. apply forallb_forall. rewrite Forall_forall in H.
  intros x Hx. apply Nat.eqb_eq. now apply H.
Qed.

Lemma fill_zero_length (buf : list R) : length (fill_zero buf) = length buf.
Proof. unfold fill_zero. apply repeat_length. Qed.

Lemma fill_zero_nth (buf : list R) (i : nat) : nth i (fill_zero buf) 0 = 0.
Proof.
  unfold fill_zero. destruct (Nat.lt_ge_cases i (length buf)).
  - now apply nth_repeat_lt.
  - apply nth_overflow. now rewrite repeat_length.
Qed.

Lemma fill_zero_Forall (buf : list R) : Forall (fun v => v = 0) (fill_zero buf).
Proof.
  unfold fill_zero. apply Forall_forall. intros x Hx.
  now apply repeat_spec in Hx.
Qed.

Lemma broadcast_Forall {A : Type} (P : A -> Prop) (n : nat) (rhs out : list A) :
  broadcast n rhs = Ok out -> Forall P rhs -> Forall P out.
Proof.
  unfold broadcast. destruct (Nat.eqb (length rhs) n).
  - intros H; now injection H as <-.
  - destruct rhs as [|a [|b rhs]]; intros H HP; try discriminate.
    injection H as <-. apply Forall_forall. intros x Hx.
    apply repeat_spec in Hx as ->. now inversion HP.
Qed.

Lemma broadcast_length {A : Type} (n : nat) (rhs out : list A) :
  broadcast n rhs = Ok out -> length out = n.
Proof.
  unfold broadcast. destruct (Nat.eqb (length rhs) n) eqn:E.
  - intros H; injection H as <-. now apply Nat.eqb_eq.
  - destruct rhs as [|a [|b rhs]]; intros H; try discriminate.
    injection H as <-. apply repeat_length.
Qed.

(** Peel the binds of a successful computation. *)
(** Follow a failed computation to the step that failed. *)
Ltac inv_raise H :=
  cbv beta zeta in H;
  repeat match type of H with
  | bind _ _ = Raise _ =>
      let a := fresh "v" in
      let Ha := fresh "Hv" in
      apply bind_Raise_inv in H as [H | (a & Ha & H)]
  end.

Ltac inv_bind H :=
  cbv beta zeta in H;
  repeat match type of H with
  | bind _ _ = Ok _ =>
      let a := fresh "v" in
      let Ha := fresh "Hv" in
      apply bind_Ok_inv in H as (a & Ha & H)
  end.

(** ** Running the model on concrete data *)

Lemma take_nth (tbl : list R) (p : Z) (v : R) :
  (0 <= p)%Z ->
  nth_error tbl (Z.to_nat p) = Some v ->
  take tbl p = Ok v.
Proof.
  intros Hp Hn. unfold take.
  assert (Hlt : (Z.to_nat p < length tbl)%nat)
    by (apply nth_error_Some; congruence).
  replace (p <? 0)%Z with false by (symmetry; apply Z.ltb_ge; lia).
  replace (0 <=? p)%Z with true by (symmetry; apply Z.leb_le; lia).
  replace (p <? Z.of_nat (length tbl))%Z with true
    by (symmetry; apply Z.ltb_lt; lia).
  simpl. now rewrite Hn.
Qed.

(** One step of evaluation: decide a comparison, perform a division or a
    table lookup, then let [bind] consume the value. *)
Ltac np_step :=
  match goal with
  | |- context [Rleb ?a ?b] =>
      first [ rewrite (proj2 (Rleb_true_iff a b)) by lra
            | rewrite (proj2 (Rleb_false_iff a b)) by lra ]
  | |- context [Rltb ?a ?b] =>
      first [ rewrite (proj2 (Rltb_true_iff a b)) by lra
            | rewrite (proj2 (Rltb_false_iff a b)) by lra ]
  | |- context [Z.leb ?a ?b] =>
      let v := eval vm_compute in (Z.leb a b) in change (Z.leb a b) with v
  | |- context [Z.eqb ?a ?b] =>
      let v := eval vm_compute in (Z.eqb a b) in change (Z.eqb a b) with v
  | |- context [take ?t ?p] =>
      erewrite (take_nth t p) by (first [lia | reflexivity])
  | |- context [div ?a ?b] =>
      first [ rewrite (div_Ok a b) by lra
            | replace b with 0 by lra; rewrite div_zero ]
  | |- context [power ?a ?b] => rewrite (power_pos a b) by lra
  | |- context [Rmax ?a ?b] =>
      first [ rewrite (Rmax_left a b) by lra
            | rewrite (Rmax_right a b) by lra ]
  end; cbn [bind andb orb].

Ltac np_eval := cbn [bind andb orb]; repeat np_step.

(** Unfold an operation down to the array primitives on concrete data. *)
Ltac np_unfold :=
  cbv [NULLMOD.organic_deposition NULLMOD.aboveground_biomass NULLMOD.indice
       VDK05MOD.organic_deposition VDK05MOD.aboveground_biomass
       VDK05MOD.indice VDK05MOD.A_cell
       M12MOD.organic_deposition M12MOD.aboveground_biomass M12MOD.indice
       M12MOD.indice_dep
       DA07MOD.organic_deposition DA07MOD.aboveground_biomass DA07MOD.indice
       DA07MOD.indice_dep
       KM12MOD.organic_deposition KM12MOD.aboveground_biomass
       KM12MOD.belowground_biomass KM12MOD.soilcarbon_decay KM12MOD.indice
       KM12MOD.phi_cell KM12MOD.Bps_cell
       K16MOD.organic_deposition K16MOD.aboveground_biomass
       K16MOD.belowground_biomass K16MOD.init
       K16MOD.spartina_Bag K16MOD.multi_Bag K16MOD.marsh_step
       K16MOD.mangrove_Md K16MOD.mangrove_Mh K16MOD.mangrove_Bag
       K16MOD.indice_zh K16MOD.indice_spartina K16MOD.indice_multi
       K16MOD.indice_mangrove K16MOD.indice_marsh
       masked_assign mapM seq length at_R at_Z nth aligned guard forallb
       Nat.eqb andb fill_zero repeat broadcast map combine fst snd
       Examples.one_cell Examples.marsh_cell Examples.null_params
       Examples.m12_params Examples.vdk_params Examples.senescent_cell
       Examples.mangrove_cell Examples.k16_params Examples.grown_tree
       Examples.seedling Examples.stale_deposition Examples.flat_cell
       Examples.da_params Examples.km_params Examples.cold_soil
       zh pft Bag Bbg DepOM DecayOM OM Slope TR MHHW Tair month dofy dt
       NULLMOD.aa NULLMOD.bb NULLMOD.cc
       VDK05MOD.rB0 VDK05MOD.Bmax VDK05MOD.czh VDK05MOD.dP VDK05MOD.dB
       M12MOD.Kr M12MOD.Tr M12MOD.phi M12MOD.aa M12MOD.bb M12MOD.cc
       DA07MOD.Qom0 DA07MOD.Bmax DA07MOD.rhoOM DA07MOD.omega DA07MOD.mps
       KM12MOD.thetaBG KM12MOD.Dmbm KM12MOD.Bmax KM12MOD.rBmin KM12MOD.Tref
       KM12MOD.sigmaB KM12MOD.rGmin KM12MOD.rGps KM12MOD.jdps KM12MOD.kl0
       KM12MOD.kr0 KM12MOD.TrefOM KM12MOD.sigmaOM
       K16MOD.gammaB K16MOD.rhoOM K16MOD.Bmax K16MOD.Gmgv K16MOD.b2mgv
       K16MOD.b3mgv K16MOD.Mhmax K16MOD.Mdmax K16MOD.phi
       K16MOD.m_params K16MOD.Md K16MOD.Mh].

Ltac np_run := np_unfold; np_eval.

(** ** The masks computed by the code are the validity predicates *)

Lemma tide_mask (inputs : Inputs) (top : R) (i : nat) :
  Rleb 0 (at_R (zh inputs) i) && Rleb (at_R (zh inputs) i) top = true
  <-> in_tide inputs top i.
Proof.
  unfold in_tide. rewrite andb_true_iff, !Rleb_true_iff. tauto.
Qed.

Lemma pft_mask (inputs : Inputs) (i : nat) :
  ((2 <=? at_Z (pft inputs) i)%Z && (at_Z (pft inputs) i <=? 5)%Z = true)
  <-> vegetated inputs i.
Proof.
  unfold vegetated. rewrite andb_true_iff, !Z.leb_le. tauto.
Qed.

Lemma NULLMOD_indice_iff (inputs : Inputs) (i : nat) :
  NULLMOD.indice inputs i = true
  <-> in_tide inputs (0.5 * TR inputs) i /\ vegetated inputs i.
Proof.
  unfold NULLMOD.indice. now rewrite andb_true_iff, tide_mask, pft_mask.
Qed.

Lemma M12MOD_indice_iff (inputs : Inputs) (i : nat) :
  M12MOD.indice inputs i = true
  <-> in_tide inputs (0.5 * TR inputs) i /\ vegetated inputs i.
Proof.
  unfold M12MOD.indice. now rewrite andb_true_iff, tide_mask, pft_mask.
Qed.

Lemma VDK05MOD_indice_iff (inputs : Inputs) (i : nat) :
  VDK05MOD.indice inputs i = true <-> vegetated inputs i.
Proof. unfold VDK05MOD.indice. apply pft_mask. Qed.

Lemma DA07MOD_indice_iff (inputs : Inputs) (i : nat) :
  DA07MOD.indice inputs i = true <-> in_tide inputs (0.5 * TR inputs) i.
Proof. unfold DA07MOD.indice. apply tide_mask. Qed.

Lemma KM12MOD_indice_iff (inputs : Inputs) (i : nat) :
  KM12MOD.indice inputs i = true <-> in_tide inputs (MHHW inputs) i.
Proof. unfold KM12MOD.indice. apply tide_mask. Qed.

Lemma K16MOD_indice_zh_iff (inputs : Inputs) (i : nat) :
  K16MOD.indice_zh inputs i = true <-> in_tide inputs (0.5 * TR inputs) i.
Proof. unfold K16MOD.indice_zh. apply tide_mask. Qed.

(** A mask that is not [true] is [false]. *)
Lemma mask_false (b : bool) (P : Prop) : (b = true <-> P) -> ~ P -> b = false.
Proof. destruct b; intuition. Qed.

(** The whole-transect [DMHT] of NULLMOD, read at an aligned cell. *)
Lemma DMHT_nth (MHT : R) (zs : list R) (i : nat) :
  (i < length zs)%nat ->
  at_R (map (fun z => MHT - z) zs) i = MHT - at_R zs i.
Proof.
  intros Hi. unfold at_R.
  rewrite (nth_indep _ 0 (MHT - 0)) by now rewrite length_map.
  apply (map_nth (fun z => MHT - z)).
Qed.

(** * The claims *)

(** ** NULLMOD and M12MOD *)

(** C7. [NULLMOD.organic_deposition] returns, for every parameter set and
    every driving state, a sequence as long as the [DepOM] buffer it was
    given and zero at every cell. *)
Theorem NULLMOD_organic_deposition_all_zero
    (self : NULLMOD.params) (inputs : Inputs) :
  exists out,
    NULLMOD.organic_deposition self inputs = Ok out /\
    length out = length (DepOM inputs) /\
    Forall (fun v => v = 0) out.
Proof.
  exists (fill_zero (DepOM inputs)). split; [reflexivity|].
  split; [apply fill_zero_length | apply fill_zero_Forall].
Qed.

Lemma NULLMOD_aboveground_spec (self : NULLMOD.params) (inputs : Inputs)
    (out : list R) :
  NULLMOD.aboveground_biomass self inputs = Ok out ->
  quadratic_biomass_spec (NULLMOD.aa self) (NULLMOD.bb self) (NULLMOD.cc self)
    inputs out.
Proof.
  unfold NULLMOD.aboveground_biomass. intros H.
  apply aligned_Ok_inv in H as (Hal & H).
  inversion Hal as [|? ? Hzh Hal']; subst. clear Hal Hal'.
  split; [eapply masked_assign_length; eauto|].
  intros i Hi MHT DMHT p. split.
  - intros Hv. apply NULLMOD_indice_iff in Hv.
    pose proof (masked_assign_set _ _ _ _ _ i H Hi Hv) as Hc.
    inv_bind Hc. injection Hc as Hc.
    exists v, v0, v1. repeat split; auto.
    rewrite <- Hc. rewrite DMHT_nth by lia.
    subst DMHT MHT. f_equal; lra.
  - intros Hv. eapply masked_assign_keep; eauto.
    eapply mask_false; [apply NULLMOD_indice_iff | exact Hv].
Qed.

(** C5. With equal coefficient sets [aa], [bb], [cc],
    [M12MOD.aboveground_biomass] returns what
    [NULLMOD.aboveground_biomass] returns on every driving state, and
    that result follows the quadratic curve: a cell with
    [0 <= zh <= 0.5*TR] and pft in [[2,5]] holds
    [max(0, aa*DMHT + bb*DMHT^2 + cc)] with [DMHT = 0.5*TR - zh], every
    other cell is unchanged. *)
Theorem M12MOD_aboveground_is_NULLMOD_aboveground
    (m : M12MOD.params) (n : NULLMOD.params) (inputs : Inputs) :
  M12MOD.aa m = NULLMOD.aa n ->
  M12MOD.bb m = NULLMOD.bb n ->
  M12MOD.cc m = NULLMOD.cc n ->
  M12MOD.aboveground_biomass m inputs = NULLMOD.aboveground_biomass n inputs
  /\ forall out,
       NULLMOD.aboveground_biomass n inputs = Ok out ->
       quadratic_biomass_spec (NULLMOD.aa n) (NULLMOD.bb n) (NULLMOD.cc n)
         inputs out.
Proof.
  intros Ha Hb Hc. split; [|apply NULLMOD_aboveground_spec].
  unfold M12MOD.aboveground_biomass, NULLMOD.aboveground_biomass.
  rewrite Ha, Hb, Hc.
  unfold aligned, guard. simpl forallb.
  destruct (Nat.eqb (length (Bag inputs)) (length (zh inputs))) eqn:E;
    [|reflexivity].
  apply Nat.eqb_eq in E.
  destruct (_ && _)%bool; [|reflexivity]. cbn [bind].
  apply masked_assign_ext; [reflexivity|].
  intros i Hi _. now rewrite DMHT_nth by lia.
Qed.

(** The scenario of a single salt marsh cell: [zh = 0.3], [TR = 1.0],
    coefficients [0.5], [-0.1], [0.05] give [0.146] under both models. *)
Lemma M12MOD_aboveground_is_NULLMOD_aboveground_witness :
  M12MOD.aboveground_biomass Examples.m12_params Examples.marsh_cell
  = NULLMOD.aboveground_biomass Examples.null_params Examples.marsh_cell
  /\ forall out,
       NULLMOD.aboveground_biomass Examples.null_params Examples.marsh_cell
       = Ok out ->
       quadratic_biomass_spec [0; 0; 0.5] [0; 0; -0.1] [0; 0; 0.05]
         Examples.marsh_cell out.
Proof.
  apply (M12MOD_aboveground_is_NULLMOD_aboveground
           Examples.m12_params Examples.null_params Examples.marsh_cell);
    reflexivity.
Defined.

(** ** Seasonal cycle and independence of the standing biomass *)

Lemma sin_shift_2PI (x : R) : sin (x + 2 * PI) = sin x.
Proof. rewrite sin_plus, sin_2PI, cos_2PI. ring. Qed.

Lemma cos_shift_2PI (x : R) : cos (x + 2 * PI) = cos x.
Proof. rewrite cos_plus, sin_2PI, cos_2PI. ring. Qed.

(** C8. [DA07MOD.aboveground_biomass] at month [m + 12] and
    [KM12MOD.aboveground_biomass] at day [jd + 365] return what they
    return at month [m] and at day [jd], all other driving data and the
    parameters being the same. *)
Theorem aboveground_biomass_seasonal_period
    (da : DA07MOD.params) (km : KM12MOD.params) (inputs : Inputs) :
  DA07MOD.aboveground_biomass da (with_month inputs (month inputs + 12))
  = DA07MOD.aboveground_biomass da inputs
  /\
  KM12MOD.aboveground_biomass km (with_dofy inputs (dofy inputs + 365))
  = KM12MOD.aboveground_biomass km inputs.
Proof.
  split.
  - unfold DA07MOD.aboveground_biomass. cbn [with_month zh pft Bag TR month].
    apply bind_ext; intros _. apply masked_assign_ext; [reflexivity|].
    intros i _ _. apply bind_ext; intros rel. apply bind_ext; intros bm.
    replace (PI * (month inputs + 12) / 6 - DA07MOD.mps da * PI / 12)
      with (PI * month inputs / 6 - DA07MOD.mps da * PI / 12 + 2 * PI)
      by field.
    now rewrite sin_shift_2PI.
  - unfold KM12MOD.aboveground_biomass, KM12MOD.Bps_cell.
    cbn [with_dofy zh pft Bag MHHW Tair dofy].
    apply bind_ext; intros _. apply masked_assign_ext; [reflexivity|].
    intros i _ _. apply bind_ext; intros Bps.
    replace (2 * PI * (dofy inputs + 365 - KM12MOD.jdps km) / 365)
      with (2 * PI * (dofy inputs - KM12MOD.jdps km) / 365 + 2 * PI)
      by field.
    now rewrite cos_shift_2PI.
Qed.

(** C10. [KM12MOD.organic_deposition] does not depend on the standing
    biomass: replacing the [Bag] buffer by any other, all other driving
    data and the parameters being the same, returns the same [DepOM]. *)
Theorem KM12MOD_organic_deposition_ignores_Bag
    (self : KM12MOD.params) (inputs : Inputs) (bag : list R) :
  KM12MOD.organic_deposition self (with_Bag inputs bag)
  = KM12MOD.organic_deposition self inputs.
Proof. reflexivity. Qed.

(** ** VDK05MOD *)

(** What [VDK05MOD.aboveground_biomass] computes at a vegetated cell:
    the net rate [A] enters the update with the factor [1], and a cell
    whose pft is outside [[2,5]] is not written. *)
Lemma VDK05MOD_aboveground_cell (self : VDK05MOD.params) (inputs : Inputs)
    (out : list R) (i : nat) :
  VDK05MOD.aboveground_biomass self inputs = Ok out ->
  (i < length (Bag inputs))%nat ->
  (vegetated inputs i ->
     exists A,
       VDK05MOD.A_cell self (at_R (zh inputs) i) (at_R (Slope inputs) i)
         (at_R (Bag inputs) i) (at_Z (pft inputs) i) = Ok A /\
       1 - A * dt inputs / 3.1536e7 <> 0 /\
       nth i out 0
       = Rmax 0 (at_R (Bag inputs) i * (1 + A * dt inputs / 3.1536e7)
                 / (1 - A * dt inputs / 3.1536e7)))
  /\ (~ vegetated inputs i -> nth i out 0 = nth i (Bag inputs) 0).
Proof.
  unfold VDK05MOD.aboveground_biomass. intros H Hi.
  apply aligned_Ok_inv in H as (_ & H). split; intros Hv.
  - apply VDK05MOD_indice_iff in Hv.
    pose proof (masked_assign_set _ _ _ _ _ i H Hi Hv) as Hc.
    inv_bind Hc. injection Hc as Hc. apply div_Ok_inv in Hv1 as (Hd & ->).
    exists v. split; [exact Hv0|]. split; [lra|].
    rewrite <- Hc. f_equal; [lra|]. f_equal; lra.
  - eapply masked_assign_keep; eauto.
    eapply mask_false; [apply VDK05MOD_indice_iff | exact Hv].
Qed.

(** C1, at a cell that only loses biomass.  With [A = -1] per year and a
    step of one year the code returns [Bag * (1 - 1) / (1 + 1) = 0],
    where the trapezoidal step [Bag * (1 - 0.5) / (1 + 0.5)] is [1/3]. *)
Theorem VDK05MOD_aboveground_misses_half :
  VDK05MOD.A_cell Examples.vdk_params 1 0 1 2 = Ok (-1) /\
  VDK05MOD.aboveground_biomass Examples.vdk_params Examples.senescent_cell
  = Ok [0] /\
  trapezoidal_step (-1) 1 3.1536e7 = 1 / 3.
Proof.
  split; [|split].
  - np_run. f_equal. lra.
  - np_run. f_equal. f_equal. lra.
  - unfold trapezoidal_step. cbv zeta. rewrite Rmax_right; lra.
Qed.

(** ** K16MOD: the private diameter and height *)

Lemma K16MOD_indice_mangrove_iff (inputs : Inputs) (i : nat) :
  K16MOD.indice_mangrove inputs i = true
  <-> in_tide inputs (0.5 * TR inputs) i /\ at_Z (pft inputs) i = 5%Z.
Proof.
  unfold K16MOD.indice_mangrove.
  now rewrite andb_true_iff, K16MOD_indice_zh_iff, Z.eqb_eq.
Qed.

(** From a diameter of zero the increment is zero: the diameter update
    of a freshly constructed instance returns zeros again. *)
Lemma K16MOD_mangrove_Md_stays_zero (p : K16MOD.params) (nx : nat)
    (inputs : Inputs) (Md1 : list R) :
  K16MOD.mangrove_Md (K16MOD.init p nx) inputs = Ok Md1 ->
  Forall (fun v => v = 0) Md1.
Proof.
  unfold K16MOD.mangrove_Md. cbn [K16MOD.init K16MOD.Md K16MOD.Mh K16MOD.m_params].
  intros H. eapply masked_assign_Forall; [exact H | | ].
  - apply repeat_zero_Forall.
  - intros i v _ _ Hc. inv_bind Hc. injection Hc as <-.
    apply div_Ok_inv in Hv2 as (_ & ->).
    rewrite at_R_repeat_zero. unfold Rdiv. ring.
Qed.

(** With a diameter of zero at a mangrove cell, the tree density
    [0.5 / Md] is a division by zero. *)
Lemma K16MOD_mangrove_Bag_zero_Md (inputs : Inputs) (Md1 Bag2 : list R)
    (i : nat) :
  Forall (fun v => v = 0) Md1 ->
  (i < length Bag2)%nat ->
  K16MOD.indice_mangrove inputs i = true ->
  K16MOD.mangrove_Bag inputs Md1 Bag2 = Raise FloatingPointError.
Proof.
  intros Hz Hi Hm. unfold K16MOD.mangrove_Bag, masked_assign.
  assert (Hcell : forall j, at_R Md1 j = 0).
  { intros j. unfold at_R. destruct (Nat.lt_ge_cases j (length Md1)).
    - rewrite Forall_forall in Hz. now apply Hz, nth_In.
    - now apply nth_overflow. }
  apply mapM_Raise.
  - intros j _. destruct (K16MOD.indice_mangrove inputs j); [left | eauto].
    now rewrite Hcell, div_zero.
  - exists i. split; [apply in_seq; lia|].
    now rewrite Hm, Hcell, div_zero.
Qed.

(** C9.  A constructed instance holds [Md] and [Mh] all zero.  On any
    aligned driving state with a mangrove cell [i] ([pft = 5],
    [0 <= zh <= MHT]), the diameter update of the first call leaves
    [Md] at [0] there, and the call then divides [0.5] by that [Md]:
    once the two marsh branches have run, [aboveground_biomass] ends
    in a division by zero. *)
Theorem K16MOD_first_call_divides_by_zero (p : K16MOD.params) (nx : nat)
    (inputs : Inputs) (i : nat) :
  length (Bag inputs) = nx ->
  length (zh inputs) = nx ->
  length (pft inputs) = nx ->
  (i < nx)%nat ->
  at_Z (pft inputs) i = 5%Z ->
  in_tide inputs (0.5 * TR inputs) i ->
  let self := K16MOD.init p nx in
  (Forall (fun v => v = 0) (K16MOD.Md self) /\
   Forall (fun v => v = 0) (K16MOD.Mh self)) /\
  (forall Md1, K16MOD.mangrove_Md self inputs = Ok Md1 -> at_R Md1 i = 0) /\
  (forall Bag1 Bag2,
     K16MOD.spartina_Bag self inputs (Bag inputs) = Ok Bag1 ->
     K16MOD.multi_Bag self inputs Bag1 = Ok Bag2 ->
     K16MOD.aboveground_biomass self inputs = Raise FloatingPointError).
Proof.
  intros HB Hz Hp Hi Hpft Htide self.
  assert (Hm : K16MOD.indice_mangrove inputs i = true)
    by (apply K16MOD_indice_mangrove_iff; auto).
  split; [|split].
  - split; apply repeat_zero_Forall.
  - intros Md1 H. pose proof (K16MOD_mangrove_Md_stays_zero _ _ _ _ H) as Hall.
    apply masked_assign_length in H. cbn [self K16MOD.init K16MOD.Md] in H.
    rewrite repeat_length in H. rewrite Forall_forall in Hall.
    apply Hall, nth_In. lia.
  - intros Bag1 Bag2 H1 H2. unfold K16MOD.aboveground_biomass.
    rewrite aligned_Ok.
    2:{ cbn [self K16MOD.init K16MOD.Md K16MOD.Mh]. rewrite repeat_length.
        repeat constructor; congruence. }
    rewrite H1. cbn [bind]. rewrite H2. cbn [bind].
    destruct (K16MOD.mangrove_Md self inputs) as [Md1|e] eqn:HMd; cbn [bind].
    + destruct (K16MOD.mangrove_Mh self inputs Md1) as [Mh1|e] eqn:HMh;
        cbn [bind].
      * rewrite (K16MOD_mangrove_Bag_zero_Md inputs Md1 Bag2 i); auto.
        -- eapply K16MOD_mangrove_Md_stays_zero; eauto.
        -- apply masked_assign_length in H1, H2. lia.
      * apply mapM_Raise_inv in HMh as (j & _ & Hj).
        destruct (K16MOD.indice_mangrove inputs j); discriminate.
    + f_equal. apply mapM_Raise_inv in HMd as (j & _ & Hj).
      destruct (K16MOD.indice_mangrove inputs j); [|discriminate].
      inv_raise Hj; try discriminate;
        match goal with H : div _ _ = Raise _ |- _ =>
          now apply div_Raise_inv in H end.
Qed.

Lemma mangrove_cell_in_tide :
  in_tide Examples.mangrove_cell (0.5 * TR Examples.mangrove_cell) 0.
Proof. unfold in_tide. np_unfold. lra. Qed.

(** The first call on a transect of one mangrove cell: the diameter stays
    at zero and the call ends in a division by zero. *)
Lemma K16MOD_first_call_divides_by_zero_witness :
  K16MOD.mangrove_Md (K16MOD.init Examples.k16_params 1) Examples.mangrove_cell
  = Ok [0]
  /\ K16MOD.aboveground_biomass (K16MOD.init Examples.k16_params 1)
       Examples.mangrove_cell
     = Raise FloatingPointError.
Proof.
  destruct (K16MOD_first_call_divides_by_zero Examples.k16_params 1
              Examples.mangrove_cell 0 eq_refl eq_refl eq_refl
              (Nat.lt_0_succ 0) eq_refl mangrove_cell_in_tide)
    as (_ & _ & Hcall).
  split.
  - np_run. f_equal. f_equal. unfold Rdiv. ring.
  - apply (Hcall [0] [0]); np_run; reflexivity.
Defined.

(** C6.  Repeated calls do not strictly increase [Md].  At the
    mangrove cell of [mangrove_cell] the inundation index, the growth
    rate and the time step are positive.  Yet the diameter of a
    constructed instance stays at zero; and a tree of [1] cm, far below
    the maxima [Mdmax = 140] cm and [Mhmax = 3500] cm that the
    parameters document, shrinks: the update saturates at
    [Md * Mh = 1] and uses the two maxima only as divisors of the
    rate. *)
Theorem K16MOD_Md_does_not_always_increase :
  (at_Z (pft Examples.mangrove_cell) 0 = 5%Z /\
   in_tide Examples.mangrove_cell (0.5 * TR Examples.mangrove_cell) 0 /\
   (let P := 1 - at_R (zh Examples.mangrove_cell) 0
                 / (0.5 * TR Examples.mangrove_cell) in
    0 < Rmax (4 * P - 8 * P ^ 2 + 0.5) 0) /\
   0 < K16MOD.Gmgv Examples.k16_params /\
   0 < dt Examples.mangrove_cell) /\
  K16MOD.mangrove_Md (K16MOD.init Examples.k16_params 1) Examples.mangrove_cell
  = Ok [0] /\
  (at_R (K16MOD.Md Examples.grown_tree) 0
   < K16MOD.Mdmax (K16MOD.m_params Examples.grown_tree) /\
   at_R (K16MOD.Mh Examples.grown_tree) 0
   < K16MOD.Mhmax (K16MOD.m_params Examples.grown_tree)) /\
  exists self' out,
    K16MOD.aboveground_biomass Examples.grown_tree Examples.mangrove_cell
    = Ok (self', out) /\
    at_R (K16MOD.Md self') 0 < at_R (K16MOD.Md Examples.grown_tree) 0.
Proof.
  split; [|split; [|split]].
  - split; [reflexivity|]. split; [apply mangrove_cell_in_tide|].
    np_unfold. split; [|split]; try lra.
    rewrite Rmax_left; lra.
  - np_run. f_equal. f_equal. unfold Rdiv. ring.
  - np_unfold. lra.
  - eexists. eexists. split.
    + np_run. reflexivity.
    + np_unfold. lra.
Qed.

(** Where the update does grow the diameter: at a mangrove cell with a
    positive inundation index and positive [Gmgv], [dt], [Mdmax] and
    [Mhmax], a call that returns increases [Md] when before the call
    the diameter is positive, [Md * Mh < 1] and the denominator
    [274 + 3*b2mgv*Md - 4*b3mgv*Md^2] is positive.  With the heights
    that the call itself stores ([Mh >= 137] cm) this confines growth
    to diameters below [1/137] cm. *)
Lemma K16MOD_Md_increases_below_saturation (self : K16MOD.t)
    (inputs : Inputs) (i : nat) (self' : K16MOD.t) (out : list R) :
  let prm := K16MOD.m_params self in
  let P := 1 - at_R (zh inputs) i / (0.5 * TR inputs) in
  let Md_i := at_R (K16MOD.Md self) i in
  let Mh_i := at_R (K16MOD.Mh self) i in
  (i < length (Bag inputs))%nat ->
  at_Z (pft inputs) i = 5%Z ->
  in_tide inputs (0.5 * TR inputs) i ->
  0 < 4 * P - 8 * P ^ 2 + 0.5 ->
  0 < K16MOD.Gmgv prm ->
  0 < dt inputs ->
  0 < K16MOD.Mdmax prm ->
  0 < K16MOD.Mhmax prm ->
  0 < Md_i ->
  Md_i * Mh_i < 1 ->
  0 < 274 + 3 * K16MOD.b2mgv prm * Md_i - 4 * K16MOD.b3mgv prm * Md_i ^ 2 ->
  K16MOD.aboveground_biomass self inputs = Ok (self', out) ->
  Md_i < at_R (K16MOD.Md self') i.
Proof.
  intros prm P Md_i Mh_i Hi Hpft Htide HI HG Hdt HDm HHm HMd Hsat Hden H.
  unfold K16MOD.aboveground_biomass in H.
  apply aligned_Ok_inv in H as (Hal & H).
  inv_bind H. injection H as <- _. cbn [K16MOD.Md].
  inversion Hal as [|? ? _ Hal1]; subst.
  inversion Hal1 as [|? ? _ Hal2]; subst.
  inversion Hal2 as [|? ? HlenMd _]; subst. clear Hal Hal1 Hal2.
  assert (Hm : K16MOD.indice_mangrove inputs i = true)
    by (apply K16MOD_indice_mangrove_iff; auto).
  unfold K16MOD.mangrove_Md in Hv1.
  rewrite HlenMd in Hi.
  pose proof (masked_assign_set _ _ _ _ _ i Hv1 Hi Hm) as Hc.
  inv_bind Hc. injection Hc as Hc. unfold at_R at 1. rewrite <- Hc.
  apply div_Ok_inv in Hv4 as (_ & ->).
  apply div_Ok_inv in Hv5 as (_ & ->).
  apply div_Ok_inv in Hv6 as (_ & ->).
  apply div_Ok_inv in Hv7 as (_ & ->).
  fold prm Md_i Mh_i P.
  rewrite Rmax_left by lra.
  assert (0 < dt inputs * (4 * P - 8 * P ^ 2 + 0.5) * K16MOD.Gmgv prm
              / K16MOD.Mdmax prm / K16MOD.Mhmax prm).
  { repeat apply Rdiv_lt_0_compat; auto.
    repeat apply Rmult_lt_0_compat; auto. }
  assert (0 < 1 - Md_i * Mh_i) by lra.
  match goal with |- _ < _ + ?inc => assert (0 < inc) end; [|lra].
  apply Rdiv_lt_0_compat; auto.
  repeat apply Rmult_lt_0_compat; auto; now apply Rinv_0_lt_compat.
Qed.

(** A seedling of [0.001] cm at the mangrove cell grows. *)
Lemma K16MOD_Md_increases_below_saturation_witness :
  exists self' out,
    K16MOD.aboveground_biomass Examples.seedling Examples.mangrove_cell
    = Ok (self', out) /\
    at_R (K16MOD.Md Examples.seedling) 0 < at_R (K16MOD.Md self') 0.
Proof.
  assert (Hrun : exists r,
    K16MOD.aboveground_biomass Examples.seedling Examples.mangrove_cell = Ok r).
  { eexists. np_run. reflexivity. }
  destruct Hrun as ((self' & out) & Hrun).
  exists self', out. split; [exact Hrun|].
  apply (K16MOD_Md_increases_below_saturation Examples.seedling
           Examples.mangrove_cell 0 self' out);
    try exact Hrun; try apply mangrove_cell_in_tide; try reflexivity;
    try (apply Nat.lt_0_succ); np_unfold; lra.
Defined.

(** ** Cells outside the validity predicate *)

Ltac zbool :=
  repeat match goal with
  | |- context [Z.eqb ?a ?b] => destruct (Z.eqb_spec a b)
  | |- context [Z.leb ?a ?b] => destruct (Z.leb_spec a b)
  end; simpl; try reflexivity; try lia.

Lemma K16MOD_masks_outside (inputs : Inputs) (i : nat) :
  ~ (in_tide inputs (0.5 * TR inputs) i /\ vegetated inputs i) ->
  K16MOD.indice_spartina inputs i = false /\
  K16MOD.indice_multi inputs i = false /\
  K16MOD.indice_mangrove inputs i = false /\
  K16MOD.indice_marsh inputs i = false.
Proof.
  intros Hv.
  unfold K16MOD.indice_spartina, K16MOD.indice_multi, K16MOD.indice_mangrove,
    K16MOD.indice_marsh.
  destruct (K16MOD.indice_zh inputs i) eqn:E.
  - apply K16MOD_indice_zh_iff in E.
    assert (Hp : ~ vegetated inputs i) by tauto. unfold vegetated in Hp.
    rewrite !andb_true_r. cbn [andb]. repeat split; zbool.
  - rewrite !andb_false_r. cbn [andb]. auto.
Qed.

Section Unchanged.

Variable inputs : Inputs.

Lemma NULLMOD_aboveground_unchanged (self : NULLMOD.params) (out : list R) :
  NULLMOD.aboveground_biomass self inputs = Ok out ->
  unchanged_outside
    (fun i => in_tide inputs (0.5 * TR inputs) i /\ vegetated inputs i)
    (Bag inputs) out.
Proof.
  unfold NULLMOD.aboveground_biomass. intros H.
  apply aligned_Ok_inv in H as (_ & H).
  split; [eapply masked_assign_length; eauto|]. intros i Hv.
  eapply masked_assign_keep; eauto.
  eapply mask_false; [apply NULLMOD_indice_iff | exact Hv].
Qed.

Lemma VDK05MOD_aboveground_unchanged (self : VDK05MOD.params) (out : list R) :
  VDK05MOD.aboveground_biomass self inputs = Ok out ->
  unchanged_outside (vegetated inputs) (Bag inputs) out.
Proof.
  unfold VDK05MOD.aboveground_biomass. intros H.
  apply aligned_Ok_inv in H as (_ & H).
  split; [eapply masked_assign_length; eauto|]. intros i Hv.
  eapply masked_assign_keep; eauto.
  eapply mask_false; [apply VDK05MOD_indice_iff | exact Hv].
Qed.

Lemma M12MOD_aboveground_unchanged (self : M12MOD.params) (out : list R) :
  M12MOD.aboveground_biomass self inputs = Ok out ->
  unchanged_outside
    (fun i => in_tide inputs (0.5 * TR inputs) i /\ vegetated inputs i)
    (Bag inputs) out.
Proof.
  unfold M12MOD.aboveground_biomass. intros H.
  apply aligned_Ok_inv in H as (_ & H).
  split; [eapply masked_assign_length; eauto|]. intros i Hv.
  eapply masked_assign_keep; eauto.
  eapply mask_false; [apply M12MOD_indice_iff | exact Hv].
Qed.

Lemma DA07MOD_aboveground_unchanged (self : DA07MOD.params) (out : list R) :
  DA07MOD.aboveground_biomass self inputs = Ok out ->
  unchanged_outside (in_tide inputs (0.5 * TR inputs)) (Bag inputs) out.
Proof.
  unfold DA07MOD.aboveground_biomass. intros H.
  apply aligned_Ok_inv in H as (_ & H).
  split; [eapply masked_assign_length; eauto|]. intros i Hv.
  eapply masked_assign_keep; eauto.
  eapply mask_false; [apply DA07MOD_indice_iff | exact Hv].
Qed.

Lemma KM12MOD_aboveground_unchanged (self : KM12MOD.params) (out : list R) :
  KM12MOD.aboveground_biomass self inputs = Ok out ->
  unchanged_outside (in_tide inputs (MHHW inputs)) (Bag inputs) out.
Proof.
  unfold KM12MOD.aboveground_biomass. intros H.
  apply aligned_Ok_inv in H as (_ & H).
  split; [eapply masked_assign_length; eauto|]. intros i Hv.
  eapply masked_assign_keep; eauto.
  eapply mask_false; [apply KM12MOD_indice_iff | exact Hv].
Qed.

Lemma KM12MOD_belowground_unchanged (self : KM12MOD.params) (out : list R) :
  KM12MOD.belowground_biomass self inputs = Ok out ->
  unchanged_outside (in_tide inputs (MHHW inputs)) (Bbg inputs) out.
Proof.
  unfold KM12MOD.belowground_biomass. intros H.
  apply aligned_Ok_inv in H as (_ & H).
  split; [eapply masked_assign_length; eauto|]. intros i Hv.
  eapply masked_assign_keep; eauto.
  eapply mask_false; [apply KM12MOD_indice_iff | exact Hv].
Qed.

(** The three branches of K16MOD write disjoint sets of cells, all of
    them inside the elevation gate and the pft range; the private [Md]
    and [Mh] are masked in the same way. *)
Lemma K16MOD_aboveground_unchanged (self self' : K16MOD.t) (out : list R) :
  K16MOD.aboveground_biomass self inputs = Ok (self', out) ->
  let valid i := in_tide inputs (0.5 * TR inputs) i /\ vegetated inputs i in
  unchanged_outside valid (Bag inputs) out /\
  unchanged_outside valid (K16MOD.Md self) (K16MOD.Md self') /\
  unchanged_outside valid (K16MOD.Mh self) (K16MOD.Mh self').
Proof.
  intros H valid. unfold K16MOD.aboveground_biomass in H.
  apply aligned_Ok_inv in H as (_ & H).
  inv_bind H. injection H as <- <-. cbn [K16MOD.Md K16MOD.Mh].
  unfold K16MOD.spartina_Bag in Hv. unfold K16MOD.multi_Bag in Hv0.
  unfold K16MOD.mangrove_Md in Hv1. unfold K16MOD.mangrove_Mh in Hv2.
  unfold K16MOD.mangrove_Bag in Hv3.
  repeat split.
  - apply masked_assign_length in Hv, Hv0, Hv3. congruence.
  - intros i Hi. apply K16MOD_masks_outside in Hi as (H1 & H2 & H3 & _).
    rewrite (masked_assign_keep _ _ _ _ _ i Hv3 H3).
    rewrite (masked_assign_keep _ _ _ _ _ i Hv0 H2).
    apply (masked_assign_keep _ _ _ _ _ i Hv H1).
  - eapply masked_assign_length; eauto.
  - intros i Hi. apply K16MOD_masks_outside in Hi as (_ & _ & H3 & _).
    apply (masked_assign_keep _ _ _ _ _ i Hv1 H3).
  - eapply masked_assign_length; eauto.
  - intros i Hi. apply K16MOD_masks_outside in Hi as (_ & _ & H3 & _).
    apply (masked_assign_keep _ _ _ _ _ i Hv2 H3).
Qed.

Lemma K16MOD_belowground_unchanged (self : K16MOD.t) (out : list R) :
  K16MOD.belowground_biomass self inputs = Ok out ->
  unchanged_outside
    (fun i => in_tide inputs (0.5 * TR inputs) i /\ vegetated inputs i)
    (Bbg inputs) out.
Proof.
  unfold K16MOD.belowground_biomass. intros H.
  apply aligned_Ok_inv in H as (_ & H). inv_bind H. split.
  - apply masked_assign_length in Hv, H. congruence.
  - intros i Hi. apply K16MOD_masks_outside in Hi as (_ & _ & H3 & H4).
    rewrite (masked_assign_keep _ _ _ _ _ i H H3).
    apply (masked_assign_keep _ _ _ _ _ i Hv H4).
Qed.

(** The deposition operations clear [DepOM] before they select cells. *)
Lemma M12MOD_deposition_zero_outside (self : M12MOD.params) (out : list R) :
  M12MOD.organic_deposition self inputs = Ok out ->
  length out = length (DepOM inputs) /\
  zero_outside (fun i => 0 < at_R (Bag inputs) i) out.
Proof.
  unfold M12MOD.organic_deposition. intros H.
  apply aligned_Ok_inv in H as (_ & H). split.
  - apply masked_assign_length in H. now rewrite fill_zero_length in H.
  - intros i Hv. rewrite (masked_assign_keep _ _ _ _ _ i H).
    + apply fill_zero_nth.
    + eapply mask_false; [apply Rltb_true_iff | exact Hv].
Qed.

Lemma DA07MOD_deposition_zero_outside (TOL : R) (self : DA07MOD.params)
    (out : list R) :
  DA07MOD.organic_deposition TOL self inputs = Ok out ->
  length out = length (DepOM inputs) /\
  zero_outside (fun i => TOL < at_R (Bag inputs) i) out.
Proof.
  unfold DA07MOD.organic_deposition. intros H.
  apply aligned_Ok_inv in H as (_ & H). split.
  - apply masked_assign_length in H. now rewrite fill_zero_length in H.
  - intros i Hv. rewrite (masked_assign_keep _ _ _ _ _ i H).
    + apply fill_zero_nth.
    + eapply mask_false; [apply Rltb_true_iff | exact Hv].
Qed.

Lemma KM12MOD_deposition_zero_outside (self : KM12MOD.params) (out : list R) :
  KM12MOD.organic_deposition self inputs = Ok out ->
  length out = length (DepOM inputs) /\
  zero_outside (in_tide inputs (MHHW inputs)) out.
Proof.
  unfold KM12MOD.organic_deposition. intros H.
  apply aligned_Ok_inv in H as (_ & H). split.
  - apply masked_assign_length in H. now rewrite fill_zero_length in H.
  - intros i Hv. rewrite (masked_assign_keep _ _ _ _ _ i H).
    + apply fill_zero_nth.
    + eapply mask_false; [apply KM12MOD_indice_iff | exact Hv].
Qed.

End Unchanged.

(** ** Masking *)

(** C3, as stated, fails for the deposition operations: the cell of
    [stale_deposition] has no standing biomass, so it fails the predicate
    [Bag > 0] of [M12MOD.organic_deposition], and yet the flux of [1]
    that its [DepOM] entry held is replaced by [0]. *)
Lemma M12MOD_deposition_overwrites_unselected_cell :
  exists out,
    M12MOD.organic_deposition Examples.m12_params Examples.stale_deposition
    = Ok out /\
    ~ 0 < at_R (Bag Examples.stale_deposition) 0 /\
    nth 0 out 0 <> nth 0 (DepOM Examples.stale_deposition) 0.
Proof.
  exists [0]. split; [|split].
  - np_run. reflexivity.
  - np_unfold. lra.
  - np_unfold. lra.
Qed.

(** C3, amended.  The biomass operations of every variant return a
    buffer that equals the input buffer at every cell failing the
    validity predicate of the operation (for K16MOD the private [Md] and
    [Mh] as well).  The deposition operations clear [DepOM] first: a
    cell failing the predicate of [M12MOD], [DA07MOD] or [KM12MOD]
    [organic_deposition] holds [0] in the returned buffer. *)
Theorem masking_of_every_operation (inputs : Inputs) :
  let marsh_or_mangrove i :=
    in_tide inputs (0.5 * TR inputs) i /\ vegetated inputs i in
  (forall self out,
     NULLMOD.aboveground_biomass self inputs = Ok out ->
     unchanged_outside marsh_or_mangrove (Bag inputs) out) /\
  (forall self out,
     VDK05MOD.aboveground_biomass self inputs = Ok out ->
     unchanged_outside (vegetated inputs) (Bag inputs) out) /\
  (forall self out,
     M12MOD.aboveground_biomass self inputs = Ok out ->
     unchanged_outside marsh_or_mangrove (Bag inputs) out) /\
  (forall self out,
     DA07MOD.aboveground_biomass self inputs = Ok out ->
     unchanged_outside (in_tide inputs (0.5 * TR inputs)) (Bag inputs) out) /\
  (forall self out,
     KM12MOD.aboveground_biomass self inputs = Ok out ->
     unchanged_outside (in_tide inputs (MHHW inputs)) (Bag inputs) out) /\
  (forall self self' out,
     K16MOD.aboveground_biomass self inputs = Ok (self', out) ->
     unchanged_outside marsh_or_mangrove (Bag inputs) out /\
     unchanged_outside marsh_or_mangrove (K16MOD.Md self) (K16MOD.Md self') /\
     unchanged_outside marsh_or_mangrove (K16MOD.Mh self) (K16MOD.Mh self')) /\
  (forall self out,
     KM12MOD.belowground_biomass self inputs = Ok out ->
     unchanged_outside (in_tide inputs (MHHW inputs)) (Bbg inputs) out) /\
  (forall self out,
     K16MOD.belowground_biomass self inputs = Ok out ->
     unchanged_outside marsh_or_mangrove (Bbg inputs) out) /\
  (forall self out,
     M12MOD.organic_deposition self inputs = Ok out ->
     length out = length (DepOM inputs) /\
     zero_outside (fun i => 0 < at_R (Bag inputs) i) out) /\
  (forall TOL self out,
     DA07MOD.organic_deposition TOL self inputs = Ok out ->
     length out = length (DepOM inputs) /\
     zero_outside (fun i => TOL < at_R (Bag inputs) i) out) /\
  (forall self out,
     KM12MOD.organic_deposition self inputs = Ok out ->
     length out = length (DepOM inputs) /\
     zero_outside (in_tide inputs (MHHW inputs)) out).
Proof.
  intros marsh_or_mangrove. repeat split; intros.
  - eapply NULLMOD_aboveground_unchanged; eauto.
  - eapply NULLMOD_aboveground_unchanged; eauto.
  - eapply VDK05MOD_aboveground_unchanged; eauto.
  - eapply VDK05MOD_aboveground_unchanged; eauto.
  - eapply M12MOD_aboveground_unchanged; eauto.
  - eapply M12MOD_aboveground_unchanged; eauto.
  - eapply DA07MOD_aboveground_unchanged; eauto.
  - eapply DA07MOD_aboveground_unchanged; eauto.
  - eapply KM12MOD_aboveground_unchanged; eauto.
  - eapply KM12MOD_aboveground_unchanged; eauto.
  - eapply K16MOD_aboveground_unchanged; eauto.
  - eapply K16MOD_aboveground_unchanged; eauto.
  - eapply K16MOD_aboveground_unchanged; eauto.
  - eapply K16MOD_aboveground_unchanged; eauto.
  - eapply K16MOD_aboveground_unchanged; eauto.
  - eapply K16MOD_aboveground_unchanged; eauto.
  - eapply KM12MOD_belowground_unchanged; eauto.
  - eapply KM12MOD_belowground_unchanged; eauto.
  - eapply K16MOD_belowground_unchanged; eauto.
  - eapply K16MOD_belowground_unchanged; eauto.
  - eapply M12MOD_deposition_zero_outside; eauto.
  - eapply M12MOD_deposition_zero_outside; eauto.
  - eapply DA07MOD_deposition_zero_outside; eauto.
  - eapply DA07MOD_deposition_zero_outside; eauto.
  - eapply KM12MOD_deposition_zero_outside; eauto.
  - eapply KM12MOD_deposition_zero_outside; eauto.
Qed.

(** On the tidal flat cell NULLMOD leaves the biomass at [0.2]. *)
Lemma masking_of_every_operation_witness :
  exists out,
    NULLMOD.aboveground_biomass Examples.null_params Examples.flat_cell
    = Ok out /\
    unchanged_outside
      (fun i => in_tide Examples.flat_cell (0.5 * TR Examples.flat_cell) i
                /\ vegetated Examples.flat_cell i)
      (Bag Examples.flat_cell) out.
Proof.
  assert (Hrun : exists out,
    NULLMOD.aboveground_biomass Examples.null_params Examples.flat_cell
    = Ok out).
  { eexists. np_run. reflexivity. }
  destruct Hrun as (out & Hrun). exists out. split; [exact Hrun|].
  exact (proj1 (masking_of_every_operation Examples.flat_cell)
           Examples.null_params out Hrun).
Defined.

(** C4, as stated, fails for the variants that gate on elevation only:
    on the tidal flat cell (pft 1) [DA07MOD.aboveground_biomass]
    replaces the biomass of [0.2] by [0]. *)
Lemma DA07MOD_aboveground_writes_tidal_flat :
  at_Z (pft Examples.flat_cell) 0 = 1%Z /\
  ~ vegetated Examples.flat_cell 0 /\
  exists out,
    DA07MOD.aboveground_biomass Examples.da_params Examples.flat_cell
    = Ok out /\
    nth 0 out 0 <> nth 0 (Bag Examples.flat_cell) 0.
Proof.
  split; [reflexivity|]. split.
  - unfold vegetated. np_unfold. lia.
  - exists [0]. split.
    + np_run. f_equal. f_equal. unfold Rdiv. ring.
    + np_unfold. lra.
Qed.

(** C4, amended.  In the variants that gate on the pft ([NULLMOD],
    [VDK05MOD], [M12MOD], [K16MOD]) a cell whose pft lies outside
    [[2,5]] is not written by the biomass operations: its entry in the
    returned buffer, and in the private [Md] and [Mh] of K16MOD, equals
    the input entry. *)
Theorem unvegetated_cells_are_not_written (inputs : Inputs) (i : nat) :
  ~ vegetated inputs i ->
  (forall self out,
     NULLMOD.aboveground_biomass self inputs = Ok out ->
     nth i out 0 = nth i (Bag inputs) 0) /\
  (forall self out,
     VDK05MOD.aboveground_biomass self inputs = Ok out ->
     nth i out 0 = nth i (Bag inputs) 0) /\
  (forall self out,
     M12MOD.aboveground_biomass self inputs = Ok out ->
     nth i out 0 = nth i (Bag inputs) 0) /\
  (forall self self' out,
     K16MOD.aboveground_biomass self inputs = Ok (self', out) ->
     nth i out 0 = nth i (Bag inputs) 0 /\
     nth i (K16MOD.Md self') 0 = nth i (K16MOD.Md self) 0 /\
     nth i (K16MOD.Mh self') 0 = nth i (K16MOD.Mh self) 0) /\
  (forall self out,
     K16MOD.belowground_biomass self inputs = Ok out ->
     nth i out 0 = nth i (Bbg inputs) 0).
Proof.
  intros Hp.
  assert (Hv : ~ (in_tide inputs (0.5 * TR inputs) i /\ vegetated inputs i))
    by tauto.
  repeat split; intros.
  - eapply NULLMOD_aboveground_unchanged; eauto.
  - eapply VDK05MOD_aboveground_unchanged; eauto.
  - eapply M12MOD_aboveground_unchanged; eauto.
  - eapply (K16MOD_aboveground_unchanged inputs self self' out); eauto.
  - eapply (K16MOD_aboveground_unchanged inputs self self' out); eauto.
  - eapply (K16MOD_aboveground_unchanged inputs self self' out); eauto.
  - eapply K16MOD_belowground_unchanged; eauto.
Qed.

(** On the tidal flat cell VDK05MOD leaves the biomass at [0.2]. *)
Lemma unvegetated_cells_are_not_written_witness :
  exists out,
    VDK05MOD.aboveground_biomass Examples.vdk_params Examples.flat_cell
    = Ok out /\
    nth 0 out 0 = nth 0 (Bag Examples.flat_cell) 0.
Proof.
  assert (Hp : ~ vegetated Examples.flat_cell 0)
    by (unfold vegetated; np_unfold; lia).
  assert (Hrun : exists out,
    VDK05MOD.aboveground_biomass Examples.vdk_params Examples.flat_cell
    = Ok out).
  { eexists. np_run. reflexivity. }
  destruct Hrun as (out & Hrun). exists out. split; [exact Hrun|].
  exact (proj1 (proj2 (unvegetated_cells_are_not_written
                         Examples.flat_cell 0 Hp))
           Examples.vdk_params out Hrun).
Defined.

(** ** Non-negative outputs *)

Lemma nonneg_fill_zero (buf : list R) : nonneg (fill_zero buf).
Proof.
  eapply Forall_impl; [|apply fill_zero_Forall].
  intros v ->. apply Rle_refl.
Qed.

Lemma Rmax_zero_l (x : R) : 0 <= Rmax 0.0 x.
Proof. pose proof (Rmax_l 0.0 x). lra. Qed.

Lemma Rmax_zero_r (x : R) : 0 <= Rmax x 0.0.
Proof. pose proof (Rmax_r x 0.0). lra. Qed.

Lemma nonneg_nth (l : list R) (i : nat) : nonneg l -> 0 <= at_R l i.
Proof.
  intros H. unfold at_R. destruct (Nat.lt_ge_cases i (length l)).
  - unfold nonneg in H. rewrite Forall_forall in H. now apply H, nth_In.
  - rewrite nth_overflow by assumption. apply Rle_refl.
Qed.

Lemma nonneg_combine (l1 l2 : list R) :
  nonneg l1 -> nonneg l2 -> nonneg2 (combine l1 l2).
Proof.
  unfold nonneg, nonneg2. intros H1. revert l2.
  induction H1 as [|a l1 Ha _ IH]; intros l2 H2; simpl; [constructor|].
  destruct H2 as [|b l2 Hb H2]; constructor; auto.
Qed.

Lemma nonneg_scale (k : R) (l : list R) :
  0 <= k -> nonneg l -> nonneg (map (fun c => k * c) l).
Proof.
  intros Hk H. unfold nonneg in *. apply Forall_map.
  eapply Forall_impl; [|exact H]. intros c Hc. cbv beta.
  now apply Rmult_le_pos.
Qed.

(** A quotient that was computed has a non-zero denominator. *)
Lemma div_nonneg (x y q : R) : div x y = Ok q -> 0 <= x -> 0 <= y -> 0 <= q.
Proof.
  intros H Hx Hy. apply div_Ok_inv in H as (Hne & ->).
  unfold Rdiv. apply Rmult_le_pos; [exact Hx|].
  left. apply Rinv_0_lt_compat. lra.
Qed.

Section NonNegative.

Variable inputs : Inputs.

Lemma NULLMOD_aboveground_nonneg (self : NULLMOD.params) (out : list R) :
  nonneg (Bag inputs) ->
  NULLMOD.aboveground_biomass self inputs = Ok out -> nonneg out.
Proof.
  unfold NULLMOD.aboveground_biomass. intros HB H.
  apply aligned_Ok_inv in H as (_ & H).
  eapply masked_assign_Forall; [exact H | exact HB |].
  intros i v _ _ Hc. inv_bind Hc. injection Hc as <-. apply Rmax_zero_l.
Qed.

Lemma VDK05MOD_aboveground_nonneg (self : VDK05MOD.params) (out : list R) :
  nonneg (Bag inputs) ->
  VDK05MOD.aboveground_biomass self inputs = Ok out -> nonneg out.
Proof.
  unfold VDK05MOD.aboveground_biomass. intros HB H.
  apply aligned_Ok_inv in H as (_ & H).
  eapply masked_assign_Forall; [exact H | exact HB |].
  intros i v _ _ Hc. inv_bind Hc. injection Hc as <-. apply Rmax_zero_l.
Qed.

Lemma M12MOD_aboveground_nonneg (self : M12MOD.params) (out : list R) :
  nonneg (Bag inputs) ->
  M12MOD.aboveground_biomass self inputs = Ok out -> nonneg out.
Proof.
  unfold M12MOD.aboveground_biomass. intros HB H.
  apply aligned_Ok_inv in H as (_ & H).
  eapply masked_assign_Forall; [exact H | exact HB |].
  intros i v _ _ Hc. inv_bind Hc. injection Hc as <-. apply Rmax_zero_l.
Qed.

Lemma M12MOD_deposition_nonneg (self : M12MOD.params) (out : list R) :
  nonneg (M12MOD.Kr self) -> nonneg (M12MOD.phi self) ->
  nonneg (M12MOD.Tr self) ->
  M12MOD.organic_deposition self inputs = Ok out -> nonneg out.
Proof.
  unfold M12MOD.organic_deposition. intros HK Hphi HT H.
  apply aligned_Ok_inv in H as (_ & H).
  eapply masked_assign_Forall; [exact H | apply nonneg_fill_zero |].
  intros i v _ Hm Hc. inv_bind Hc.
  apply Rltb_true_iff in Hm.
  pose proof (take_Forall _ _ _ _ HK Hv) as Hkr.
  pose proof (take_Forall _ _ _ _ Hphi Hv0) as Hph.
  pose proof (take_Forall _ _ _ _ HT Hv1) as Htr. cbv beta in Hkr, Hph, Htr.
  eapply div_nonneg; [exact Hc | |].
  - repeat apply Rmult_le_pos; lra.
  - apply Rmult_le_pos; lra.
Qed.

Lemma DA07MOD_deposition_nonneg (TOL : R) (self : DA07MOD.params)
    (out : list R) :
  nonneg (Bag inputs) ->
  0 <= DA07MOD.Qom0 self -> 0 <= DA07MOD.rhoOM self ->
  nonneg (DA07MOD.Bmax self) ->
  DA07MOD.organic_deposition TOL self inputs = Ok out -> nonneg out.
Proof.
  unfold DA07MOD.organic_deposition. intros HB HQ Hrho HBm H.
  apply aligned_Ok_inv in H as (_ & H).
  eapply masked_assign_Forall; [exact H | apply nonneg_fill_zero |].
  intros i v _ _ Hc. inv_bind Hc.
  pose proof (take_Forall _ _ _ _ HBm Hv) as Hbm. cbv beta in Hbm.
  pose proof (nonneg_nth _ i HB) as Hbag.
  eapply div_nonneg; [exact Hc | | exact Hbm].
  unfold Rdiv. repeat apply Rmult_le_pos; lra.
Qed.

Lemma DA07MOD_aboveground_nonneg (self : DA07MOD.params) (out : list R) :
  nonneg (Bag inputs) ->
  nonneg (DA07MOD.Bmax self) ->
  0 <= DA07MOD.omega self <= 1 ->
  DA07MOD.aboveground_biomass self inputs = Ok out -> nonneg out.
Proof.
  intros HB HBm Hom H. unfold DA07MOD.aboveground_biomass in H.
  apply aligned_Ok_inv in H as (_ & H).
  eapply masked_assign_Forall; [exact H | exact HB |].
  intros i x _ Hm Hc. inv_bind Hc. injection Hc as <-.
  apply DA07MOD_indice_iff in Hm. unfold in_tide in Hm.
  pose proof (take_Forall _ _ _ _ HBm Hv0) as Hbm. cbv beta in Hbm.
  assert (Hrel : 0 <= v).
  { apply (div_nonneg _ _ _ Hv); lra. }
  pose proof (SIN_bound (PI * month inputs / 6 - DA07MOD.mps self * PI / 12))
    as Hsin.
  set (s := sin _ + 1) in *.
  assert (Hs : 0 <= s) by (subst s; lra).
  clearbody s.
  assert (HBps : 0 <= v * v0) by now apply Rmult_le_pos.
  assert (H1 : 0 <= v * v0 * (1 - DA07MOD.omega self))
    by (apply Rmult_le_pos; lra).
  assert (H2 : 0 <= v * v0 * (1 - DA07MOD.omega self) * s)
    by (apply Rmult_le_pos; lra).
  assert (H3 : 0 <= DA07MOD.omega self * (v * v0))
    by (apply Rmult_le_pos; lra).
  lra.
Qed.

Lemma KM12MOD_deposition_nonneg (self : KM12MOD.params) (out : list R) :
  KM12MOD.organic_deposition self inputs = Ok out -> nonneg out.
Proof.
  unfold KM12MOD.organic_deposition. intros H.
  apply aligned_Ok_inv in H as (_ & H).
  eapply masked_assign_Forall; [exact H | apply nonneg_fill_zero |].
  intros i v _ _ Hc. inv_bind Hc. injection Hc as <-.
  apply Rmult_le_pos; apply Rmax_zero_r.
Qed.

Lemma KM12MOD_aboveground_nonneg (self : KM12MOD.params) (out : list R) :
  nonneg (Bag inputs) ->
  KM12MOD.aboveground_biomass self inputs = Ok out -> nonneg out.
Proof.
  unfold KM12MOD.aboveground_biomass. intros HB H.
  apply aligned_Ok_inv in H as (_ & H).
  eapply masked_assign_Forall; [exact H | exact HB |].
  intros i v _ _ Hc. inv_bind Hc. injection Hc as <-. apply Rmax_zero_r.
Qed.

Lemma KM12MOD_belowground_nonneg (self : KM12MOD.params) (out : list R) :
  nonneg (Bbg inputs) ->
  KM12MOD.belowground_biomass self inputs = Ok out -> nonneg out.
Proof.
  unfold KM12MOD.belowground_biomass. intros HB H.
  apply aligned_Ok_inv in H as (_ & H).
  eapply masked_assign_Forall; [exact H | exact HB |].
  intros i v _ _ Hc. inv_bind Hc. injection Hc as <-.
  apply Rmult_le_pos; apply Rmax_zero_r.
Qed.

(** The decay is the pool times a rate whose sign is the sign of the
    temperature factor [1 + (Tsoi - TrefOM) * sigmaOM]. *)
Lemma KM12MOD_decay_nonneg (self : KM12MOD.params) (out : list (R * R)) :
  nonneg2 (OM inputs) ->
  0 <= KM12MOD.kl0 self -> 0 <= KM12MOD.kr0 self ->
  0 <= 1 + (Tair inputs - KM12MOD.TrefOM self) * KM12MOD.sigmaOM self ->
  KM12MOD.soilcarbon_decay self inputs = Ok out -> nonneg2 out.
Proof.
  unfold KM12MOD.soilcarbon_decay. intros HOM Hkl Hkr HT H.
  inv_bind H. injection H as <-.
  assert (Hfst : nonneg (map fst (OM inputs))).
  { apply Forall_map. eapply Forall_impl; [|exact HOM]. now intros c (Hc & _). }
  assert (Hsnd : nonneg (map snd (OM inputs))).
  { apply Forall_map. eapply Forall_impl; [|exact HOM]. now intros c (_ & Hc). }
  apply nonneg_combine.
  - eapply broadcast_Forall; [exact Hv|]. apply nonneg_scale; [|exact Hfst].
    unfold Rdiv. repeat apply Rmult_le_pos; lra.
  - eapply broadcast_Forall; [exact Hv0|]. apply nonneg_scale; [|exact Hsnd].
    unfold Rdiv. repeat apply Rmult_le_pos; lra.
Qed.

Lemma K16MOD_deposition_nonneg (self : K16MOD.t) (out : list R) :
  nonneg (Bag inputs) ->
  0 <= K16MOD.rhoOM (K16MOD.m_params self) ->
  0 <= K16MOD.gammaB (K16MOD.m_params self) ->
  K16MOD.organic_deposition self inputs = Ok out -> nonneg out.
Proof.
  unfold K16MOD.organic_deposition. intros HB Hrho Hg H.
  eapply broadcast_Forall; [exact H|]. apply nonneg_scale; [|exact HB].
  unfold Rdiv. repeat apply Rmult_le_pos; lra.
Qed.

(** The tree density times a power of the diameter: the density was
    computed, so the diameter is not zero; the power was computed, so it
    is not negative. *)
Lemma K16MOD_allometry_nonneg (Md_i e k rout pw : R) :
  0 <= k ->
  div 0.5 Md_i = Ok rout -> power Md_i e = Ok pw -> 0 <= rout * k * pw.
Proof.
  intros Hk Hr Hp. apply div_Ok_inv in Hr as (Hne & ->).
  apply power_Ok_inv in Hp as [(Hpos & ->) | (Hz & _)]; [|contradiction].
  pose proof (Rpower_pos Md_i e).
  assert (0 < 0.5 / Md_i) by (apply Rdiv_lt_0_compat; lra).
  apply Rmult_le_pos; [apply Rmult_le_pos|]; lra.
Qed.

Lemma K16MOD_aboveground_nonneg (self self' : K16MOD.t) (out : list R) :
  nonneg (Bag inputs) ->
  K16MOD.aboveground_biomass self inputs = Ok (self', out) -> nonneg out.
Proof.
  intros HB H. unfold K16MOD.aboveground_biomass in H.
  apply aligned_Ok_inv in H as (_ & H).
  inv_bind H. injection H as _ <-.
  assert (H1 : nonneg v).
  { eapply masked_assign_Forall; [exact Hv | exact HB |].
    intros i x _ _ Hc. inv_bind Hc. unfold K16MOD.marsh_step in Hc.
    inv_bind Hc. injection Hc as <-. apply Rmax_zero_r. }
  assert (H2 : nonneg v0).
  { eapply masked_assign_Forall; [exact Hv0 | exact H1 |].
    intros i x _ _ Hc. inv_bind Hc. unfold K16MOD.marsh_step in Hc.
    inv_bind Hc. injection Hc as <-. apply Rmax_zero_r. }
  eapply masked_assign_Forall; [exact Hv3 | exact H2 |].
  intros i x _ _ Hc. inv_bind Hc. injection Hc as <-.
  eapply K16MOD_allometry_nonneg; eauto. lra.
Qed.

Lemma K16MOD_belowground_nonneg (self : K16MOD.t) (out : list R) :
  nonneg (Bbg inputs) -> nonneg (Bag inputs) ->
  nonneg (K16MOD.phi (K16MOD.m_params self)) ->
  K16MOD.belowground_biomass self inputs = Ok out -> nonneg out.
Proof.
  intros HBb HB Hphi H. unfold K16MOD.belowground_biomass in H.
  apply aligned_Ok_inv in H as (_ & H). inv_bind H.
  assert (H1 : nonneg v).
  { eapply masked_assign_Forall; [exact Hv | exact HBb |].
    intros i x _ _ Hc. inv_bind Hc. injection Hc as <-.
    pose proof (take_Forall _ _ _ _ Hphi Hv0) as Hph. cbv beta in Hph.
    apply Rmult_le_pos; [exact Hph | now apply nonneg_nth]. }
  eapply masked_assign_Forall; [exact H | exact H1 |].
  intros i x _ _ Hc. inv_bind Hc. injection Hc as <-.
  eapply K16MOD_allometry_nonneg; eauto. lra.
Qed.

End NonNegative.

(** ** No division by zero *)

Lemma take_finite (tbl : list R) (p : Z) : finite (take tbl p).
Proof.
  intros H. unfold take in H. destruct (_ && _)%bool; [|discriminate].
  destruct (nth_error tbl _); discriminate.
Qed.

Lemma div_Raise_zero (x y : R) (e : error) : div x y = Raise e -> y = 0.
Proof.
  unfold div. destruct (Req_dec_T y 0); [auto | discriminate].
Qed.

Lemma power_Raise_negative (x y : R) (e : error) :
  power x y = Raise e -> x < 0.
Proof.
  unfold power. destruct (Rlt_dec 0 x); [discriminate|].
  destruct (Req_dec_T x 0); [discriminate|]. intros _. lra.
Qed.

Lemma broadcast_finite {A : Type} (n : nat) (rhs : list A) :
  finite (broadcast n rhs).
Proof.
  unfold finite, broadcast. destruct (Nat.eqb (length rhs) n); [discriminate|].
  destruct rhs as [|a [|b rhs]]; discriminate.
Qed.

Lemma aligned_Raise_inv {A : Type} (n : nat) (lens : list nat)
    (k : result A) (e : error) :
  (aligned n lens ;;; k) = Raise e -> e = ShapeError \/ k = Raise e.
Proof.
  unfold aligned, guard. destruct (forallb (Nat.eqb n) lens); simpl.
  - now right.
  - intros H. left. now injection H.
Qed.

Lemma masked_assign_Raise_inv {A : Type} (d : A) (buf : list A)
    (indice : nat -> bool) (val : nat -> result A) (e : error) :
  masked_assign d buf indice val = Raise e ->
  exists i, (i < length buf)%nat /\ indice i = true /\ val i = Raise e.
Proof.
  unfold masked_assign. intros H.
  apply mapM_Raise_inv in H as (i & Hi & H). apply in_seq in Hi.
  exists i. destruct (indice i); [|discriminate].
  repeat split; [lia | exact H].
Qed.

(** The failed step of a computation is a lookup, which does not fail
    in this way, a value, which does not fail, or a division, whose
    divisor is then zero. *)
Ltac failed_step :=
  match goal with
  | H : take _ _ = Raise FloatingPointError |- _ =>
      exfalso; exact (take_finite _ _ H)
  | H : Ok _ = Raise _ |- _ => discriminate H
  | H : div _ _ = Raise _ |- _ => apply div_Raise_zero in H
  | H : power _ _ = Raise _ |- _ => apply power_Raise_negative in H
  end.

Section Finite.

Variable inputs : Inputs.

Lemma NULLMOD_aboveground_finite (self : NULLMOD.params) :
  finite (NULLMOD.aboveground_biomass self inputs).
Proof.
  intros H. unfold NULLMOD.aboveground_biomass in H.
  apply aligned_Raise_inv in H as [H | H]; [discriminate|].
  apply masked_assign_Raise_inv in H as (i & _ & _ & H).
  inv_raise H; failed_step.
Qed.

Lemma M12MOD_aboveground_finite (self : M12MOD.params) :
  finite (M12MOD.aboveground_biomass self inputs).
Proof.
  intros H. unfold M12MOD.aboveground_biomass in H.
  apply aligned_Raise_inv in H as [H | H]; [discriminate|].
  apply masked_assign_Raise_inv in H as (i & _ & _ & H).
  inv_raise H; failed_step.
Qed.

Lemma VDK05MOD_aboveground_finite (self : VDK05MOD.params) :
  Divisors.VDK05 self inputs ->
  finite (VDK05MOD.aboveground_biomass self inputs).
Proof.
  intros Hd H. unfold VDK05MOD.aboveground_biomass in H.
  apply aligned_Raise_inv in H as [H | H]; [discriminate|].
  apply masked_assign_Raise_inv in H as (i & Hi & Hm & H).
  apply VDK05MOD_indice_iff in Hm.
  destruct (Hd i Hi Hm) as (HB & Hc & Hpole).
  inv_raise H.
  - unfold VDK05MOD.A_cell in H. inv_raise H; failed_step.
    + eapply HB; eassumption.
    + eapply Hc; eassumption.
  - failed_step. apply (Hpole _ Hv). lra.
  - failed_step.
Qed.

Lemma M12MOD_deposition_finite (self : M12MOD.params) :
  Divisors.M12_deposition self inputs ->
  finite (M12MOD.organic_deposition self inputs).
Proof.
  intros Hd H. unfold M12MOD.organic_deposition in H.
  apply aligned_Raise_inv in H as [H | H]; [discriminate|].
  apply masked_assign_Raise_inv in H as (i & Hi & Hm & H).
  rewrite fill_zero_length in Hi. apply Rltb_true_iff in Hm.
  pose proof (Hd i Hi Hm) as HT.
  inv_raise H; failed_step.
  match goal with Ht : take (M12MOD.Tr self) _ = Ok ?tr |- _ =>
    apply (HT tr Ht) end.
  nra.
Qed.

Lemma DA07MOD_deposition_finite (TOL : R) (self : DA07MOD.params) :
  Divisors.DA07_deposition TOL self inputs ->
  finite (DA07MOD.organic_deposition TOL self inputs).
Proof.
  intros Hd H. unfold DA07MOD.organic_deposition in H.
  apply aligned_Raise_inv in H as [H | H]; [discriminate|].
  apply masked_assign_Raise_inv in H as (i & Hi & Hm & H).
  rewrite fill_zero_length in Hi. apply Rltb_true_iff in Hm.
  pose proof (Hd i Hi Hm) as HB.
  inv_raise H; failed_step.
  eapply HB; eassumption.
Qed.

Lemma DA07MOD_aboveground_finite (self : DA07MOD.params) :
  TR inputs <> 0 ->
  finite (DA07MOD.aboveground_biomass self inputs).
Proof.
  intros HTR H. unfold DA07MOD.aboveground_biomass in H.
  apply aligned_Raise_inv in H as [H | H]; [discriminate|].
  apply masked_assign_Raise_inv in H as (i & _ & _ & H).
  inv_raise H; failed_step. lra.
Qed.

Lemma KM12MOD_Bps_finite (self : KM12MOD.params) (i : nat) :
  MHHW inputs <> 0 -> finite (KM12MOD.Bps_cell self inputs i).
Proof.
  intros HM H. unfold KM12MOD.Bps_cell in H.
  inv_raise H; failed_step. contradiction.
Qed.

Lemma KM12MOD_phi_finite (self : KM12MOD.params) (i : nat) :
  finite (KM12MOD.phi_cell self inputs i).
Proof.
  intros H. unfold KM12MOD.phi_cell in H. inv_raise H; failed_step.
Qed.

Lemma KM12MOD_deposition_finite (self : KM12MOD.params) :
  MHHW inputs <> 0 ->
  finite (KM12MOD.organic_deposition self inputs).
Proof.
  intros HM H. unfold KM12MOD.organic_deposition in H.
  apply aligned_Raise_inv in H as [H | H]; [discriminate|].
  apply masked_assign_Raise_inv in H as (i & _ & _ & H).
  inv_raise H.
  - exact (KM12MOD_phi_finite _ _ H).
  - exact (KM12MOD_Bps_finite _ _ HM H).
  - discriminate.
Qed.

Lemma KM12MOD_aboveground_finite (self : KM12MOD.params) :
  MHHW inputs <> 0 ->
  finite (KM12MOD.aboveground_biomass self inputs).
Proof.
  intros HM H. unfold KM12MOD.aboveground_biomass in H.
  apply aligned_Raise_inv in H as [H | H]; [discriminate|].
  apply masked_assign_Raise_inv in H as (i & _ & _ & H).
  inv_raise H.
  - exact (KM12MOD_Bps_finite _ _ HM H).
  - discriminate.
Qed.

Lemma KM12MOD_belowground_finite (self : KM12MOD.params) :
  finite (KM12MOD.belowground_biomass self inputs).
Proof.
  intros H. unfold KM12MOD.belowground_biomass in H.
  apply aligned_Raise_inv in H as [H | H]; [discriminate|].
  apply masked_assign_Raise_inv in H as (i & _ & _ & H).
  inv_raise H.
  - exact (KM12MOD_phi_finite _ _ H).
  - discriminate.
Qed.

Lemma KM12MOD_decay_finite (self : KM12MOD.params) :
  finite (KM12MOD.soilcarbon_decay self inputs).
Proof.
  intros H. unfold KM12MOD.soilcarbon_decay in H. inv_raise H.
  - exact (broadcast_finite _ _ H).
  - exact (broadcast_finite _ _ H).
  - discriminate.
Qed.

Lemma K16MOD_deposition_finite (self : K16MOD.t) :
  finite (K16MOD.organic_deposition self inputs).
Proof. apply broadcast_finite. Qed.

End Finite.

(** ** No division by zero in K16MOD *)

Section FiniteK16.

Variables (self : K16MOD.t) (inputs : Inputs).

Hypothesis HTR : TR inputs <> 0.

Lemma K16MOD_indice_spartina_iff (i : nat) :
  K16MOD.indice_spartina inputs i = true
  <-> in_tide inputs (0.5 * TR inputs) i /\ at_Z (pft inputs) i = 2%Z.
Proof.
  unfold K16MOD.indice_spartina.
  now rewrite andb_true_iff, K16MOD_indice_zh_iff, Z.eqb_eq.
Qed.

Lemma K16MOD_indice_multi_iff (i : nat) :
  K16MOD.indice_multi inputs i = true
  <-> in_tide inputs (0.5 * TR inputs) i
      /\ (at_Z (pft inputs) i = 3%Z \/ at_Z (pft inputs) i = 4%Z).
Proof.
  unfold K16MOD.indice_multi.
  rewrite andb_true_iff, orb_true_iff, K16MOD_indice_zh_iff, !Z.eqb_eq.
  tauto.
Qed.

(** A marsh step fails only on a zero [Bmax] or a zero denominator. *)
Lemma marsh_step_Raise (rz mz b : R) (p : Z) :
  K16MOD.marsh_step self inputs rz mz b p = Raise FloatingPointError ->
  exists bm,
    take (K16MOD.Bmax (K16MOD.m_params self)) p = Ok bm /\
    (bm = 0 \/ Divisors.K16_step_denominator rz mz b bm (dt inputs) = 0).
Proof.
  unfold K16MOD.marsh_step. intros H. inv_raise H; try failed_step.
  - exists v. split; [assumption | now left].
  - exists v. split; [assumption | right].
    apply div_Ok_inv in Hv0 as (_ & ->). exact H.
Qed.

Lemma K16MOD_spartina_finite :
  Divisors.K16_marsh self inputs ->
  finite (K16MOD.spartina_Bag self inputs (Bag inputs)).
Proof.
  intros Hd H. unfold K16MOD.spartina_Bag in H.
  apply masked_assign_Raise_inv in H as (i & Hi & Hm & H).
  apply K16MOD_indice_spartina_iff in Hm as (Ht & Hp).
  inv_raise H.
  - failed_step. lra.
  - apply div_Ok_inv in Hv as (_ & ->).
    apply marsh_step_Raise in H as (bm & Hbm & Hz).
    destruct (Hd i bm Hi Ht Hbm) as (Hs & _).
    destruct (Hs Hp) as (Hne & Hden).
    destruct Hz as [Hz | Hz]; [contradiction|].
    apply Hden. exact Hz.
Qed.

Lemma K16MOD_multi_finite (Bag1 : list R) :
  Divisors.K16_marsh self inputs ->
  K16MOD.spartina_Bag self inputs (Bag inputs) = Ok Bag1 ->
  finite (K16MOD.multi_Bag self inputs Bag1).
Proof.
  intros Hd H1 H. unfold K16MOD.multi_Bag in H.
  apply masked_assign_Raise_inv in H as (i & Hi & Hm & H).
  apply K16MOD_indice_multi_iff in Hm as (Ht & Hp).
  unfold K16MOD.spartina_Bag in H1.
  rewrite (masked_assign_length _ _ _ _ _ H1) in Hi.
  (* the cell still holds the biomass it was given *)
  assert (Hsame : at_R Bag1 i = at_R (Bag inputs) i).
  { apply (masked_assign_keep _ _ _ _ _ i H1).
    unfold K16MOD.indice_spartina.
    replace (at_Z (pft inputs) i =? 2)%Z with false;
      [apply andb_false_r|].
    symmetry. apply Z.eqb_neq. lia. }
  inv_raise H.
  - failed_step. lra.
  - apply div_Ok_inv in Hv as (_ & ->). rewrite Hsame in H.
    apply marsh_step_Raise in H as (bm & Hbm & Hz).
    destruct (Hd i bm Hi Ht Hbm) as (_ & Hmu).
    destruct (Hmu Hp) as (Hne & Hden).
    destruct Hz as [Hz | Hz]; [contradiction|].
    apply Hden. exact Hz.
Qed.

Lemma K16MOD_mangrove_Md_finite :
  length (K16MOD.Md self) = length (Bag inputs) ->
  Divisors.K16_mangrove self inputs ->
  finite (K16MOD.mangrove_Md self inputs).
Proof.
  intros Hlen (HDm & HHm & Hden) H. unfold K16MOD.mangrove_Md in H.
  apply masked_assign_Raise_inv in H as (i & Hi & Hm & H).
  apply K16MOD_indice_mangrove_iff in Hm as (Ht & Hp).
  rewrite Hlen in Hi.
  inv_raise H; failed_step.
  - lra.
  - contradiction.
  - contradiction.
  - now apply (Hden i Hi Ht Hp).
Qed.

Lemma K16MOD_mangrove_Mh_finite (Md1 : list R) :
  finite (K16MOD.mangrove_Mh self inputs Md1).
Proof.
  intros H. unfold K16MOD.mangrove_Mh in H.
  apply masked_assign_Raise_inv in H as (i & _ & _ & H). discriminate.
Qed.

Lemma K16MOD_mangrove_Bag_finite (Md1 Bag2 : list R) :
  length Bag2 = length Md1 ->
  Divisors.positive_diameter inputs Md1 ->
  finite (K16MOD.mangrove_Bag inputs Md1 Bag2).
Proof.
  intros Hlen Hpos H. unfold K16MOD.mangrove_Bag in H.
  apply masked_assign_Raise_inv in H as (i & Hi & Hm & H).
  apply K16MOD_indice_mangrove_iff in Hm as (Ht & Hp).
  rewrite Hlen in Hi. pose proof (Hpos i Hi Ht Hp) as Hd.
  inv_raise H; failed_step; lra.
Qed.

(** What the diameter update stores at a mangrove cell. *)
Lemma K16MOD_mangrove_Md_cell (Md1 : list R) (i : nat) :
  K16MOD.mangrove_Md self inputs = Ok Md1 ->
  (i < length (K16MOD.Md self))%nat ->
  K16MOD.indice_mangrove inputs i = true ->
  at_R Md1 i = Divisors.K16_new_diameter self inputs i.
Proof.
  intros H Hi Hm. unfold K16MOD.mangrove_Md in H.
  pose proof (masked_assign_set _ _ _ _ _ i H Hi Hm) as Hc.
  inv_bind Hc. injection Hc as Hc. unfold at_R at 1. rewrite <- Hc.
  apply div_Ok_inv in Hv as (_ & ->).
  apply div_Ok_inv in Hv0 as (_ & ->).
  apply div_Ok_inv in Hv1 as (_ & ->).
  apply div_Ok_inv in Hv2 as (_ & ->).
  reflexivity.
Qed.

Lemma K16MOD_new_diameter_positive (Md1 : list R) :
  Divisors.K16_new_diameter_positive self inputs ->
  K16MOD.mangrove_Md self inputs = Ok Md1 ->
  Divisors.positive_diameter inputs Md1.
Proof.
  intros Hpos H i Hi Ht Hp.
  assert (Hlen : length Md1 = length (K16MOD.Md self)).
  { unfold K16MOD.mangrove_Md in H. now apply masked_assign_length in H. }
  rewrite Hlen in Hi.
  rewrite (K16MOD_mangrove_Md_cell Md1 i H Hi)
    by (apply K16MOD_indice_mangrove_iff; auto).
  now apply Hpos.
Qed.

(** The whole call: the marsh divisors, the divisors of the diameter
    update, and a positive diameter once it is updated. *)
Lemma K16MOD_aboveground_finite :
  Divisors.K16_marsh self inputs ->
  Divisors.K16_mangrove self inputs ->
  Divisors.K16_new_diameter_positive self inputs ->
  finite (K16MOD.aboveground_biomass self inputs).
Proof.
  intros Hmarsh Hmgv Hpos' H.
  pose proof (fun Md1 => K16MOD_new_diameter_positive Md1 Hpos') as Hpos.
  unfold K16MOD.aboveground_biomass in H.
  destruct (aligned _ _) as [[]|e] eqn:Hal; cbn [bind] in H.
  2:{ unfold aligned, guard in Hal.
      destruct (forallb _ _); [discriminate|]. congruence. }
  assert (Hlens : Forall (eq (length (Bag inputs)))
            [length (zh inputs); length (pft inputs);
             length (K16MOD.Md self); length (K16MOD.Mh self)]).
  { unfold aligned, guard in Hal.
    destruct (forallb _ _) eqn:E; [|discriminate].
    rewrite forallb_forall in E. apply Forall_forall.
    intros n Hn. now apply Nat.eqb_eq, E. }
  inversion Hlens as [|? ? _ Hl1]; subst.
  inversion Hl1 as [|? ? _ Hl2]; subst.
  inversion Hl2 as [|? ? HlMd _]; subst. clear Hlens Hl1 Hl2.
  inv_raise H.
  - exact (K16MOD_spartina_finite Hmarsh H).
  - exact (K16MOD_multi_finite v Hmarsh Hv H).
  - exact (K16MOD_mangrove_Md_finite (eq_sym HlMd) Hmgv H).
  - exact (K16MOD_mangrove_Mh_finite _ H).
  - refine (K16MOD_mangrove_Bag_finite v1 v0 _ (Hpos v1 Hv1) H).
    unfold K16MOD.spartina_Bag in Hv. unfold K16MOD.multi_Bag in Hv0.
    unfold K16MOD.mangrove_Md in Hv1.
    apply masked_assign_length in Hv, Hv0, Hv1. congruence.
  - discriminate.
Qed.

Lemma K16MOD_belowground_finite :
  Divisors.positive_diameter inputs (K16MOD.Md self) ->
  finite (K16MOD.belowground_biomass self inputs).
Proof.
  intros Hpos H. unfold K16MOD.belowground_biomass in H.
  destruct (aligned _ _) as [[]|e] eqn:Hal; cbn [bind] in H.
  2:{ unfold aligned, guard in Hal.
      destruct (forallb _ _); [discriminate|]. congruence. }
  assert (Hlens : Forall (eq (length (Bbg inputs)))
            [length (zh inputs); length (pft inputs);
             length (Bag inputs); length (K16MOD.Md self)]).
  { unfold aligned, guard in Hal.
    destruct (forallb _ _) eqn:E; [|discriminate].
    rewrite forallb_forall in E. apply Forall_forall.
    intros n Hn. now apply Nat.eqb_eq, E. }
  inversion Hlens as [|? ? _ Hl1]; subst.
  inversion Hl1 as [|? ? _ Hl2]; subst.
  inversion Hl2 as [|? ? _ Hl3]; subst.
  inversion Hl3 as [|? ? HlMd _]; subst. clear Hlens Hl1 Hl2 Hl3.
  inv_raise H.
  - apply masked_assign_Raise_inv in H as (i & _ & _ & H).
    inv_raise H; failed_step.
  - apply masked_assign_Raise_inv in H as (i & Hi & Hm & H).
    apply K16MOD_indice_mangrove_iff in Hm as (Ht & Hp).
    rewrite (masked_assign_length _ _ _ _ _ Hv), HlMd in Hi.
    pose proof (Hpos i Hi Ht Hp) as Hd.
    inv_raise H; failed_step; lra.
Qed.

End FiniteK16.

(** C2, as stated, fails for the soil carbon decay, which is not
    clamped: with both pools at [1] kg/m2, decay rates inside their
    documented ranges and a soil 30 K colder than the reference
    temperature, both decay fluxes are negative. *)
Lemma KM12MOD_decay_can_be_negative :
  nonneg2 (OM Examples.cold_soil) /\
  0.5 <= KM12MOD.kl0 Examples.km_params <= 5.0 /\
  0.00008 <= KM12MOD.kr0 Examples.km_params <= 0.0015 /\
  exists out,
    KM12MOD.soilcarbon_decay Examples.km_params Examples.cold_soil = Ok out /\
    fst (nth 0 out (0, 0)) < 0 /\
    snd (nth 0 out (0, 0)) < 0.
Proof.
  split; [|split; [|split]].
  - np_unfold. repeat constructor; cbn [fst snd]; lra.
  - np_unfold. lra.
  - np_unfold. lra.
  - eexists. split; [np_run; reflexivity|].
    cbn [nth fst snd]. split; lra.
Qed.

(** C2, amended.  On a driving state whose biomass buffers and soil
    pools are non-negative, with non-negative parameters ([omega] in
    [[0,1]]) and with every divisor of the operation different from
    zero, no operation divides by zero or raises a negative base to a
    power, and every element of the sequence it returns is
    non-negative.  The divisors are: for [VDK05MOD] those of
    [Divisors.VDK05]; for the deposition of [M12MOD] and [DA07MOD] the
    table entries [Tr] and [Bmax]; the tidal range [TR] for
    [DA07MOD.aboveground_biomass] and [K16MOD.aboveground_biomass];
    [MHHW] for the deposition and the biomass of [KM12MOD]; for the
    marsh cells of [K16MOD] those of [Divisors.K16_marsh] and for its
    mangrove cells those of [Divisors.K16_mangrove].  Two operations
    need more than that.  [KM12MOD.soilcarbon_decay] is not clamped:
    the temperature factor [1 + (Tsoi - TrefOM) * sigmaOM] must be
    non-negative.  [K16MOD] divides by the tree diameter: at every
    mangrove cell inside the tidal frame the diameter must be positive,
    in [aboveground_biomass] the one that the call stores
    ([Divisors.K16_new_diameter]), in [belowground_biomass] the one
    that the instance holds.  A constructed instance, whose diameters
    are zero, does not meet this condition. *)
Theorem outputs_are_nonnegative (inputs : Inputs) :
  nonneg (Bag inputs) ->
  nonneg (Bbg inputs) ->
  nonneg2 (OM inputs) ->
  (forall self,
     finite (NULLMOD.organic_deposition self inputs) /\
     forall out,
       NULLMOD.organic_deposition self inputs = Ok out -> nonneg out) /\
  (forall self,
     finite (NULLMOD.aboveground_biomass self inputs) /\
     forall out,
       NULLMOD.aboveground_biomass self inputs = Ok out -> nonneg out) /\
  (forall self,
     finite (VDK05MOD.organic_deposition self inputs) /\
     forall out,
       VDK05MOD.organic_deposition self inputs = Ok out -> nonneg out) /\
  (forall self,
     Divisors.VDK05 self inputs ->
     finite (VDK05MOD.aboveground_biomass self inputs) /\
     forall out,
       VDK05MOD.aboveground_biomass self inputs = Ok out -> nonneg out) /\
  (forall self,
     nonneg (M12MOD.Kr self) -> nonneg (M12MOD.phi self) ->
     nonneg (M12MOD.Tr self) ->
     Divisors.M12_deposition self inputs ->
     finite (M12MOD.organic_deposition self inputs) /\
     forall out,
       M12MOD.organic_deposition self inputs = Ok out -> nonneg out) /\
  (forall self,
     finite (M12MOD.aboveground_biomass self inputs) /\
     forall out,
       M12MOD.aboveground_biomass self inputs = Ok out -> nonneg out) /\
  (forall TOL self,
     0 <= DA07MOD.Qom0 self -> 0 <= DA07MOD.rhoOM self ->
     nonneg (DA07MOD.Bmax self) ->
     Divisors.DA07_deposition TOL self inputs ->
     finite (DA07MOD.organic_deposition TOL self inputs) /\
     forall out,
       DA07MOD.organic_deposition TOL self inputs = Ok out -> nonneg out) /\
  (forall self,
     nonneg (DA07MOD.Bmax self) -> 0 <= DA07MOD.omega self <= 1 ->
     TR inputs <> 0 ->
     finite (DA07MOD.aboveground_biomass self inputs) /\
     forall out,
       DA07MOD.aboveground_biomass self inputs = Ok out -> nonneg out) /\
  (forall self,
     MHHW inputs <> 0 ->
     finite (KM12MOD.organic_deposition self inputs) /\
     forall out,
       KM12MOD.organic_deposition self inputs = Ok out -> nonneg out) /\
  (forall self,
     MHHW inputs <> 0 ->
     finite (KM12MOD.aboveground_biomass self inputs) /\
     forall out,
       KM12MOD.aboveground_biomass self inputs = Ok out -> nonneg out) /\
  (forall self,
     finite (KM12MOD.belowground_biomass self inputs) /\
     forall out,
       KM12MOD.belowground_biomass self inputs = Ok out -> nonneg out) /\
  (forall self,
     0 <= KM12MOD.kl0 self -> 0 <= KM12MOD.kr0 self ->
     0 <= 1 + (Tair inputs - KM12MOD.TrefOM self) * KM12MOD.sigmaOM self ->
     finite (KM12MOD.soilcarbon_decay self inputs) /\
     forall out,
       KM12MOD.soilcarbon_decay self inputs = Ok out -> nonneg2 out) /\
  (forall self,
     0 <= K16MOD.rhoOM (K16MOD.m_params self) ->
     0 <= K16MOD.gammaB (K16MOD.m_params self) ->
     finite (K16MOD.organic_deposition self inputs) /\
     forall out,
       K16MOD.organic_deposition self inputs = Ok out -> nonneg out) /\
  (forall self,
     TR inputs <> 0 ->
     Divisors.K16_marsh self inputs ->
     Divisors.K16_mangrove self inputs ->
     Divisors.K16_new_diameter_positive self inputs ->
     finite (K16MOD.aboveground_biomass self inputs) /\
     forall self' out,
       K16MOD.aboveground_biomass self inputs = Ok (self', out) ->
       nonneg out) /\
  (forall self,
     nonneg (K16MOD.phi (K16MOD.m_params self)) ->
     Divisors.positive_diameter inputs (K16MOD.Md self) ->
     finite (K16MOD.belowground_biomass self inputs) /\
     forall out,
       K16MOD.belowground_biomass self inputs = Ok out -> nonneg out).
Proof.
  intros HBag HBbg HOM.
  repeat match goal with |- _ /\ _ => split end; intros; split; intros.
  - intro H. discriminate H.
  - injection H as <-. apply nonneg_fill_zero.
  - apply NULLMOD_aboveground_finite.
  - eapply NULLMOD_aboveground_nonneg; eauto.
  - intro H. discriminate H.
  - injection H as <-. apply nonneg_fill_zero.
  - now apply VDK05MOD_aboveground_finite.
  - eapply VDK05MOD_aboveground_nonneg; eauto.
  - now apply M12MOD_deposition_finite.
  - eapply M12MOD_deposition_nonneg; eauto.
  - apply M12MOD_aboveground_finite.
  - eapply M12MOD_aboveground_nonneg; eauto.
  - now apply DA07MOD_deposition_finite.
  - eapply DA07MOD_deposition_nonneg; eauto.
  - now apply DA07MOD_aboveground_finite.
  - eapply DA07MOD_aboveground_nonneg; eauto.
  - now apply KM12MOD_deposition_finite.
  - eapply KM12MOD_deposition_nonneg; eauto.
  - now apply KM12MOD_aboveground_finite.
  - eapply KM12MOD_aboveground_nonneg; eauto.
  - apply KM12MOD_belowground_finite.
  - eapply KM12MOD_belowground_nonneg; eauto.
  - apply KM12MOD_decay_finite.
  - eapply KM12MOD_decay_nonneg; eauto.
  - apply K16MOD_deposition_finite.
  - eapply K16MOD_deposition_nonneg; eauto.
  - now apply K16MOD_aboveground_finite.
  - eapply K16MOD_aboveground_nonneg; eauto.
  - now apply K16MOD_belowground_finite.
  - eapply K16MOD_belowground_nonneg; eauto.
Qed.

Lemma mangrove_cell_nonneg :
  nonneg (Bag Examples.mangrove_cell) /\ nonneg (Bbg Examples.mangrove_cell) /\
  nonneg2 (OM Examples.mangrove_cell).
Proof.
  np_unfold. repeat split; repeat constructor; cbn [fst snd]; lra.
Qed.

(** The divisors and the new diameter of the seedling at the mangrove
    cell. *)
Lemma seedling_divisors :
  TR Examples.mangrove_cell <> 0 /\
  Divisors.K16_marsh Examples.seedling Examples.mangrove_cell /\
  Divisors.K16_mangrove Examples.seedling Examples.mangrove_cell /\
  Divisors.K16_new_diameter_positive Examples.seedling Examples.mangrove_cell.
Proof.
  split; [np_unfold; lra|]. split; [|split].
  - intros [|i] bm Hi _ _; [|cbn in Hi; lia].
    split; [intros Hp | intros [Hp | Hp]]; discriminate Hp.
  - split; [np_unfold; lra|]. split; [np_unfold; lra|].
    intros [|i] Hi _ _; [|cbn in Hi; lia]. np_unfold. lra.
  - intros [|i] Hi _ _; [|cbn in Hi; lia].
    unfold Divisors.K16_new_diameter. np_unfold.
    rewrite Rmax_left by lra. lra.
Qed.

(** The divisors of the senescent cell under VDK05MOD. *)
Lemma senescent_cell_divisors :
  Divisors.VDK05 Examples.vdk_params Examples.senescent_cell.
Proof.
  intros [|i] Hi _; [|cbn in Hi; lia]. cbv zeta.
  assert (Ht : forall tbl : list R,
            tbl = [1; 1; 1] ->
            take tbl (at_Z (pft Examples.senescent_cell) 0) = Ok 1).
  { intros tbl ->. np_run. reflexivity. }
  split; [|split].
  - intros v Hv.
    change (take [1; 1; 1] (at_Z (pft Examples.senescent_cell) 0) = Ok v)
      in Hv.
    rewrite (Ht _ eq_refl) in Hv. injection Hv as <-. lra.
  - intros c Hc.
    change (take [1; 1; 1] (at_Z (pft Examples.senescent_cell) 0) = Ok c)
      in Hc.
    rewrite (Ht _ eq_refl) in Hc. injection Hc as <-.
    np_unfold. rewrite Rmax_left by lra. lra.
  - intros A HA.
    assert (HA' : VDK05MOD.A_cell Examples.vdk_params
                    (at_R (zh Examples.senescent_cell) 0)
                    (at_R (Slope Examples.senescent_cell) 0)
                    (at_R (Bag Examples.senescent_cell) 0)
                    (at_Z (pft Examples.senescent_cell) 0) = Ok (-1)).
    { np_run. f_equal. lra. }
    rewrite HA' in HA. injection HA as <-. np_unfold. lra.
Qed.

Lemma senescent_cell_nonneg :
  nonneg (Bag Examples.senescent_cell) /\
  nonneg (Bbg Examples.senescent_cell) /\
  nonneg2 (OM Examples.senescent_cell).
Proof.
  np_unfold. repeat split; repeat constructor; cbn [fst snd]; lra.
Qed.

Lemma seedling_positive_diameter :
  nonneg (K16MOD.phi (K16MOD.m_params Examples.seedling)) /\
  Divisors.positive_diameter Examples.mangrove_cell
    (K16MOD.Md Examples.seedling).
Proof.
  split.
  - np_unfold. repeat constructor; lra.
  - intros [|i] Hi _ _; [|cbn in Hi; lia]. np_unfold. lra.
Qed.

(** Three calls that return: the senescent cell under VDK05MOD, and the
    seedling at the mangrove cell under the two biomass operations of
    K16MOD.  What they return is non-negative. *)
Lemma outputs_are_nonnegative_witness :
  (exists out,
     VDK05MOD.aboveground_biomass Examples.vdk_params Examples.senescent_cell
     = Ok out /\
     nonneg out) /\
  (exists self' out,
     K16MOD.aboveground_biomass Examples.seedling Examples.mangrove_cell
     = Ok (self', out) /\
     nonneg out) /\
  (exists out,
     K16MOD.belowground_biomass Examples.seedling Examples.mangrove_cell
     = Ok out /\
     nonneg out).
Proof.
  destruct mangrove_cell_nonneg as (H1 & H2 & H3).
  destruct senescent_cell_nonneg as (S1 & S2 & S3).
  destruct seedling_divisors as (HTR & Hmarsh & Hmgv & Hpos).
  destruct seedling_positive_diameter as (Hphi & HMd).
  destruct (outputs_are_nonnegative Examples.senescent_cell S1 S2 S3)
    as (_ & _ & _ & Hvdk & _).
  destruct (outputs_are_nonnegative Examples.mangrove_cell H1 H2 H3)
    as (_ & _ & _ & _ & _ & _ & _ & _ & _ & _ & _ & _ & _ & Hab & Hbg).
  split; [|split].
  - assert (Hrun : exists out,
      VDK05MOD.aboveground_biomass Examples.vdk_params Examples.senescent_cell
      = Ok out).
    { eexists. np_run. reflexivity. }
    destruct Hrun as (out & Hrun). exists out. split; [exact Hrun|].
    destruct (Hvdk Examples.vdk_params senescent_cell_divisors) as (_ & Hnn).
    exact (Hnn out Hrun).
  - assert (Hrun : exists r,
      K16MOD.aboveground_biomass Examples.seedling Examples.mangrove_cell
      = Ok r).
    { eexists. np_run. reflexivity. }
    destruct Hrun as ((self' & out) & Hrun).
    exists self', out. split; [exact Hrun|].
    destruct (Hab Examples.seedling HTR Hmarsh Hmgv Hpos) as (_ & Hnn).
    exact (Hnn self' out Hrun).
  - assert (Hrun : exists out,
      K16MOD.belowground_biomass Examples.seedling Examples.mangrove_cell
      = Ok out).
    { eexists. np_run. reflexivity. }
    destruct Hrun as (out & Hrun). exists out. split; [exact Hrun|].
    destruct (Hbg Examples.seedling Hphi HMd) as (_ & Hnn).
    exact (Hnn out Hrun).
Defined.

(** * Further properties of the code *)

(** ** More on the array primitives *)

Lemma take_in_range (tbl : list R) (p : Z) :
  (0 <= p < Z.of_nat (length tbl))%Z -> exists v, take tbl p = Ok v.
Proof.
  intros Hp.
  destruct (nth_error tbl (Z.to_nat p)) as [v|] eqn:E.
  - exists v. apply take_nth; [lia | exact E].
  - apply nth_error_None in E. lia.
Qed.

Lemma take_beyond (tbl : list R) (p : Z) :
  (Z.of_nat (length tbl) <= p)%Z -> take tbl p = Raise IndexError.
Proof.
  intros Hp. unfold take.
  replace (p <? 0)%Z with false by (symmetry; apply Z.ltb_ge; lia).
  replace (p <? Z.of_nat (length tbl))%Z with false
    by (symmetry; apply Z.ltb_ge; lia).
  now rewrite andb_false_r.
Qed.

(** A lookup fails in one way only. *)
Lemma take_cases (tbl : list R) (p : Z) :
  take tbl p = Raise IndexError \/ exists v, take tbl p = Ok v.
Proof.
  unfold take. destruct (_ && _)%bool; [|now left].
  destruct (nth_error tbl _); [right; eauto | now left].
Qed.

Lemma div_cases (x y : R) :
  div x y = Raise FloatingPointError \/ exists q, div x y = Ok q.
Proof.
  unfold div. destruct (Req_dec_T y 0); [now left | right; eauto].
Qed.

Lemma aligned_Raise {A : Type} (n : nat) (lens : list nat) (k : result A) :
  ~ Forall (eq n) lens -> (aligned n lens ;;; k) = Raise ShapeError.
Proof.
  intros H. unfold aligned, guard.
  destruct (forallb (Nat.eqb n) lens) eqn:E; [|reflexivity].
  exfalso. apply H. rewrite forallb_forall in E. apply Forall_forall.
  intros x Hx. now apply Nat.eqb_eq, E.
Qed.

Lemma broadcast_same {A : Type} (n : nat) (rhs : list A) :
  length rhs = n -> broadcast n rhs = Ok rhs.
Proof.
  intros H. unfold broadcast. now rewrite (proj2 (Nat.eqb_eq _ _) H).
Qed.

(** An array of one element fills the whole slice. *)
Lemma broadcast_one {A : Type} (n : nat) (a : A) :
  broadcast n [a] = Ok (repeat a n).
Proof.
  unfold broadcast. destruct (Nat.eqb (length [a]) n) eqn:E; [|reflexivity].
  apply Nat.eqb_eq in E. now subst n.
Qed.

Lemma broadcast_mismatch {A : Type} (n : nat) (rhs : list A) :
  length rhs <> n -> length rhs <> 1%nat -> broadcast n rhs = Raise ShapeError.
Proof.
  intros Hn H1. unfold broadcast.
  rewrite (proj2 (Nat.eqb_neq _ _) Hn).
  destruct rhs as [|a [|b rhs]]; simpl in *; congruence.
Qed.

Lemma mapM_app {A B : Type} (f : A -> result B) (l1 l2 : list A) :
  mapM f (l1 ++ l2)
  = (o1 <- mapM f l1 ;; o2 <- mapM f l2 ;; Ok (o1 ++ o2)).
Proof.
  induction l1 as [|a l1 IH]; simpl.
  - destruct (mapM f l2); reflexivity.
  - destruct (f a) as [b|e]; simpl; [|reflexivity].
    rewrite IH. destruct (mapM f l1) as [o1|e]; simpl; [|reflexivity].
    destruct (mapM f l2); reflexivity.
Qed.

Section MaskedAssignMore.

Context {A : Type} (d : A).
Variables (buf : list A) (indice : nat -> bool) (val : nat -> result A).

(** When every selected cell has a value the assignment completes. *)
Lemma masked_assign_total :
  (forall i, (i < length buf)%nat -> indice i = true -> exists v, val i = Ok v) ->
  exists out, masked_assign d buf indice val = Ok out.
Proof.
  intros H. unfold masked_assign. apply mapM_total.
  intros i Hi. apply in_seq in Hi.
  destruct (indice i) eqn:E; [apply H; auto; lia | eauto].
Qed.

(** Assigning again, to the buffer just returned, changes nothing
    provided the values do not depend on the buffer. *)
Lemma masked_assign_again (out : list A) :
  masked_assign d buf indice val = Ok out ->
  masked_assign d out indice val = Ok out.
Proof.
  intros H. transitivity (masked_assign d buf indice val); [|exact H].
  unfold masked_assign.
  rewrite (masked_assign_length d buf indice val out H).
  apply mapM_ext. intros i _.
  destruct (indice i) eqn:E; [reflexivity|].
  now rewrite (masked_assign_keep d buf indice val out i H E).
Qed.

(** When the selected cells can only fail with [e] and one of them
    does, the assignment fails with [e]. *)
Lemma masked_assign_Raise (e : error) (i : nat) :
  (forall j, indice j = true -> val j = Raise e \/ exists v, val j = Ok v) ->
  (i < length buf)%nat -> indice i = true -> val i = Raise e ->
  masked_assign d buf indice val = Raise e.
Proof.
  intros Hall Hi Hm Hv. unfold masked_assign. apply mapM_Raise.
  - intros j _. destruct (indice j) eqn:E; [now apply Hall | eauto].
  - exists i. split; [apply in_seq; lia | now rewrite Hm].
Qed.

End MaskedAssignMore.

Ltac np_unfold_more :=
  cbv [Cases.null_full Cases.m12_full Cases.tree_cell Cases.marsh_04 Cases.x3 Cases.zh3 Cases.two_cells
       Ecogeom.cell_widths Ecogeom.lower_faces Ecogeom.upper_faces
       Ecogeom.dx_cell Ecogeom.zh0_cell Ecogeom.zh1_cell Ecogeom.item
       Ecogeom.sum fold_right nth_error Nat.add Nat.sub with_Bag];
  np_unfold.

(** ** Deposition fluxes *)

(** X1. [M12MOD.organic_deposition]: a cell with standing biomass
    receives the flux [Kr * (phi * Bag) / (Tr * 3.1536e7)] with the
    coefficients of its pft, whose turnover time is then not zero; a
    cell without standing biomass receives no flux. *)
Theorem M12MOD_deposition_formula (self : M12MOD.params) (inputs : Inputs)
    (out : list R) (i : nat) :
  M12MOD.organic_deposition self inputs = Ok out ->
  (i < length (DepOM inputs))%nat ->
  let p := at_Z (pft inputs) i in
  let b := at_R (Bag inputs) i in
  (0 < b ->
     exists kr ph tr,
       take (M12MOD.Kr self) p = Ok kr /\
       take (M12MOD.phi self) p = Ok ph /\
       take (M12MOD.Tr self) p = Ok tr /\
       tr <> 0 /\
       nth i out 0 = kr * (ph * b) / (tr * 3.1536e7)) /\
  (~ 0 < b -> nth i out 0 = 0).
Proof.
  intros H Hi p b. unfold M12MOD.organic_deposition in H.
  apply aligned_Ok_inv in H as (_ & H). split; intros Hb.
  - rewrite <- fill_zero_length in Hi.
    pose proof (masked_assign_set _ _ _ _ _ i H Hi
                  (proj2 (Rltb_true_iff _ _) Hb)) as Hc.
    inv_bind Hc. apply div_Ok_inv in Hc as (Hne & Hc).
    exists v, v0, v1. repeat split; auto.
    intros ->. apply Hne. ring.
  - rewrite (masked_assign_keep _ _ _ _ _ i H).
    + apply fill_zero_nth.
    + now apply Rltb_false_iff.
Qed.

(** A standing biomass of [0.4] with [Kr = 0.5], [phi = 0.3] and a
    turnover time of 2 years deposits [0.06 / 6.3072e7] kg/m2/s. *)
Lemma M12MOD_deposition_formula_witness :
  exists out,
    M12MOD.organic_deposition Examples.m12_params Cases.marsh_04 = Ok out /\
    nth 0 out 0 = 0.06 / 6.3072e7.
Proof.
  assert (Hrun : exists out,
    M12MOD.organic_deposition Examples.m12_params Cases.marsh_04 = Ok out).
  { eexists. np_unfold_more. np_eval. reflexivity. }
  destruct Hrun as (out & Hrun). exists out. split; [exact Hrun|].
  destruct (M12MOD_deposition_formula _ _ out 0%nat Hrun (Nat.lt_0_succ 0))
    as (Hpos & _).
  destruct Hpos as (kr & ph & tr & Hkr & Hph & Htr & _ & ->).
  - np_unfold_more. lra.
  - revert Hkr Hph Htr. np_unfold_more. np_eval.
    intros [= <-] [= <-] [= <-]. lra.
Defined.

(** X2. [DA07MOD.organic_deposition]: a cell whose biomass exceeds the
    tolerance receives [Qom0/3.1536e7 * rhoOM * Bag / Bmax] with the
    [Bmax] of its pft, which is then not zero; with non-negative
    [Qom0] and [rhoOM] and a biomass that does not exceed a positive
    [Bmax] this flux is at most [Qom0/3.1536e7 * rhoOM]. *)
Theorem DA07MOD_deposition_formula (TOL : R) (self : DA07MOD.params)
    (inputs : Inputs) (out : list R) (i : nat) :
  DA07MOD.organic_deposition TOL self inputs = Ok out ->
  (i < length (DepOM inputs))%nat ->
  TOL < at_R (Bag inputs) i ->
  let b := at_R (Bag inputs) i in
  let top := DA07MOD.Qom0 self / 3.1536e7 * DA07MOD.rhoOM self in
  exists bm,
    take (DA07MOD.Bmax self) (at_Z (pft inputs) i) = Ok bm /\
    bm <> 0 /\
    nth i out 0 = top * b / bm /\
    (0 <= DA07MOD.Qom0 self -> 0 <= DA07MOD.rhoOM self ->
     0 < bm -> b <= bm -> nth i out 0 <= top).
Proof.
  intros H Hi Hb b top. unfold DA07MOD.organic_deposition in H.
  apply aligned_Ok_inv in H as (_ & H).
  rewrite <- fill_zero_length in Hi.
  pose proof (masked_assign_set _ _ _ _ _ i H Hi
                (proj2 (Rltb_true_iff _ _) Hb)) as Hc.
  inv_bind Hc. apply div_Ok_inv in Hc as (Hne & Hc).
  exists v. repeat split; auto.
  intros HQ Hrho Hbm Hle. rewrite Hc. fold b top.
  assert (Htop : 0 <= top).
  { unfold top, Rdiv. repeat apply Rmult_le_pos; lra. }
  assert (Hq : b / v <= 1).
  { apply (Rmult_le_reg_r v); [exact Hbm|]. unfold Rdiv.
    rewrite Rmult_assoc, Rinv_l by exact Hne. lra. }
  replace (top * b / v) with (top * (b / v)) by (unfold Rdiv; ring).
  rewrite <- (Rmult_1_r top) at 2. now apply Rmult_le_compat_l.
Qed.

(** A salt marsh cell with a third of the maximal biomass. *)
Lemma DA07MOD_deposition_formula_witness :
  exists out,
    DA07MOD.organic_deposition 0.000001 Examples.da_params Cases.marsh_04
    = Ok out /\
    nth 0 out 0 <= 0.002 / 3.1536e7 * 1200.
Proof.
  assert (Hrun : exists out,
    DA07MOD.organic_deposition 0.000001 Examples.da_params Cases.marsh_04
    = Ok out).
  { eexists. np_unfold_more. np_eval. reflexivity. }
  destruct Hrun as (out & Hrun). exists out. split; [exact Hrun|].
  assert (Hb : 0.000001 < at_R (Bag Cases.marsh_04) 0)
    by (np_unfold_more; lra).
  destruct (DA07MOD_deposition_formula _ _ _ out 0%nat Hrun
              (Nat.lt_0_succ 0) Hb) as (bm & Hbm & _ & _ & Hle).
  revert Hbm Hle. np_unfold_more. np_eval. intros [= <-] Hle.
  apply Hle; lra.
Defined.

(** ** Closed-form biomass: completion, failure and repetition *)

Lemma quadratic_cell_completes (aa bb cc : list R) (p : Z) (d : R) :
  (2 <= p <= 5)%Z ->
  (6 <= length aa)%nat -> (6 <= length bb)%nat -> (6 <= length cc)%nat ->
  exists v,
    (a <- take aa p ;; b <- take bb p ;; c <- take cc p ;;
     Ok (Rmax 0.0 (a * d + b * d ^ 2 + c))) = Ok v.
Proof.
  intros Hp Ha Hb Hc.
  destruct (take_in_range aa p) as (a & ->); [lia|].
  destruct (take_in_range bb p) as (b & ->); [lia|].
  destruct (take_in_range cc p) as (c & ->); [lia|].
  cbn [bind]. eauto.
Qed.

(** X3. With index-aligned buffers and coefficient tables that have an
    entry for each of the pft codes 0 to 5,
    [NULLMOD.aboveground_biomass] and [M12MOD.aboveground_biomass]
    complete, and what NULLMOD returns follows the quadratic curve. *)
Theorem quadratic_biomass_completes (n : NULLMOD.params) (m : M12MOD.params)
    (inputs : Inputs) :
  length (zh inputs) = length (Bag inputs) ->
  length (pft inputs) = length (Bag inputs) ->
  (6 <= length (NULLMOD.aa n))%nat -> (6 <= length (NULLMOD.bb n))%nat ->
  (6 <= length (NULLMOD.cc n))%nat ->
  (6 <= length (M12MOD.aa m))%nat -> (6 <= length (M12MOD.bb m))%nat ->
  (6 <= length (M12MOD.cc m))%nat ->
  (exists out,
     NULLMOD.aboveground_biomass n inputs = Ok out /\
     quadratic_biomass_spec (NULLMOD.aa n) (NULLMOD.bb n) (NULLMOD.cc n)
       inputs out) /\
  (exists out, M12MOD.aboveground_biomass m inputs = Ok out).
Proof.
  intros Hz Hp Ha Hb Hc Ha' Hb' Hc'. split.
  - assert (Hrun : exists out, NULLMOD.aboveground_biomass n inputs = Ok out).
    { unfold NULLMOD.aboveground_biomass.
      rewrite aligned_Ok by (repeat constructor; congruence).
      apply masked_assign_total. intros i _ Hm.
      apply NULLMOD_indice_iff in Hm as (_ & Hv).
      now apply quadratic_cell_completes. }
    destruct Hrun as (out & Hrun). exists out. split; [exact Hrun|].
    now apply NULLMOD_aboveground_spec.
  - unfold M12MOD.aboveground_biomass.
    rewrite aligned_Ok by (repeat constructor; congruence).
    apply masked_assign_total. intros i _ Hm.
    apply M12MOD_indice_iff in Hm as (_ & Hv).
    now apply quadratic_cell_completes.
Qed.

Lemma quadratic_biomass_completes_witness :
  exists out,
    NULLMOD.aboveground_biomass Cases.null_full Cases.two_cells = Ok out /\
    quadratic_biomass_spec (NULLMOD.aa Cases.null_full)
      (NULLMOD.bb Cases.null_full) (NULLMOD.cc Cases.null_full)
      Cases.two_cells out.
Proof.
  refine (proj1 (quadratic_biomass_completes Cases.null_full
                   Cases.m12_full Cases.two_cells _ _ _ _ _ _ _ _));
    try reflexivity; np_unfold_more; lia.
Defined.

Lemma quadratic_cell_cases (aa bb cc : list R) (p : Z) (d : R) :
  let cell := (a <- take aa p ;; b <- take bb p ;; c <- take cc p ;;
               Ok (Rmax 0.0 (a * d + b * d ^ 2 + c))) in
  cell = Raise IndexError \/ exists v, cell = Ok v.
Proof.
  cbv zeta.
  destruct (take_cases aa p) as [-> | (a & ->)]; [now left|].
  destruct (take_cases bb p) as [-> | (b & ->)]; [now left|].
  destruct (take_cases cc p) as [-> | (c & ->)]; [now left|].
  right. cbn [bind]. eauto.
Qed.

Lemma quadratic_cell_fails (aa bb cc : list R) (p : Z) (d : R) :
  (Z.of_nat (length aa) <= p \/ Z.of_nat (length bb) <= p
   \/ Z.of_nat (length cc) <= p)%Z ->
  (a <- take aa p ;; b <- take bb p ;; c <- take cc p ;;
   Ok (Rmax 0.0 (a * d + b * d ^ 2 + c))) = Raise IndexError.
Proof.
  intros H.
  destruct (take_cases aa p) as [-> | (a & Ha)]; [reflexivity|].
  rewrite Ha. cbn [bind].
  destruct (take_cases bb p) as [-> | (b & Hb)]; [reflexivity|].
  rewrite Hb. cbn [bind].
  destruct (take_cases cc p) as [-> | (c & Hc)]; [reflexivity|].
  exfalso. destruct H as [H | [H | H]]; apply take_beyond in H; congruence.
Qed.

(** X4. A cell inside the validity predicate whose pft has no entry in
    one of the coefficient tables makes [NULLMOD.aboveground_biomass]
    and [M12MOD.aboveground_biomass] fail with an [IndexError]: no
    buffer is returned. *)
Theorem quadratic_biomass_IndexError (inputs : Inputs) (i : nat) :
  length (zh inputs) = length (Bag inputs) ->
  length (pft inputs) = length (Bag inputs) ->
  (i < length (Bag inputs))%nat ->
  in_tide inputs (0.5 * TR inputs) i ->
  vegetated inputs i ->
  let p := at_Z (pft inputs) i in
  (forall n,
     (Z.of_nat (length (NULLMOD.aa n)) <= p
      \/ Z.of_nat (length (NULLMOD.bb n)) <= p
      \/ Z.of_nat (length (NULLMOD.cc n)) <= p)%Z ->
     NULLMOD.aboveground_biomass n inputs = Raise IndexError) /\
  (forall m,
     (Z.of_nat (length (M12MOD.aa m)) <= p
      \/ Z.of_nat (length (M12MOD.bb m)) <= p
      \/ Z.of_nat (length (M12MOD.cc m)) <= p)%Z ->
     M12MOD.aboveground_biomass m inputs = Raise IndexError).
Proof.
  intros Hz Hp Hi Ht Hv p. split.
  - intros n Hshort. unfold NULLMOD.aboveground_biomass.
    rewrite aligned_Ok by (repeat constructor; congruence).
    apply (masked_assign_Raise _ _ _ _ _ i); auto.
    + intros j _. apply quadratic_cell_cases.
    + now apply NULLMOD_indice_iff.
    + now apply quadratic_cell_fails.
  - intros m Hshort. unfold M12MOD.aboveground_biomass.
    rewrite aligned_Ok by (repeat constructor; congruence).
    apply (masked_assign_Raise _ _ _ _ _ i); auto.
    + intros j _. apply quadratic_cell_cases.
    + now apply M12MOD_indice_iff.
    + now apply quadratic_cell_fails.
Qed.

(** Tables that stop at pft 2 and a mangrove cell (pft 5). *)
Lemma quadratic_biomass_IndexError_witness :
  NULLMOD.aboveground_biomass Examples.null_params Examples.mangrove_cell
  = Raise IndexError.
Proof.
  assert (Hv : vegetated Examples.mangrove_cell 0)
    by (unfold vegetated; np_unfold; lia).
  refine (proj1 (quadratic_biomass_IndexError Examples.mangrove_cell 0
                   eq_refl eq_refl (Nat.lt_0_succ 0) mangrove_cell_in_tide Hv)
            Examples.null_params _).
  left. np_unfold. lia.
Defined.

(** X5. [DA07MOD.aboveground_biomass] and
    [KM12MOD.aboveground_biomass] select cells by elevation alone and
    look [Bmax] up for every selected cell: under a non-zero high
    water level, one cell inside the tidal frame whose pft has no entry
    in [Bmax] (a tree type, when the table stops at the mangroves)
    makes the call fail with an [IndexError]. *)
Theorem elevation_gated_biomass_IndexError (inputs : Inputs) (i : nat) :
  length (zh inputs) = length (Bag inputs) ->
  length (pft inputs) = length (Bag inputs) ->
  (i < length (Bag inputs))%nat ->
  let p := at_Z (pft inputs) i in
  (forall self,
     TR inputs <> 0 ->
     in_tide inputs (0.5 * TR inputs) i ->
     (Z.of_nat (length (DA07MOD.Bmax self)) <= p)%Z ->
     DA07MOD.aboveground_biomass self inputs = Raise IndexError) /\
  (forall self,
     MHHW inputs <> 0 ->
     in_tide inputs (MHHW inputs) i ->
     (Z.of_nat (length (KM12MOD.Bmax self)) <= p)%Z ->
     KM12MOD.aboveground_biomass self inputs = Raise IndexError).
Proof.
  intros Hz Hp Hi p. split.
  - intros self HTR Ht Hshort. unfold DA07MOD.aboveground_biomass.
    rewrite aligned_Ok by (repeat constructor; congruence).
    assert (HM : 0.5 * TR inputs <> 0) by lra.
    apply (masked_assign_Raise _ _ _ _ _ i); auto.
    + intros j _. rewrite div_Ok by exact HM. cbn [bind].
      destruct (take_cases (DA07MOD.Bmax self) (at_Z (pft inputs) j))
        as [-> | (b & ->)]; [now left | right; cbn [bind]; eauto].
    + now apply DA07MOD_indice_iff.
    + rewrite div_Ok by exact HM. cbn [bind].
      now rewrite take_beyond.
  - intros self HM Ht Hshort. unfold KM12MOD.aboveground_biomass.
    rewrite aligned_Ok by (repeat constructor; congruence).
    apply (masked_assign_Raise _ _ _ _ _ i); auto.
    + intros j _. unfold KM12MOD.Bps_cell.
      destruct (take_cases (KM12MOD.Bmax self) (at_Z (pft inputs) j))
        as [-> | (b & ->)]; [now left|]. cbn [bind].
      rewrite div_Ok by exact HM. cbn [bind].
      destruct (take_cases (KM12MOD.Tref self) (at_Z (pft inputs) j))
        as [-> | (t & ->)]; [now left|]. cbn [bind].
      destruct (take_cases (KM12MOD.sigmaB self) (at_Z (pft inputs) j))
        as [-> | (s & ->)]; [now left | right; cbn [bind]; eauto].
    + now apply KM12MOD_indice_iff.
    + unfold KM12MOD.Bps_cell. now rewrite take_beyond.
Qed.

(** A tree cell (pft 6) at [zh = 0.3] under a [Bmax] table of six
    entries. *)
Lemma elevation_gated_biomass_IndexError_witness :
  DA07MOD.aboveground_biomass Examples.da_params Cases.tree_cell
  = Raise IndexError.
Proof.
  refine (proj1 (elevation_gated_biomass_IndexError Cases.tree_cell 0
                   eq_refl eq_refl (Nat.lt_0_succ 0))
            Examples.da_params _ _ _).
  - np_unfold_more. lra.
  - unfold in_tide. np_unfold_more. lra.
  - np_unfold_more. lia.
Defined.

(** X6. The four closed-form variants are idempotent: calling
    [aboveground_biomass] again on the biomass it has just returned
    returns that biomass. *)
Theorem closed_form_biomass_idempotent (inputs : Inputs) (out : list R) :
  (forall self,
     NULLMOD.aboveground_biomass self inputs = Ok out ->
     NULLMOD.aboveground_biomass self (with_Bag inputs out) = Ok out) /\
  (forall self,
     M12MOD.aboveground_biomass self inputs = Ok out ->
     M12MOD.aboveground_biomass self (with_Bag inputs out) = Ok out) /\
  (forall self,
     DA07MOD.aboveground_biomass self inputs = Ok out ->
     DA07MOD.aboveground_biomass self (with_Bag inputs out) = Ok out) /\
  (forall self,
     KM12MOD.aboveground_biomass self inputs = Ok out ->
     KM12MOD.aboveground_biomass self (with_Bag inputs out) = Ok out).
Proof.
  repeat split; intros self H.
  - unfold NULLMOD.aboveground_biomass in *.
    apply aligned_Ok_inv in H as (Hal & H).
    pose proof (masked_assign_length _ _ _ _ _ H) as Hlen.
    cbn [with_Bag zh pft Bag TR]. rewrite Hlen, aligned_Ok by exact Hal.
    apply (masked_assign_again 0 (Bag inputs)). exact H.
  - unfold M12MOD.aboveground_biomass in *.
    apply aligned_Ok_inv in H as (Hal & H).
    pose proof (masked_assign_length _ _ _ _ _ H) as Hlen.
    cbn [with_Bag zh pft Bag TR]. rewrite Hlen, aligned_Ok by exact Hal.
    apply (masked_assign_again 0 (Bag inputs)). exact H.
  - unfold DA07MOD.aboveground_biomass in *.
    apply aligned_Ok_inv in H as (Hal & H).
    pose proof (masked_assign_length _ _ _ _ _ H) as Hlen.
    cbn [with_Bag zh pft Bag TR month]. rewrite Hlen, aligned_Ok by exact Hal.
    apply (masked_assign_again 0 (Bag inputs)). exact H.
  - unfold KM12MOD.aboveground_biomass in *.
    apply aligned_Ok_inv in H as (Hal & H).
    pose proof (masked_assign_length _ _ _ _ _ H) as Hlen.
    cbn [with_Bag zh pft Bag dofy]. rewrite Hlen, aligned_Ok by exact Hal.
    apply (masked_assign_again 0 (Bag inputs)). exact H.
Qed.

(** ** The seasonal cycle *)

(** X7. [DA07MOD.aboveground_biomass] at a cell inside the tidal frame,
    with [omega] in [[0,1]] and a non-negative [Bmax]: the biomass lies
    between the winter floor [omega * Bps] and the peak season biomass
    [Bps = (MHT - zh)/MHT * Bmax], which does not exceed [Bmax]; the
    peak is reached at month [3 + mps/2]. *)
Theorem DA07MOD_biomass_between_floor_and_peak (self : DA07MOD.params)
    (inputs : Inputs) (out : list R) (i : nat) :
  DA07MOD.aboveground_biomass self inputs = Ok out ->
  (i < length (Bag inputs))%nat ->
  in_tide inputs (0.5 * TR inputs) i ->
  0 <= DA07MOD.omega self <= 1 ->
  let MHT := 0.5 * TR inputs in
  exists bm,
    take (DA07MOD.Bmax self) (at_Z (pft inputs) i) = Ok bm /\
    let Bps := (MHT - at_R (zh inputs) i) / MHT * bm in
    (0 <= bm ->
       DA07MOD.omega self * Bps <= nth i out 0 <= Bps /\ Bps <= bm) /\
    (month inputs = 3 + DA07MOD.mps self / 2 -> nth i out 0 = Bps).
Proof.
  intros H Hi Ht Hom MHT. unfold DA07MOD.aboveground_biomass in H.
  apply aligned_Ok_inv in H as (_ & H).
  pose proof (masked_assign_set _ _ _ _ _ i H Hi
                (proj2 (DA07MOD_indice_iff _ _) Ht)) as Hc.
  inv_bind Hc. injection Hc as Hc. apply div_Ok_inv in Hv as (HM & ->).
  fold MHT in HM, Hc. exists v0. split; [exact Hv0|]. cbv zeta.
  unfold in_tide in Ht. fold MHT in Ht.
  set (rel := (MHT - at_R (zh inputs) i) / MHT) in *.
  assert (Hrel : 0 <= rel <= 1).
  { assert (HMpos : 0 < MHT) by lra. unfold rel, Rdiv. split.
    - apply Rmult_le_pos; [lra | left; now apply Rinv_0_lt_compat].
    - apply (Rmult_le_reg_r MHT); [exact HMpos|].
      rewrite Rmult_assoc, Rinv_l by exact HM. lra. }
  split.
  - intros Hbm. rewrite <- Hc.
    pose proof (SIN_bound (PI * month inputs / 6
                           - DA07MOD.mps self * PI / 12)) as Hs.
    set (s := sin _) in *. clearbody s.
    assert (HBps : 0 <= rel * v0) by (apply Rmult_le_pos; lra).
    assert (H1 : 0 <= rel * v0 * (1 - DA07MOD.omega self))
      by (apply Rmult_le_pos; lra).
    assert (H2 : 0 <= rel * v0 * (1 - DA07MOD.omega self) * (s + 1))
      by (apply Rmult_le_pos; lra).
    assert (H3 : 0 <= rel * v0 * (1 - DA07MOD.omega self) * (1 - s))
      by (apply Rmult_le_pos; lra).
    assert (H4 : 0 <= (1 - rel) * v0) by (apply Rmult_le_pos; lra).
    repeat split; lra.
  - intros Hm. rewrite <- Hc, Hm.
    replace (PI * (3 + DA07MOD.mps self / 2) / 6
             - DA07MOD.mps self * PI / 12) with (PI / 2) by field.
    rewrite sin_PI2. lra.
Qed.

(** The salt marsh cell of [marsh_04] in January, [mps = 7]. *)
Lemma DA07MOD_biomass_between_floor_and_peak_witness :
  exists out,
    DA07MOD.aboveground_biomass Examples.da_params Cases.marsh_04 = Ok out /\
    0.5 * 0.48 <= nth 0 out 0 <= 0.48.
Proof.
  assert (Hrun : exists out,
    DA07MOD.aboveground_biomass Examples.da_params Cases.marsh_04 = Ok out).
  { eexists. np_unfold_more. np_eval. reflexivity. }
  destruct Hrun as (out & Hrun). exists out. split; [exact Hrun|].
  assert (Ht : in_tide Cases.marsh_04 (0.5 * TR Cases.marsh_04) 0)
    by (unfold in_tide; np_unfold_more; lra).
  assert (Hom : 0 <= DA07MOD.omega Examples.da_params <= 1)
    by (np_unfold_more; lra).
  destruct (DA07MOD_biomass_between_floor_and_peak _ _ out 0%nat Hrun
              (Nat.lt_0_succ 0) Ht Hom) as (bm & Hbm & Hbounds & _).
  revert Hbm Hbounds. np_unfold_more. np_eval. intros [= <-] Hb.
  destruct Hb as ((Hlo & Hhi) & _); lra.
Defined.

(** X8. [KM12MOD.aboveground_biomass] at a cell inside the tidal frame:
    on the peak day [jdps] the biomass is the peak season biomass
    [Bps], floored at zero; with a non-negative [Bps] and [rBmin] in
    [[0,1]] it lies, on every day, between the winter biomass
    [rBmin * Bps] and [Bps]. *)
Theorem KM12MOD_biomass_between_winter_and_peak (self : KM12MOD.params)
    (inputs : Inputs) (out : list R) (i : nat) :
  KM12MOD.aboveground_biomass self inputs = Ok out ->
  (i < length (Bag inputs))%nat ->
  in_tide inputs (MHHW inputs) i ->
  exists Bps,
    KM12MOD.Bps_cell self inputs i = Ok Bps /\
    (dofy inputs = KM12MOD.jdps self -> nth i out 0 = Rmax Bps 0) /\
    (0 <= Bps -> 0 <= KM12MOD.rBmin self <= 1 ->
       KM12MOD.rBmin self * Bps <= nth i out 0 <= Bps).
Proof.
  intros H Hi Ht. unfold KM12MOD.aboveground_biomass in H.
  apply aligned_Ok_inv in H as (_ & H).
  pose proof (masked_assign_set _ _ _ _ _ i H Hi
                (proj2 (KM12MOD_indice_iff _ _) Ht)) as Hc.
  inv_bind Hc. injection Hc as Hc. exists v. split; [exact Hv|]. split.
  - intros Hjd. rewrite <- Hc, Hjd.
    replace (2 * PI * (KM12MOD.jdps self - KM12MOD.jdps self) / 365)
      with 0 by field.
    rewrite cos_0. f_equal; lra.
  - intros HB Hr. rewrite <- Hc.
    pose proof (COS_bound (2 * PI * (dofy inputs - KM12MOD.jdps self) / 365))
      as Hcos.
    set (c := cos _) in *. clearbody c.
    assert (H1 : 0 <= v * (1 - KM12MOD.rBmin self))
      by (apply Rmult_le_pos; lra).
    assert (H2 : 0 <= v * (1 - KM12MOD.rBmin self) * (1 + c))
      by (apply Rmult_le_pos; lra).
    assert (H3 : 0 <= v * (1 - KM12MOD.rBmin self) * (1 - c))
      by (apply Rmult_le_pos; lra).
    assert (H4 : 0 <= KM12MOD.rBmin self * v) by (apply Rmult_le_pos; lra).
    rewrite Rmax_left by lra. lra.
Qed.

(** The salt marsh cell of [two_cells] on the peak day. *)
Lemma KM12MOD_biomass_between_winter_and_peak_witness :
  exists out,
    KM12MOD.aboveground_biomass Examples.km_params Cases.two_cells = Ok out /\
    nth 1 out 0 = 1.2 * (1 - 0.3) / 1.
Proof.
  assert (Hrun : exists out,
    KM12MOD.aboveground_biomass Examples.km_params Cases.two_cells = Ok out).
  { eexists. np_unfold_more. np_eval. reflexivity. }
  destruct Hrun as (out & Hrun). exists out. split; [exact Hrun|].
  assert (Ht : in_tide Cases.two_cells (MHHW Cases.two_cells) 1)
    by (unfold in_tide; np_unfold_more; lra).
  destruct (KM12MOD_biomass_between_winter_and_peak _ _ out 1%nat Hrun
              (Nat.lt_succ_diag_r 1) Ht) as (Bps & HBps & Hpeak & _).
  rewrite Hpeak by reflexivity.
  revert HBps. np_unfold_more. np_eval. intros [= <-].
  rewrite Rmax_left; lra.
Defined.

(** X9. [KM12MOD.organic_deposition] has the period of the year: at
    day [jd + 365] it returns what it returns at day [jd]. *)
Theorem KM12MOD_deposition_period (self : KM12MOD.params) (inputs : Inputs) :
  KM12MOD.organic_deposition self (with_dofy inputs (dofy inputs + 365))
  = KM12MOD.organic_deposition self inputs.
Proof.
  unfold KM12MOD.organic_deposition, KM12MOD.Bps_cell, KM12MOD.phi_cell.
  cbn [with_dofy zh pft DepOM MHHW Tair dofy].
  apply bind_ext; intros _. apply masked_assign_ext; [reflexivity|].
  intros i _ _. apply bind_ext; intros phi. apply bind_ext; intros Bps.
  replace 2.0 with 2 by lra.
  replace (2 * PI * (dofy inputs + 365 - KM12MOD.jdps self + 56) / 365)
    with (2 * PI * (dofy inputs - KM12MOD.jdps self + 56) / 365 + 2 * PI)
    by field.
  replace (2 * PI * (dofy inputs + 365 - KM12MOD.jdps self) / 365)
    with (2 * PI * (dofy inputs - KM12MOD.jdps self) / 365 + 2 * PI)
    by field.
  now rewrite cos_shift_2PI, sin_shift_2PI.
Qed.

(** ** Roots and soil carbon *)

(** X10. [KM12MOD]: when [belowground_biomass] is called on the biomass
    that [aboveground_biomass] has just returned, a cell inside the
    tidal frame holds [max(phi, 0) * Bag] with the new [Bag] and the
    root:shoot quotient [phi = thetaBG * (MHHW - zh) + Dmbm] of its
    pft, and a cell outside keeps its [Bbg]. *)
Theorem KM12MOD_roots_follow_shoots (self : KM12MOD.params) (inputs : Inputs)
    (bag bbg : list R) (i : nat) :
  KM12MOD.aboveground_biomass self inputs = Ok bag ->
  KM12MOD.belowground_biomass self (with_Bag inputs bag) = Ok bbg ->
  (i < length (Bbg inputs))%nat ->
  (in_tide inputs (MHHW inputs) i ->
     exists phi,
       KM12MOD.phi_cell self inputs i = Ok phi /\
       nth i bbg 0 = Rmax phi 0 * nth i bag 0) /\
  (~ in_tide inputs (MHHW inputs) i -> nth i bbg 0 = nth i (Bbg inputs) 0).
Proof.
  intros Hab Hbg Hi.
  pose proof (KM12MOD_aboveground_nonneg inputs self bag) as Hnn.
  unfold KM12MOD.belowground_biomass in Hbg.
  apply aligned_Ok_inv in Hbg as (Hal & Hbg).
  cbn [with_Bag zh pft Bag Bbg MHHW] in Hal, Hbg. split; intros Ht.
  - pose proof (masked_assign_set _ _ _ _ _ i Hbg Hi
                  (proj2 (KM12MOD_indice_iff (with_Bag inputs bag) _) Ht))
      as Hc.
    inv_bind Hc. injection Hc as Hc. exists v. split; [exact Hv|].
    rewrite <- Hc. cbn [with_Bag Bag]. replace 0.0 with 0 by lra.
    f_equal. apply Rmax_left.
    (* the biomass just written is not negative *)
    unfold KM12MOD.aboveground_biomass in Hab.
    apply aligned_Ok_inv in Hab as (_ & Hab).
    inversion Hal as [|? ? _ Hal1]; subst.
    inversion Hal1 as [|? ? _ Hal2]; subst.
    inversion Hal2 as [|? ? Hlen _]; subst.
    assert (Hi' : (i < length (Bag inputs))%nat).
    { rewrite <- (masked_assign_length _ _ _ _ _ Hab). lia. }
    pose proof (masked_assign_set _ _ _ _ _ i Hab Hi'
                  (proj2 (KM12MOD_indice_iff _ _) Ht)) as Hd.
    inv_bind Hd. injection Hd as Hd. unfold at_R. rewrite <- Hd.
    apply Rmax_zero_r.
  - apply (masked_assign_keep _ _ _ _ _ i Hbg).
    eapply mask_false; [apply (KM12MOD_indice_iff (with_Bag inputs bag)) |].
    exact Ht.
Qed.

Lemma KM12MOD_roots_follow_shoots_witness :
  exists bag bbg,
    KM12MOD.aboveground_biomass Examples.km_params Cases.two_cells = Ok bag /\
    KM12MOD.belowground_biomass Examples.km_params
      (with_Bag Cases.two_cells bag) = Ok bbg /\
    nth 1 bbg 0 = (2 * (1 - 0.3) + 1) * nth 1 bag 0.
Proof.
  assert (Hab : exists bag,
    KM12MOD.aboveground_biomass Examples.km_params Cases.two_cells = Ok bag).
  { eexists. np_unfold_more. np_eval. reflexivity. }
  destruct Hab as (bag & Hab).
  assert (Hbg : exists bbg,
    KM12MOD.belowground_biomass Examples.km_params
      (with_Bag Cases.two_cells bag) = Ok bbg).
  { pose proof (masked_assign_length 0 _ _ _ bag
                  (proj2 (aligned_Ok_inv _ _ _ _ Hab))) as Hlen.
    unfold KM12MOD.belowground_biomass.
    rewrite aligned_Ok.
    2:{ cbn [with_Bag zh pft Bag Bbg]. rewrite Hlen.
        repeat constructor. }
    apply masked_assign_total. intros j Hj _.
    unfold KM12MOD.phi_cell. cbn [with_Bag pft zh MHHW].
    destruct j as [|[|j]]; [| |simpl in Hj; lia];
      np_unfold_more; np_eval; eauto. }
  destruct Hbg as (bbg & Hbg). exists bag, bbg.
  split; [exact Hab|]. split; [exact Hbg|].
  assert (Ht : in_tide Cases.two_cells (MHHW Cases.two_cells) 1)
    by (unfold in_tide; np_unfold_more; lra).
  destruct (KM12MOD_roots_follow_shoots _ _ bag bbg 1%nat Hab Hbg
              (Nat.lt_succ_diag_r 1)) as (Hin & _).
  destruct (Hin Ht) as (phi & Hphi & ->).
  revert Hphi. np_unfold_more. np_eval. intros [= <-].
  rewrite Rmax_left by lra. reflexivity.
Defined.

Lemma combine_map_pools (f g : R -> R) (l : list (R * R)) :
  combine (map f (map fst l)) (map g (map snd l))
  = map (fun c => (f (fst c), g (snd c))) l.
Proof.
  induction l as [|c l IH]; simpl; [reflexivity | now rewrite IH].
Qed.

(** X11. [KM12MOD.soilcarbon_decay] on an [OM] array as long as
    [DecayOM]: the call completes, whatever elevation or pft the cells
    have and whatever [DecayOM] held, and every cell receives, pool by
    pool, the pool times [(1 + (Tsoi - TrefOM) * sigmaOM) * k0 /
    3.1536e7].  An [OM] array of any other length except 1 is a shape
    error. *)
Theorem KM12MOD_decay_closed_form (self : KM12MOD.params) (inputs : Inputs) :
  let f := 1.0 + (Tair inputs - KM12MOD.TrefOM self) * KM12MOD.sigmaOM self in
  (length (OM inputs) = length (DecayOM inputs) ->
     KM12MOD.soilcarbon_decay self inputs
     = Ok (map (fun c => (f * KM12MOD.kl0 self / 3.1536e7 * fst c,
                          f * KM12MOD.kr0 self / 3.1536e7 * snd c))
             (OM inputs))) /\
  (length (OM inputs) <> length (DecayOM inputs) ->
   length (OM inputs) <> 1%nat ->
     KM12MOD.soilcarbon_decay self inputs = Raise ShapeError).
Proof.
  intros f. unfold KM12MOD.soilcarbon_decay. split.
  - intros Hlen.
    rewrite !broadcast_same by now rewrite !length_map.
    cbn [bind]. f_equal.
    apply (combine_map_pools
             (fun c => f * KM12MOD.kl0 self / 3.1536e7 * c)
             (fun c => f * KM12MOD.kr0 self / 3.1536e7 * c)).
  - intros Hn H1. rewrite broadcast_mismatch; [reflexivity | |];
      now rewrite !length_map.
Qed.

(** X12. [K16MOD.organic_deposition] on a [Bag] array as long as
    [DepOM]: the call completes and every cell, whatever its elevation
    or pft, receives [rhoOM * gammaB / 3.1536e7 * Bag]; a [Bag] array of
    one element is broadcast to all cells; any other length is a shape
    error. *)
Theorem K16MOD_deposition_closed_form (self : K16MOD.t) (inputs : Inputs) :
  let k := K16MOD.rhoOM (K16MOD.m_params self)
           * K16MOD.gammaB (K16MOD.m_params self) / 3.1536e7 in
  (length (Bag inputs) = length (DepOM inputs) ->
     K16MOD.organic_deposition self inputs
     = Ok (map (fun b => k * b) (Bag inputs))) /\
  (forall b, Bag inputs = [b] ->
     K16MOD.organic_deposition self inputs
     = Ok (repeat (k * b) (length (DepOM inputs)))) /\
  (length (Bag inputs) <> length (DepOM inputs) ->
   length (Bag inputs) <> 1%nat ->
     K16MOD.organic_deposition self inputs = Raise ShapeError).
Proof.
  intros k. unfold K16MOD.organic_deposition. repeat split.
  - intros Hlen. apply broadcast_same. now rewrite length_map.
  - intros b ->. apply broadcast_one.
  - intros Hn H1. apply broadcast_mismatch; now rewrite length_map.
Qed.

(** ** The growth and mortality step of VDK05MOD *)

(** X13. [VDK05MOD.aboveground_biomass] at a vegetated cell with a
    non-negative biomass, in terms of the net rate over the step
    [a = A * dt / 3.1536e7]: growth ([0 <= a < 1]) does not decrease the
    biomass, mortality ([-1 <= a <= 0]) does not increase it, and both
    a mortality beyond [-1] and a growth beyond [1] leave no biomass at
    all. *)
Theorem VDK05MOD_step_response (self : VDK05MOD.params) (inputs : Inputs)
    (out : list R) (i : nat) (A : R) :
  VDK05MOD.aboveground_biomass self inputs = Ok out ->
  (i < length (Bag inputs))%nat ->
  vegetated inputs i ->
  VDK05MOD.A_cell self (at_R (zh inputs) i) (at_R (Slope inputs) i)
    (at_R (Bag inputs) i) (at_Z (pft inputs) i) = Ok A ->
  0 <= at_R (Bag inputs) i ->
  let a := A * dt inputs / 3.1536e7 in
  let b := at_R (Bag inputs) i in
  (0 <= a < 1 -> b <= nth i out 0) /\
  (-1 <= a <= 0 -> 0 <= nth i out 0 <= b) /\
  (a <= -1 \/ 1 < a -> nth i out 0 = 0).
Proof.
  intros H Hi Hv HA Hb a b.
  destruct (VDK05MOD_aboveground_cell self inputs out i H Hi) as (Hin & _).
  destruct (Hin Hv) as (A' & HA' & Hne & Hout).
  rewrite HA in HA'. injection HA' as <-. fold a b in Hne, Hout.
  rewrite Hout. clear Hout Hin H HA. fold b in Hb. clearbody a b.
  assert (Hq : forall d, d <> 0 -> b * (1 + a) / d * d = b * (1 + a))
    by (intros d Hd; field; exact Hd).
  repeat split.
  - intros (H0 & H1). rewrite Rmax_right.
    + apply (Rmult_le_reg_r (1 - a)); [lra|]. rewrite Hq by lra. nra.
    + apply Rmult_le_pos; [nra | left; apply Rinv_0_lt_compat; lra].
  - apply Rmax_l.
  - apply Rmax_lub; [exact Hb|].
    apply (Rmult_le_reg_r (1 - a)); [lra|]. rewrite Hq by lra. nra.
  - intros [Hlo | Hhi]; apply Rmax_left.
    + apply (Rmult_le_reg_r (1 - a)); [lra|]. rewrite Hq by lra. nra.
    + apply (Rmult_le_reg_r (a - 1)); [lra|].
      replace (b * (1 + a) / (1 - a) * (a - 1)) with (- (b * (1 + a)))
        by (field; lra).
      nra.
Qed.

(** The senescent cell: [a = -1], the biomass of [1] is lost. *)
Lemma VDK05MOD_step_response_witness :
  exists out,
    VDK05MOD.aboveground_biomass Examples.vdk_params Examples.senescent_cell
    = Ok out /\
    nth 0 out 0 = 0.
Proof.
  assert (Hrun : exists out,
    VDK05MOD.aboveground_biomass Examples.vdk_params Examples.senescent_cell
    = Ok out).
  { eexists. np_run. reflexivity. }
  destruct Hrun as (out & Hrun). exists out. split; [exact Hrun|].
  assert (Hv : vegetated Examples.senescent_cell 0)
    by (unfold vegetated; np_unfold; lia).
  assert (HA : VDK05MOD.A_cell Examples.vdk_params
                 (at_R (zh Examples.senescent_cell) 0)
                 (at_R (Slope Examples.senescent_cell) 0)
                 (at_R (Bag Examples.senescent_cell) 0)
                 (at_Z (pft Examples.senescent_cell) 0) = Ok (-1)).
  { np_run. f_equal. lra. }
  assert (Hb : 0 <= at_R (Bag Examples.senescent_cell) 0)
    by (np_unfold; lra).
  destruct (VDK05MOD_step_response _ _ out 0%nat (-1) Hrun
              (Nat.lt_0_succ 0) Hv HA Hb) as (_ & _ & Hzero).
  apply Hzero. left. np_unfold. lra.
Defined.

(** ** Bare cells *)

Lemma marsh_step_bare (self : K16MOD.t) (inputs : Inputs) (rz mz : R)
    (p : Z) (v : R) :
  K16MOD.marsh_step self inputs rz mz 0 p = Ok v -> v = 0.
Proof.
  unfold K16MOD.marsh_step. intros H. inv_bind H. injection H as <-.
  apply div_Ok_inv in Hv1 as (_ & ->).
  replace (_ / _) with 0 by (unfold Rdiv; ring).
  apply Rmax_left. lra.
Qed.

(** X14. The growth and mortality steps create no biomass on a bare
    cell: a cell whose [Bag] is zero is zero in the buffer returned by
    [VDK05MOD.aboveground_biomass], and, unless it is a mangrove cell,
    in the buffer returned by [K16MOD.aboveground_biomass]. *)
Theorem bare_cells_stay_bare (inputs : Inputs) (i : nat) :
  at_R (Bag inputs) i = 0 ->
  (forall self out,
     VDK05MOD.aboveground_biomass self inputs = Ok out -> nth i out 0 = 0) /\
  (forall self self' out,
     at_Z (pft inputs) i <> 5%Z ->
     K16MOD.aboveground_biomass self inputs = Ok (self', out) ->
     nth i out 0 = 0).
Proof.
  intros Hbare. split.
  - intros self out H.
    destruct (Nat.lt_ge_cases i (length (Bag inputs))) as [Hi|Hi].
    + unfold VDK05MOD.aboveground_biomass in H.
      apply aligned_Ok_inv in H as (_ & H).
      pose proof (masked_assign_cell _ _ _ _ _ i H Hi) as Hc.
      destruct (VDK05MOD.indice inputs i).
      * inv_bind Hc. injection Hc as <-.
        apply div_Ok_inv in Hv0 as (_ & ->). rewrite Hbare.
        replace (_ / _) with 0 by (unfold Rdiv; ring).
        rewrite Rmax_left by lra. lra.
      * injection Hc as <-. exact Hbare.
    + apply nth_overflow.
      destruct (VDK05MOD_aboveground_unchanged inputs self out H) as (-> & _).
      exact Hi.
  - intros self self' out Hp H.
    destruct (K16MOD_aboveground_unchanged inputs self self' out H)
      as ((Hlen & _) & _).
    destruct (Nat.lt_ge_cases i (length (Bag inputs))) as [Hi|Hi].
    2:{ apply nth_overflow. now rewrite Hlen. }
    unfold K16MOD.aboveground_biomass in H.
    apply aligned_Ok_inv in H as (_ & H). inv_bind H. injection H as _ <-.
    pose proof (masked_assign_length _ _ _ _ _ Hv) as Hl1.
    pose proof (masked_assign_length _ _ _ _ _ Hv0) as Hl2.
    (* the first marsh branch *)
    assert (H1 : at_R v i = 0).
    { pose proof (masked_assign_cell _ _ _ _ _ i Hv Hi) as Hc.
      unfold at_R at 1.
      destruct (K16MOD.indice_spartina inputs i).
      - inv_bind Hc. rewrite Hbare in Hc.
        now apply marsh_step_bare in Hc.
      - injection Hc as <-. exact Hbare. }
    (* the second marsh branch *)
    assert (H2 : at_R v0 i = 0).
    { rewrite <- Hl1 in Hi.
      pose proof (masked_assign_cell _ _ _ _ _ i Hv0 Hi) as Hc.
      unfold at_R at 1.
      destruct (K16MOD.indice_multi inputs i).
      - inv_bind Hc. rewrite H1 in Hc.
        now apply marsh_step_bare in Hc.
      - injection Hc as <-. exact H1. }
    (* the mangrove branch does not select the cell *)
    rewrite (masked_assign_keep _ _ _ _ _ i Hv3); [exact H2|].
    unfold K16MOD.indice_mangrove.
    rewrite (proj2 (Z.eqb_neq _ _) Hp). apply andb_false_r.
Qed.

(** The salt marsh cell of [marsh_cell] holds no biomass. *)
Lemma bare_cells_stay_bare_witness :
  exists out,
    VDK05MOD.aboveground_biomass Examples.vdk_params Examples.marsh_cell
    = Ok out /\
    nth 0 out 0 = 0.
Proof.
  assert (Hrun : exists out,
    VDK05MOD.aboveground_biomass Examples.vdk_params Examples.marsh_cell
    = Ok out).
  { eexists. np_run. reflexivity. }
  destruct Hrun as (out & Hrun). exists out. split; [exact Hrun|].
  exact (proj1 (bare_cells_stay_bare Examples.marsh_cell 0 eq_refl)
           Examples.vdk_params out Hrun).
Defined.

(** ** The mangrove stand of K16MOD *)

Lemma K16MOD_indice_marsh_pft (inputs : Inputs) (i : nat) :
  K16MOD.indice_marsh inputs i = true -> (2 <= at_Z (pft inputs) i <= 4)%Z.
Proof.
  unfold K16MOD.indice_marsh. rewrite !andb_true_iff, !Z.leb_le. tauto.
Qed.

(** X16. [K16MOD.belowground_biomass] on a constructed instance, an
    index-aligned transect with a mangrove cell inside the tidal frame
    and a [phi] table that covers the marsh types: the diameter at the
    mangrove cell is zero, and once the marsh cells are written the
    tree density [0.5 / Md] divides by it.  (numpy stores [inf], then
    [nan], in [Bbg]; the model marks the division with
    [FloatingPointError].) *)
Theorem K16MOD_belowground_divides_by_zero (p : K16MOD.params) (nx : nat)
    (inputs : Inputs) (i : nat) :
  length (Bbg inputs) = nx ->
  length (zh inputs) = nx ->
  length (pft inputs) = nx ->
  length (Bag inputs) = nx ->
  (5 <= length (K16MOD.phi p))%nat ->
  (i < nx)%nat ->
  at_Z (pft inputs) i = 5%Z ->
  in_tide inputs (0.5 * TR inputs) i ->
  at_R (K16MOD.Md (K16MOD.init p nx)) i = 0 /\
  K16MOD.belowground_biomass (K16MOD.init p nx) inputs
  = Raise FloatingPointError.
Proof.
  intros HBb Hz Hp HB Hphi Hi Hpft Ht.
  assert (Hm : K16MOD.indice_mangrove inputs i = true)
    by (apply K16MOD_indice_mangrove_iff; auto).
  split; [apply at_R_repeat_zero|].
  unfold K16MOD.belowground_biomass.
  rewrite aligned_Ok.
  2:{ cbn [K16MOD.init K16MOD.Md]. rewrite repeat_length.
      repeat constructor; congruence. }
  destruct (masked_assign_total 0 (Bbg inputs) (K16MOD.indice_marsh inputs)
              (fun i => ph <- take (K16MOD.phi (K16MOD.m_params
                                                  (K16MOD.init p nx)))
                               (at_Z (pft inputs) i) ;;
                        Ok (ph * at_R (Bag inputs) i)))
    as (Bbg1 & H1).
  { intros j _ Hj. apply K16MOD_indice_marsh_pft in Hj.
    destruct (take_in_range (K16MOD.phi p) (at_Z (pft inputs) j))
      as (ph & Hph); [lia|].
    cbn [K16MOD.init K16MOD.m_params]. rewrite Hph. cbn [bind]. eauto. }
  rewrite H1. cbn [bind].
  apply (masked_assign_Raise _ _ _ _ _ i).
  - intros j _. left. cbn [K16MOD.init K16MOD.Md].
    now rewrite at_R_repeat_zero, div_zero.
  - rewrite (masked_assign_length _ _ _ _ _ H1). lia.
  - exact Hm.
  - cbn [K16MOD.init K16MOD.Md]. now rewrite at_R_repeat_zero, div_zero.
Qed.

(** A transect of one mangrove cell. *)
Lemma K16MOD_belowground_divides_by_zero_witness :
  at_R (K16MOD.Md (K16MOD.init Examples.k16_params 1)) 0 = 0 /\
  K16MOD.belowground_biomass (K16MOD.init Examples.k16_params 1)
    Examples.mangrove_cell
  = Raise FloatingPointError.
Proof.
  apply (K16MOD_belowground_divides_by_zero Examples.k16_params 1
           Examples.mangrove_cell 0); try reflexivity.
  - np_unfold. lia.
  - apply Nat.lt_0_succ.
  - apply mangrove_cell_in_tide.
Defined.

(** ** The cells of the transect *)

Lemma item_in_range (l : list R) (i : nat) :
  (i < length l)%nat -> Ecogeom.item l i = Ok (nth i l 0).
Proof.
  intros H. unfold Ecogeom.item.
  now rewrite (nth_error_nth' l 0 H).
Qed.

Lemma item_beyond (l : list R) (i : nat) :
  (length l <= i)%nat -> Ecogeom.item l i = Raise IndexError.
Proof.
  intros H. unfold Ecogeom.item.
  now rewrite (proj2 (nth_error_None l i) H).
Qed.

Lemma sum_app (l1 l2 : list R) :
  Ecogeom.sum (l1 ++ l2) = Ecogeom.sum l1 + Ecogeom.sum l2.
Proof.
  unfold Ecogeom.sum. induction l1 as [|a l1 IH]; simpl; [lra|].
  rewrite IH. lra.
Qed.

Section Widths.

Variable x : list R.
Hypothesis Hnx : (2 <= length x)%nat.

Let xi (i : nat) : R := nth i x 0.

Lemma dx_first : Ecogeom.dx_cell x 0 = Ok (0.5 * (xi 1 - xi 0)).
Proof.
  unfold Ecogeom.dx_cell. cbn [Nat.eqb Nat.add].
  rewrite !item_in_range by lia. reflexivity.
Qed.

Lemma dx_inner (k : nat) :
  (0 < k)%nat -> (k < length x - 1)%nat ->
  Ecogeom.dx_cell x k = Ok (0.5 * (xi (k + 1) - xi (k - 1))).
Proof.
  intros H0 H1. unfold Ecogeom.dx_cell.
  rewrite (proj2 (Nat.eqb_neq k 0)) by lia.
  rewrite (proj2 (Nat.eqb_neq k (length x - 1))) by lia.
  rewrite !item_in_range by lia. reflexivity.
Qed.

Lemma dx_last :
  Ecogeom.dx_cell x (length x - 1)
  = Ok (0.5 * (xi (length x - 1) - xi (length x - 2))).
Proof.
  unfold Ecogeom.dx_cell.
  rewrite (proj2 (Nat.eqb_neq (length x - 1) 0)) by lia.
  rewrite Nat.eqb_refl.
  rewrite !item_in_range by lia.
  replace (length x - 1 - 1)%nat with (length x - 2)%nat by lia.
  reflexivity.
Qed.

(** The widths of the first [k] cells add up to the distance from the
    first node to the middle of nodes [k - 1] and [k]. *)
Lemma widths_prefix (k : nat) :
  (1 <= k)%nat -> (k <= length x - 1)%nat ->
  exists l,
    mapM (Ecogeom.dx_cell x) (seq 0 k) = Ok l /\
    length l = k /\
    Ecogeom.sum l = 0.5 * (xi k + xi (k - 1)) - xi 0.
Proof.
  induction k as [|k IH]; [lia|]. intros _ Hk.
  destruct k as [|k].
  - exists [0.5 * (xi 1 - xi 0)]. cbn [seq mapM]. rewrite dx_first.
    cbn [bind]. repeat split. unfold Ecogeom.sum. cbn [fold_right Nat.sub].
    lra.
  - destruct IH as (l & Hl & Hlen & Hsum); [lia | lia |].
    rewrite seq_S, mapM_app, Hl. cbn [bind Nat.add mapM].
    rewrite dx_inner by lia. cbn [bind].
    eexists. split; [reflexivity|]. split.
    + rewrite length_app, Hlen. cbn [length]. lia.
    + rewrite sum_app, Hsum. unfold Ecogeom.sum. cbn [fold_right].
      replace (S k + 1)%nat with (S (S k)) by lia.
      replace (S k - 1)%nat with k by lia.
      replace (S (S k) - 1)%nat with (S k) by lia.
      lra.
Qed.

Lemma widths_tile :
  exists dx,
    Ecogeom.cell_widths x = Ok dx /\
    length dx = length x /\
    Ecogeom.sum dx = xi (length x - 1) - xi 0.
Proof.
  destruct (widths_prefix (length x - 1)) as (l & Hl & Hlen & Hsum);
    [lia | lia |].
  unfold Ecogeom.cell_widths.
  assert (E : seq 0 (length x) = seq 0 (length x - 1) ++ [length x - 1]%nat).
  { replace (length x) with (S (length x - 1)) at 1 by lia.
    now rewrite seq_S. }
  rewrite E, mapM_app, Hl. cbn [bind mapM].
  rewrite dx_last. cbn [bind].
  eexists. split; [reflexivity|]. split.
  - rewrite length_app, Hlen. cbn [length]. lia.
  - rewrite sum_app, Hsum. unfold Ecogeom.sum. cbn [fold_right].
    replace (length x - 1 - 1)%nat with (length x - 2)%nat by lia.
    lra.
Qed.

End Widths.

(** X17. On a transect of at least two nodes the loop of the script
    gives every node a cell width, and the widths add up to the
    distance between the first and the last node: the cells tile the
    transect. *)
Theorem cell_widths_tile_transect (x : list R) :
  (2 <= length x)%nat ->
  exists dx,
    Ecogeom.cell_widths x = Ok dx /\
    length dx = length x /\
    Ecogeom.sum dx = nth (length x - 1) x 0 - nth 0 x 0.
Proof. apply widths_tile. Qed.

(** Nodes at 0, 10 and 30 m: widths 5, 15 and 10 m. *)
Lemma cell_widths_tile_transect_witness :
  exists dx,
    Ecogeom.cell_widths Cases.x3 = Ok dx /\
    length dx = 3%nat /\
    Ecogeom.sum dx = 30 - 0.
Proof.
  apply (cell_widths_tile_transect Cases.x3).
  np_unfold_more. lia.
Defined.

Section Faces.

Variables x zh : list R.
Hypothesis Hnx : (2 <= length x)%nat.
Hypothesis Hzh : length zh = length x.

Let z (i : nat) : R := nth i zh 0.

Lemma zh0_value (k : nat) :
  (k < length x)%nat ->
  Ecogeom.zh0_cell (length x) zh k
  = Ok (if Nat.eqb k 0 then z 0 else 0.5 * (z k + z (k - 1))).
Proof.
  intros Hk. unfold Ecogeom.zh0_cell.
  destruct (Nat.eqb k 0) eqn:E0.
  - apply Nat.eqb_eq in E0. subst k. apply item_in_range. lia.
  - apply Nat.eqb_neq in E0.
    destruct (Nat.eqb k (length x - 1));
      rewrite !item_in_range by lia; reflexivity.
Qed.

Lemma zh1_value (k : nat) :
  (k < length x)%nat ->
  Ecogeom.zh1_cell (length x) zh k
  = Ok (if Nat.eqb k (length x - 1) then z k
        else if Nat.eqb k 0 then 0.5 * (z (k + 1) + z k)
        else 0.5 * (z k + z (k + 1))).
Proof.
  intros Hk. unfold Ecogeom.zh1_cell.
  destruct (Nat.eqb k 0) eqn:E0.
  - apply Nat.eqb_eq in E0. subst k.
    rewrite (proj2 (Nat.eqb_neq 0 (length x - 1))) by lia.
    rewrite !item_in_range by lia. reflexivity.
  - destruct (Nat.eqb k (length x - 1)) eqn:E1.
    + apply item_in_range. lia.
    + apply Nat.eqb_neq in E1. rewrite !item_in_range by lia. reflexivity.
Qed.

Lemma faces_meet :
  exists zh0 zh1,
    Ecogeom.lower_faces x zh = Ok zh0 /\
    Ecogeom.upper_faces x zh = Ok zh1 /\
    nth 0 zh0 0 = z 0 /\
    nth (length x - 1) zh1 0 = z (length x - 1) /\
    forall i, (i + 1 < length x)%nat -> nth i zh1 0 = nth (i + 1) zh0 0.
Proof.
  destruct (mapM_total (Ecogeom.zh0_cell (length x) zh) (seq 0 (length x)))
    as (zh0 & H0).
  { intros k Hk. apply in_seq in Hk. rewrite zh0_value by lia. eauto. }
  destruct (mapM_total (Ecogeom.zh1_cell (length x) zh) (seq 0 (length x)))
    as (zh1 & H1).
  { intros k Hk. apply in_seq in Hk. rewrite zh1_value by lia. eauto. }
  exists zh0, zh1. split; [exact H0|]. split; [exact H1|].
  assert (V0 : forall k, (k < length x)%nat ->
            nth k zh0 0
            = if Nat.eqb k 0 then z 0 else 0.5 * (z k + z (k - 1))).
  { intros k Hk.
    pose proof (mapM_nth _ _ _ O 0 H0 k) as Hc.
    rewrite length_seq, seq_nth, zh0_value in Hc by lia.
    cbn [Nat.add] in Hc. specialize (Hc Hk). now injection Hc. }
  assert (V1 : forall k, (k < length x)%nat ->
            nth k zh1 0
            = if Nat.eqb k (length x - 1) then z k
              else if Nat.eqb k 0 then 0.5 * (z (k + 1) + z k)
              else 0.5 * (z k + z (k + 1))).
  { intros k Hk.
    pose proof (mapM_nth _ _ _ O 0 H1 k) as Hc.
    rewrite length_seq, seq_nth, zh1_value in Hc by lia.
    cbn [Nat.add] in Hc. specialize (Hc Hk). now injection Hc. }
  split; [now rewrite V0 by lia|].
  split; [now rewrite V1, Nat.eqb_refl by lia|].
  intros i Hi. rewrite V0, V1 by lia.
  rewrite (proj2 (Nat.eqb_neq i (length x - 1))) by lia.
  rewrite (proj2 (Nat.eqb_neq (i + 1) 0)) by lia.
  replace (i + 1 - 1)%nat with i by lia.
  destruct (Nat.eqb i 0); lra.
Qed.

End Faces.

(** X19. On a transect of at least two nodes with an elevation for each
    node, the face elevations that the loop computes fit together: the
    upper face of a cell is the lower face of the next one, the first
    lower face is the elevation of the first node and the last upper
    face the elevation of the last node. *)
Theorem cell_faces_meet (x zh : list R) :
  (2 <= length x)%nat ->
  length zh = length x ->
  exists zh0 zh1,
    Ecogeom.lower_faces x zh = Ok zh0 /\
    Ecogeom.upper_faces x zh = Ok zh1 /\
    nth 0 zh0 0 = nth 0 zh 0 /\
    nth (length x - 1) zh1 0 = nth (length x - 1) zh 0 /\
    forall i, (i + 1 < length x)%nat -> nth i zh1 0 = nth (i + 1) zh0 0.
Proof. apply faces_meet. Qed.

Lemma cell_faces_meet_witness :
  exists zh0 zh1,
    Ecogeom.lower_faces Cases.x3 Cases.zh3 = Ok zh0 /\
    Ecogeom.upper_faces Cases.x3 Cases.zh3 = Ok zh1 /\
    nth 0 zh0 0 = nth 0 Cases.zh3 0 /\
    nth (length Cases.x3 - 1) zh1 0 = nth (length Cases.x3 - 1) Cases.zh3 0 /\
    forall i, (i + 1 < length Cases.x3)%nat ->
              nth i zh1 0 = nth (i + 1) zh0 0.
Proof.
  apply (cell_faces_meet Cases.x3 Cases.zh3).
  - np_unfold_more. lia.
  - reflexivity.
Defined.

(** ** The whole pass of the loop *)

Lemma item_cases (l : list R) (i : nat) :
  Ecogeom.item l i = Raise IndexError \/ exists v, Ecogeom.item l i = Ok v.
Proof.
  unfold Ecogeom.item. destruct (nth_error l i); [right; eauto | now left].
Qed.

Ltac item_split :=
  repeat match goal with
  | |- context [Ecogeom.item ?l ?i] =>
      let v := fresh "v" in
      destruct (item_cases l i) as [-> | (v & ->)];
      cbn [bind]; [now left|]
  end.

(** A pass fails in one way only. *)
Lemma cell_pass_cases (x zh : list R) (ii : nat) :
  EcogeomLoop.cell_pass x zh ii = Raise IndexError
  \/ exists v, EcogeomLoop.cell_pass x zh ii = Ok v.
Proof.
  unfold EcogeomLoop.cell_pass, Ecogeom.dx_cell, Ecogeom.zh0_cell,
    Ecogeom.zh1_cell.
  destruct (Nat.eqb ii 0); [|destruct (Nat.eqb ii (length x - 1))];
    item_split; right; eauto.
Qed.

(** Every pass reads the elevation of its own node. *)
Lemma cell_pass_reads_node (x zh : list R) (ii : nat) :
  (length zh <= ii)%nat ->
  EcogeomLoop.cell_pass x zh ii = Raise IndexError.
Proof.
  intros Hii.
  destruct (cell_pass_cases x zh ii) as [H | (v & H)]; [exact H|].
  exfalso. unfold EcogeomLoop.cell_pass in H. inv_bind H.
  pose proof (item_beyond zh ii Hii) as Hno.
  unfold Ecogeom.zh0_cell in Hv0.
  destruct (Nat.eqb ii 0); [congruence|].
  destruct (Nat.eqb ii (length x - 1)); inv_bind Hv0; congruence.
Qed.

Lemma cell_pass_completes (x zh : list R) (ii : nat) :
  (2 <= length x)%nat -> (length x <= length zh)%nat ->
  (ii < length x)%nat ->
  exists v, EcogeomLoop.cell_pass x zh ii = Ok v.
Proof.
  intros Hnx Hzh Hii.
  unfold EcogeomLoop.cell_pass, Ecogeom.dx_cell, Ecogeom.zh0_cell,
    Ecogeom.zh1_cell.
  destruct (Nat.eqb ii 0) eqn:E0.
  - apply Nat.eqb_eq in E0. subst ii.
    rewrite !item_in_range by (cbn [Nat.add]; lia). cbn [bind]. eauto.
  - apply Nat.eqb_neq in E0.
    destruct (Nat.eqb ii (length x - 1)) eqn:E1.
    + rewrite !item_in_range by lia. cbn [bind]. eauto.
    + apply Nat.eqb_neq in E1.
      rewrite !item_in_range by lia. cbn [bind]. eauto.
Qed.

(** X18. The loop of the script, with all three statements of each
    pass: an empty transect gives empty arrays; otherwise the loop
    raises an [IndexError] exactly when the transect has a single node
    (the first pass reads [x[1]]) or [zh] has fewer entries than [x]. *)
Theorem geometry_loop_IndexError (x zh : list R) :
  EcogeomLoop.geometry [] zh = Ok [] /\
  (EcogeomLoop.geometry x zh = Raise IndexError
   <-> length x = 1%nat \/ (2 <= length x /\ length zh < length x)%nat).
Proof.
  split; [reflexivity|]. unfold EcogeomLoop.geometry. split.
  - intros H.
    destruct (Nat.eq_dec (length x) 1) as [E1 | E1]; [now left | right].
    destruct (Nat.lt_ge_cases (length x) 2) as [Hlt | Hge].
    + destruct x as [|a [|b x]]; cbn [length] in *; try lia.
      discriminate.
    + split; [exact Hge|].
      destruct (Nat.lt_ge_cases (length zh) (length x)) as [Hz | Hz];
        [exact Hz|].
      exfalso.
      destruct (mapM_total (EcogeomLoop.cell_pass x zh) (seq 0 (length x)))
        as (out & Hout).
      * intros k Hk. apply in_seq in Hk.
        apply cell_pass_completes; lia.
      * congruence.
  - intros [E1 | (Hge & Hz)].
    + destruct x as [|a [|b x]]; try discriminate. reflexivity.
    + apply mapM_Raise.
      * intros k _. apply cell_pass_cases.
      * exists (length zh). split; [apply in_seq; lia|].
        now apply cell_pass_reads_node.
Qed.
